(** * Episode collector and behaviour prior: a shallow embedding

    The development follows [src/models/behavior_prior.py] and
    [src/data_pipeline/collector.py].  Python objects are modelled as the
    code uses them:

    - [int] is [Z]; [float] is an abstract carrier [F] with the operations of
      the class [PyFloat].  The instance [binary64] interprets it by Rocq's
      primitive IEEE 754 doubles (what CPython computes); the instance
      [exact] interprets it by the real numbers (arithmetic without
      rounding);
    - a [dict] is an insertion-ordered association list ([pydict]): the
      order is observable, [sample_scroll] walks the histogram in that order;
    - values read from JSON are the type [json];
    - a call that may raise returns a [result]; code that mutates [self] or
      calls the environment is a state-and-error computation [M];
    - the random generator is a stream of draws consumed in order. *)

From Stdlib Require Import ZArith List String Ascii Bool Lia DecimalString.
From Stdlib Require Import Floats.
From Stdlib Require Import Reals Lra.
From Stdlib Require DecimalN DecimalPos.
Import ListNotations.

Set Warnings "-register-all,-notation-for-abbreviation".

Local Open Scope string_scope.
Local Open Scope Z_scope.

(* ================================================================= *)
(** ** Results and the state-and-error monad *)

(** Python exceptions, split the way [except Exception] splits them. *)
Inductive exn : Type :=
| Exception (cls : string)
| BaseException (cls : string).

(** [OutOfModel] marks a run that Python would continue with a value
    outside the declared annotations (an action name that is a number, a
    count that is a string, a snapshot that is not laid out as [save] writes
    it, ...): the typed records below cannot hold it. *)
Inductive result (A : Type) : Type :=
| Ok (a : A)
| Raise (e : exn)
| OutOfModel.
Arguments Ok {A} a.
Arguments Raise {A} e.
Arguments OutOfModel {A}.

Definition M (S A : Type) : Type := S -> S * result A.

Definition ret {S A : Type} (a : A) : M S A := fun s => (s, Ok a).

Definition bind {S A B : Type} (m : M S A) (k : A -> M S B) : M S B :=
  fun s =>
    match m s with
    | (s', Ok a) => k a s'
    | (s', Raise e) => (s', Raise e)
    | (s', OutOfModel) => (s', OutOfModel)
    end.

Definition lift {S A : Type} (r : result A) : M S A := fun s => (s, r).
Definition raise {S A : Type} (e : exn) : M S A := lift (Raise e).
Definition gets {S A : Type} (f : S -> A) : M S A := fun s => (s, Ok (f s)).
Definition modify {S : Type} (f : S -> S) : M S unit := fun s => (f s, Ok tt).

Declare Scope monad_scope.
Delimit Scope monad_scope with monad.
Notation "x <- c ;; k" := (bind c (fun x => k))
  (at level 61, c at next level, right associativity) : monad_scope.
Notation "c ;;; k" := (bind c (fun _ => k))
  (at level 61, right associativity) : monad_scope.
Local Open Scope monad_scope.

(** A [for] loop whose body may raise. *)
Fixpoint for_each {S A : Type} (l : list A) (body : A -> M S unit) : M S unit :=
  match l with
  | [] => ret tt
  | a :: l' => body a ;;; for_each l' body
  end.

(** Runs a computation on a component of the state; the component is
    written back whether or not the computation raised, as a mutation that
    happened before a Python exception stays. *)
Definition zoom {S T A : Type} (get : S -> T) (set : T -> S -> S)
    (m : M T A) : M S A :=
  fun s => let (t', r) := m (get s) in (set t' s, r).

(* ================================================================= *)
(** ** Dictionaries *)

Definition pydict (V : Type) : Type := list (string * V).

Fixpoint dget {V : Type} (k : string) (d : pydict V) : option V :=
  match d with
  | [] => None
  | (k', v) :: d' => if String.eqb k k' then Some v else dget k d'
  end.

(** [d[k] = v]: an existing key keeps its place, a new key goes last. *)
Fixpoint dset {V : Type} (k : string) (v : V) (d : pydict V) : pydict V :=
  match d with
  | [] => [(k, v)]
  | (k', v') :: d' =>
      if String.eqb k k' then (k', v) :: d' else (k', v') :: dset k v d'
  end.

Definition dkeys {V : Type} (d : pydict V) : list string := map fst d.

(** [Counter]'s [c[k] += 1]: a missing key counts 0. *)
Definition counter_incr (k : string) (c : pydict Z) : pydict Z :=
  dset k (match dget k c with Some n => n + 1 | None => 1 end) c.

Definition mem_str (s : string) (l : list string) : bool :=
  existsb (String.eqb s) l.

(* ================================================================= *)
(** ** Floats *)

(** The operations the source performs on [float] values. *)
Class PyFloat (F : Type) : Type := {
  f_zero : F;                       (* 0.0 *)
  f_one : F;                        (* 1.0 *)
  f_fifth : F;                      (* the literal 0.2 *)
  f_add : F -> F -> F;
  f_sub : F -> F -> F;
  f_mul : F -> F -> F;
  f_div : F -> F -> F;              (* divisor not zero *)
  f_sqrt : F -> F;                  (* argument not negative *)
  f_ltb : F -> F -> bool;           (* a < b; False on NaN *)
  f_is_zero : F -> bool;            (* a == 0.0: the falsy floats *)
  f_int_fits : Z -> bool;           (* float(n) does not overflow *)
  f_of_int : Z -> F;                (* float(n), correctly rounded *)
  f_trunc : F -> option Z;          (* int(a); None on NaN and infinities *)
  f_cmp_int : F -> Z -> option comparison; (* exact; None on NaN *)
  (** what the source relies on: a float not below 1.0 is neither
      negative nor zero *)
  f_one_not_neg : f_ltb f_one f_zero = false;
  f_ge_one_not_neg : forall a, f_ltb a f_one = false -> f_ltb a f_zero = false;
  f_one_not_zero : f_is_zero f_one = false;
  f_ge_one_not_zero : forall a, f_ltb a f_one = false -> f_is_zero a = false;
  f_small_int_fits : forall n, Z.abs n <= 2 ^ 64 -> f_int_fits n = true
}.

(** *** IEEE 754 binary64 *)

Definition Z2F (z : Z) : float := SF2Prim (binary_normalize prec emax z 0 false).

(** [float(n)] raises OverflowError exactly when [n] rounds (to nearest,
    ties to even) past the largest double. *)
Definition double_int_bound : Z := 2 ^ 1024 - 2 ^ 970.

Definition float_trunc (a : float) : option Z :=
  match Prim2SF a with
  | S754_zero _ => Some 0
  | S754_finite s m e =>
      let mag := if 0 <=? e then Z.pos m * 2 ^ e else Z.pos m / 2 ^ (- e) in
      Some (if s then - mag else mag)
  | S754_infinity _ | S754_nan => None
  end.

(** Compares the double [m * 2^e] with the integer [n] without rounding,
    as CPython compares a float with an int. *)
Definition float_cmp_int (a : float) (n : Z) : option comparison :=
  match Prim2SF a with
  | S754_zero _ => Some (0 ?= n)
  | S754_finite s m e =>
      let v := if s then Z.neg m else Z.pos m in
      Some (if 0 <=? e then v * 2 ^ e ?= n else v ?= n * 2 ^ (- e))
  | S754_infinity s => Some (if s then Lt else Gt)
  | S754_nan => None
  end.

(** *** Exact arithmetic *)

Definition R_ltb (a b : R) : bool := if Rlt_dec a b then true else false.
Definition R_is_zero (a : R) : bool := if Req_dec_T a 0%R then true else false.
Definition R_trunc (a : R) : option Z :=
  Some (if Rle_dec 0%R a then Int_part a else (- Int_part (- a))%Z).
Definition R_cmp_int (a : R) (n : Z) : option comparison :=
  Some (if Rlt_dec a (IZR n) then Lt else if Rlt_dec (IZR n) a then Gt else Eq).

Lemma float_one_not_neg : PrimFloat.ltb 1 0 = false.
Proof. reflexivity. Qed.

Lemma float_ge_one_not_neg (a : float) :
  PrimFloat.ltb a 1 = false -> PrimFloat.ltb a 0 = false.
Proof.
  rewrite !ltb_spec.
  change (Prim2SF 0) with (S754_zero false).
  change (Prim2SF 1) with (S754_finite false 4503599627370496 (-52)).
  destruct (Prim2SF a) as [s | s | | s m e]; try destruct s;
    intros H; solve [reflexivity | discriminate H].
Qed.

Lemma float_ge_one_not_zero (a : float) :
  PrimFloat.ltb a 1 = false -> PrimFloat.eqb a 0 = false.
Proof.
  rewrite ltb_spec, eqb_spec.
  change (Prim2SF 0) with (S754_zero false).
  change (Prim2SF 1) with (S754_finite false 4503599627370496 (-52)).
  destruct (Prim2SF a) as [s | s | | s m e]; try destruct s;
    intros H; solve [reflexivity | discriminate H].
Qed.

Lemma double_small_int_fits (n : Z) :
  Z.abs n <= 2 ^ 64 -> (Z.abs n <? double_int_bound) = true.
Proof.
  intros Hn. apply Z.ltb_lt.
  assert (Hb : 2 ^ 64 < double_int_bound) by (vm_compute; reflexivity).
  lia.
Qed.

Lemma R_one_not_neg : R_ltb 1 0 = false.
Proof. unfold R_ltb. destruct (Rlt_dec 1 0); [lra | reflexivity]. Qed.

Lemma R_ge_one_not_neg (a : R) : R_ltb a 1 = false -> R_ltb a 0 = false.
Proof.
  unfold R_ltb. destruct (Rlt_dec a 1); [discriminate |].
  destruct (Rlt_dec a 0); [lra | reflexivity].
Qed.

Lemma R_one_not_zero : R_is_zero 1 = false.
Proof. unfold R_is_zero. destruct (Req_dec_T 1 0); [lra | reflexivity]. Qed.

Lemma R_ge_one_not_zero (a : R) : R_ltb a 1 = false -> R_is_zero a = false.
Proof.
  unfold R_ltb, R_is_zero. destruct (Rlt_dec a 1); [discriminate |].
  destruct (Req_dec_T a 0); [lra | reflexivity].
Qed.

#[export] Instance binary64 : PyFloat float := {|
  f_zero := 0%float;
  f_one := 1%float;
  f_fifth := 0x1.999999999999ap-3%float;
  f_add := PrimFloat.add;
  f_sub := PrimFloat.sub;
  f_mul := PrimFloat.mul;
  f_div := PrimFloat.div;
  f_sqrt := PrimFloat.sqrt;
  f_ltb := PrimFloat.ltb;
  f_is_zero := fun a => PrimFloat.eqb a 0;
  f_int_fits := fun n => Z.abs n <? double_int_bound;
  f_of_int := Z2F;
  f_trunc := float_trunc;
  f_cmp_int := float_cmp_int;
  f_one_not_neg := float_one_not_neg;
  f_ge_one_not_neg := float_ge_one_not_neg;
  f_one_not_zero := eq_refl;
  f_ge_one_not_zero := float_ge_one_not_zero;
  f_small_int_fits := double_small_int_fits
|}.

#[export] Instance exact : PyFloat R := {|
  f_zero := 0%R;
  f_one := 1%R;
  f_fifth := (1 / 5)%R;
  f_add := Rplus;
  f_sub := Rminus;
  f_mul := Rmult;
  f_div := Rdiv;
  f_sqrt := sqrt;
  f_ltb := R_ltb;
  f_is_zero := R_is_zero;
  f_int_fits := fun _ => true;
  f_of_int := IZR;
  f_trunc := R_trunc;
  f_cmp_int := R_cmp_int;
  f_one_not_neg := R_one_not_neg;
  f_ge_one_not_neg := R_ge_one_not_neg;
  f_one_not_zero := R_one_not_zero;
  f_ge_one_not_zero := R_ge_one_not_zero;
  f_small_int_fits := fun _ _ => eq_refl
|}.

(* ================================================================= *)
(** ** The behaviour prior ([src/models/behavior_prior.py]) *)

Section Model.

Context {F : Type} {PF : PyFloat F}.


(** What [json.load] returns.  Python's [None] is [JNull]. *)
Inductive json : Type :=
| JNull
| JBool (b : bool)
| JInt (n : Z)
| JFloat (a : F)
| JStr (s : string)
| JList (l : list json)
| JDict (d : list (string * json)).

(** Python's truth value, as [not name] and [a or b] test it. *)
Definition truthy (v : json) : bool :=
  match v with
  | JNull => false
  | JBool b => b
  | JInt n => negb (n =? 0)
  | JFloat a => negb (f_is_zero a)
  | JStr s => negb (String.eqb s "")
  | JList l => match l with [] => false | _ :: _ => true end
  | JDict d => match d with [] => false | _ :: _ => true end
  end.

Definition py_or (a b : json) : json := if truthy a then a else b.

(** [d.get(k)] and [d.get(k, dflt)] on a dict. *)
Definition dict_get (d : pydict json) (k : string) : json :=
  match dget k d with Some v => v | None => JNull end.

Definition dict_get_default (d : pydict json) (k : string) (dflt : json) : json :=
  match dget k d with Some v => v | None => dflt end.

(** The receiver of a [.get]: anything but a dict has no such attribute. *)
Definition as_dict (v : json) : result (pydict json) :=
  match v with
  | JDict d => Ok d
  | _ => Raise (Exception "AttributeError")
  end.

(** [isinstance(v, (int, float))]; [bool] is a subclass of [int]. *)
Definition isinstance_number (v : json) : bool :=
  match v with
  | JInt _ | JFloat _ | JBool _ => true
  | _ => false
  end.

(** [isinstance(v, int)], with the integer the value stands for. *)
Definition as_int (v : json) : option Z :=
  match v with
  | JInt n => Some n
  | JBool b => Some (if b then 1 else 0)
  | _ => None
  end.

(** [float(v)], and the conversion of a number operand of a float
    operation. *)
Definition int_to_float (n : Z) : result F :=
  if f_int_fits n then Ok (f_of_int n) else Raise (Exception "OverflowError").

Definition py_float (v : json) : result F :=
  match v with
  | JInt n => int_to_float n
  | JFloat a => Ok a
  | JBool b => Ok (if b then f_one else f_zero)
  | _ => Raise (Exception "TypeError")
  end.

(** [a / n] for a float [a] and an int [n]. *)
Definition div_int (a : F) (n : Z) : result F :=
  if n =? 0 then Raise (Exception "ZeroDivisionError")
  else match int_to_float n with
       | Ok b => Ok (f_div a b)
       | Raise e => Raise e
       | OutOfModel => OutOfModel
       end.

(** [n * 0.2] for an int [n]. *)
Definition int_times_fifth (n : Z) : result F :=
  match int_to_float n with
  | Ok b => Ok (f_mul b f_fifth)
  | Raise e => Raise e
  | OutOfModel => OutOfModel
  end.

(** [max(a, 1.0)]: the second argument wins only when it is greater. *)
Definition max_one (a : F) : F := if f_ltb a f_one then f_one else a.

Definition math_sqrt (a : F) : result F :=
  if f_ltb a f_zero then Raise (Exception "ValueError") else Ok (f_sqrt a).

Definition CoordActions : list string :=
  ["click_at"; "hover_at"; "scroll_at"; "drag_and_drop"].

Definition ScrollActions : list string := ["scroll_at"; "scroll_document"].

(** [_m2x], [_m2y] and [_n] are the attributes that [fit_from_episodes]
    attaches on the first sample; [None] is an attribute not set. *)
Record ActionStats : Type := mkActionStats {
  count : Z;
  mean_x : option F;
  mean_y : option F;
  std_x : option F;
  std_y : option F;
  direction_counts : option (pydict Z);
  magnitudes : option (list Z);
  _m2x : option F;
  _m2y : option F;
  _n : option Z
}.

(** [ActionStats()] *)
Definition new_ActionStats : ActionStats :=
  mkActionStats 0 None None None None None None None None None.

Definition set_count (v : Z) (st : ActionStats) : ActionStats :=
  mkActionStats v (mean_x st) (mean_y st) (std_x st) (std_y st)
    (direction_counts st) (magnitudes st) (_m2x st) (_m2y st) (_n st).
Definition set_mean_x (v : option F) (st : ActionStats) : ActionStats :=
  mkActionStats (count st) v (mean_y st) (std_x st) (std_y st)
    (direction_counts st) (magnitudes st) (_m2x st) (_m2y st) (_n st).
Definition set_mean_y (v : option F) (st : ActionStats) : ActionStats :=
  mkActionStats (count st) (mean_x st) v (std_x st) (std_y st)
    (direction_counts st) (magnitudes st) (_m2x st) (_m2y st) (_n st).
Definition set_std_x (v : option F) (st : ActionStats) : ActionStats :=
  mkActionStats (count st) (mean_x st) (mean_y st) v (std_y st)
    (direction_counts st) (magnitudes st) (_m2x st) (_m2y st) (_n st).
Definition set_std_y (v : option F) (st : ActionStats) : ActionStats :=
  mkActionStats (count st) (mean_x st) (mean_y st) (std_x st) v
    (direction_counts st) (magnitudes st) (_m2x st) (_m2y st) (_n st).
Definition set_direction_counts (v : option (pydict Z)) (st : ActionStats)
  : ActionStats :=
  mkActionStats (count st) (mean_x st) (mean_y st) (std_x st) (std_y st)
    v (magnitudes st) (_m2x st) (_m2y st) (_n st).
Definition set_magnitudes (v : option (list Z)) (st : ActionStats)
  : ActionStats :=
  mkActionStats (count st) (mean_x st) (mean_y st) (std_x st) (std_y st)
    (direction_counts st) v (_m2x st) (_m2y st) (_n st).
Definition set_m2x (v : option F) (st : ActionStats) : ActionStats :=
  mkActionStats (count st) (mean_x st) (mean_y st) (std_x st) (std_y st)
    (direction_counts st) (magnitudes st) v (_m2y st) (_n st).
Definition set_m2y (v : option F) (st : ActionStats) : ActionStats :=
  mkActionStats (count st) (mean_x st) (mean_y st) (std_x st) (std_y st)
    (direction_counts st) (magnitudes st) (_m2x st) v (_n st).
Definition set_n (v : option Z) (st : ActionStats) : ActionStats :=
  mkActionStats (count st) (mean_x st) (mean_y st) (std_x st) (std_y st)
    (direction_counts st) (magnitudes st) (_m2x st) (_m2y st) v.

(** [stats_default] tells whether [action_stats] is the [defaultdict] of
    [__init__] (a missing kind is created on lookup) or the plain dict that
    [load] installs (a missing kind is a KeyError). *)
Record BehaviorPrior : Type := mkBehaviorPrior {
  screen_w : Z;
  screen_h : Z;
  action_counts : pydict Z;
  action_stats : pydict ActionStats;
  stats_default : bool
}.

(** [BehaviorPrior((w, h))] *)
Definition new_BehaviorPrior (w h : Z) : BehaviorPrior :=
  mkBehaviorPrior w h [] [] true.

Definition set_action_counts (c : pydict Z) (bp : BehaviorPrior) : BehaviorPrior :=
  mkBehaviorPrior (screen_w bp) (screen_h bp) c (action_stats bp) (stats_default bp).
Definition set_action_stats (s : pydict ActionStats) (bp : BehaviorPrior)
  : BehaviorPrior :=
  mkBehaviorPrior (screen_w bp) (screen_h bp) (action_counts bp) s (stats_default bp).

(** The object [st = self.action_stats[name]]: reads and writes of [st] are
    reads and writes of the entry. *)
Definition stats_of (name : string) (bp : BehaviorPrior) : ActionStats :=
  match dget name (action_stats bp) with
  | Some st => st
  | None => new_ActionStats
  end.

Definition on_stats {A : Type} (name : string) (m : M ActionStats A)
  : M BehaviorPrior A :=
  zoom (stats_of name)
       (fun st bp => set_action_stats (dset name st (action_stats bp)) bp) m.

(** [self.action_stats[name]] *)
Definition lookup_stats (name : string) : M BehaviorPrior unit :=
  fun bp =>
    match dget name (action_stats bp) with
    | Some _ => (bp, Ok tt)
    | None =>
        if stats_default bp
        then (set_action_stats (dset name new_ActionStats (action_stats bp)) bp, Ok tt)
        else (bp, Raise (Exception "KeyError"))
    end.

(** Reads an attribute that may not have been set. *)
Definition attr {A : Type} (field : ActionStats -> option A) : M ActionStats A :=
  fun st =>
    match field st with
    | Some v => (st, Ok v)
    | None => (st, Raise (Exception "AttributeError"))
    end.

(** *** [fit_from_episodes] *)

(** The Welford update of one coordinate sample, on the object [st].  Each
    line of the source is one step; a step that raises leaves the earlier
    writes in place. *)
Definition welford_update (x y : json) : M ActionStats unit :=
  st <- gets (fun st => st) ;;
  match mean_x st with
  | None =>
      (* st.mean_x, st.mean_y = float(x), float(y) *)
      fx <- lift (py_float x) ;;
      fy <- lift (py_float y) ;;
      modify (fun st => set_mean_y (Some fy) (set_mean_x (Some fx) st)) ;;;
      (* st.std_x, st.std_y = 0.0, 0.0 *)
      modify (fun st => set_std_y (Some f_zero) (set_std_x (Some f_zero) st)) ;;;
      (* st._m2x, st._m2y, st._n = 0.0, 0.0, 1 *)
      modify (fun st =>
                set_n (Some 1) (set_m2y (Some f_zero) (set_m2x (Some f_zero) st)))
  | Some mx =>
      (* st._n += 1 *)
      n0 <- attr _n ;;
      let n := n0 + 1 in
      modify (set_n (Some n)) ;;;
      (* dx = x - st.mean_x *)
      fx <- lift (py_float x) ;;
      let dx := f_sub fx mx in
      (* st.mean_x += dx / st._n *)
      q <- lift (div_int dx n) ;;
      let mx' := f_add mx q in
      modify (set_mean_x (Some mx')) ;;;
      (* st._m2x += dx * (x - st.mean_x) *)
      m2x <- attr _m2x ;;
      let m2x' := f_add m2x (f_mul dx (f_sub fx mx')) in
      modify (set_m2x (Some m2x')) ;;;
      (* dy = y - st.mean_y *)
      my <- (fun st => match mean_y st with
                       | Some my => (st, Ok my)
                       | None => (st, Raise (Exception "TypeError"))
                       end) ;;
      fy <- lift (py_float y) ;;
      let dy := f_sub fy my in
      (* st.mean_y += dy / st._n *)
      q <- lift (div_int dy n) ;;
      let my' := f_add my q in
      modify (set_mean_y (Some my')) ;;;
      (* st._m2y += dy * (y - st.mean_y) *)
      m2y <- attr _m2y ;;
      let m2y' := f_add m2y (f_mul dy (f_sub fy my')) in
      modify (set_m2y (Some m2y')) ;;;
      (* st.std_x = math.sqrt(max(st._m2x / max(st._n - 1, 1), 1.0)) *)
      vx <- lift (div_int m2x' (Z.max (n - 1) 1)) ;;
      sx <- lift (math_sqrt (max_one vx)) ;;
      modify (set_std_x (Some sx)) ;;;
      (* st.std_y = math.sqrt(max(st._m2y / max(st._n - 1, 1), 1.0)) *)
      vy <- lift (div_int m2y' (Z.max (n - 1) 1)) ;;
      sy <- lift (math_sqrt (max_one vy)) ;;
      modify (set_std_y (Some sy))
  end.

(** The block under [if name in CoordActions]. *)
Definition fit_coordinates (name : string) (args : json) : M BehaviorPrior unit :=
  if mem_str name CoordActions then
    a <- lift (as_dict args) ;;
    let x := py_or (dict_get a "x") (dict_get a "destination_x") in
    let y := py_or (dict_get a "y") (dict_get a "destination_y") in
    if isinstance_number x && isinstance_number y
    then on_stats name (welford_update x y)
    else ret tt
  else ret tt.

(** The block under [if name in ("scroll_at", "scroll_document")].  A
    [bool] magnitude passes [isinstance(mag, int)] and is kept as the
    integer it equals. *)
Definition fit_scroll (name : string) (args : json) : M BehaviorPrior unit :=
  if mem_str name ScrollActions then
    on_stats name
      (modify (fun st => match direction_counts st with
                         | None => set_direction_counts (Some []) st
                         | Some _ => st
                         end)) ;;;
    a <- lift (as_dict args) ;;
    (match dict_get a "direction" with
     | JStr dir =>
         on_stats name
           (modify (fun st =>
              set_direction_counts
                (Some (counter_incr dir
                         (match direction_counts st with Some c => c | None => [] end)))
                st))
     | _ => ret tt
     end) ;;;
    if String.eqb name "scroll_at" then
      on_stats name
        (modify (fun st => match magnitudes st with
                           | None => set_magnitudes (Some []) st
                           | Some _ => st
                           end)) ;;;
      match as_int (dict_get a "magnitude") with
      | Some mag =>
          on_stats name
            (modify (fun st =>
               set_magnitudes
                 (Some ((match magnitudes st with Some l => l | None => [] end)
                          ++ [mag])%list)
                 st))
      | None => ret tt
      end
    else ret tt
  else ret tt.

(** The body of [for step in ep.get("steps", [])]. *)
Definition fit_step (step : json) : M BehaviorPrior unit :=
  s <- lift (as_dict step) ;;
  act <- lift (as_dict (dict_get_default s "action" (JDict []))) ;;
  let name := dict_get act "name" in
  let args := dict_get_default act "args" (JDict []) in
  if negb (truthy name) then ret tt
  else
    match name with
    | JStr nm =>
        (* self.action_counts[name] += 1 *)
        modify (fun bp => set_action_counts (counter_incr nm (action_counts bp)) bp) ;;;
        (* st = self.action_stats[name] *)
        lookup_stats nm ;;;
        (* st.count += 1 *)
        on_stats nm (modify (fun st => set_count (count st + 1) st)) ;;;
        fit_coordinates nm args ;;;
        fit_scroll nm args
    | JList _ | JDict _ => raise (Exception "TypeError") (* unhashable key *)
    | _ => lift OutOfModel                               (* a number as kind *)
    end.

(** What a [for] loop iterates over. *)
Definition py_iter (v : json) : result (list json) :=
  match v with
  | JList l => Ok l
  | JDict d => Ok (map (fun kv => JStr (fst kv)) d)
  | JStr s => Ok (map (fun c => JStr (String c EmptyString)) (list_ascii_of_string s))
  | _ => Raise (Exception "TypeError")
  end.

Definition fit_episode (ep : json) : M BehaviorPrior unit :=
  e <- lift (as_dict ep) ;;
  steps <- lift (py_iter (dict_get_default e "steps" (JList []))) ;;
  for_each steps fit_step.

(** What [open(ep_file)] followed by [json.load] gives. *)
Inductive index_file : Type :=
| Unreadable (e : exn)
| Parsed (ep : json).

(** An entry of the episodes directory: not a directory, or a directory
    with or without an [episode.json]. *)
Inductive dir_entry : Type :=
| NotDir
| EpisodeDir (index : option index_file).

(** The path [<episodes_dir>/episodes]. *)
Inductive episodes_path : Type :=
| PathMissing
| PathNotDir
| PathDir (entries : list dir_entry).

Definition fit_entry (e : dir_entry) : M BehaviorPrior unit :=
  match e with
  | NotDir => ret tt
  | EpisodeDir None => ret tt
  | EpisodeDir (Some (Unreadable e)) => raise e
  | EpisodeDir (Some (Parsed ep)) => fit_episode ep
  end.

(** The body of the finalization loop, on one [st]. *)
Definition finalize_stats (w h : Z) : M ActionStats unit :=
  st <- gets (fun st => st) ;;
  if count st <=? 1 then
    (match std_x st with
     | None => a <- lift (int_times_fifth w) ;; modify (set_std_x (Some (max_one a)))
     | Some _ => ret tt
     end) ;;;
    st <- gets (fun st => st) ;;
    match std_y st with
    | None => a <- lift (int_times_fifth h) ;; modify (set_std_y (Some (max_one a)))
    | Some _ => ret tt
    end
  else ret tt.

Definition finalize : M BehaviorPrior unit :=
  bp <- gets (fun bp => bp) ;;
  for_each (dkeys (action_stats bp))
    (fun name => on_stats name (finalize_stats (screen_w bp) (screen_h bp))).

Definition fit_from_episodes (p : episodes_path) : M BehaviorPrior unit :=
  match p with
  | PathMissing => raise (Exception "FileNotFoundError")
  | PathNotDir => raise (Exception "NotADirectoryError")
  | PathDir entries => for_each entries fit_entry ;;; finalize
  end.

(** *** [save] and [load]

    [save] builds the document [out] and hands it to [json.dump]; [load]
    starts from what [json.load] returns.  The text in between belongs to
    the [json] library, which reads back the document it wrote. *)

Definition json_of_option_float (a : option F) : json :=
  match a with Some v => JFloat v | None => JNull end.

Definition json_of_counter (c : pydict Z) : json :=
  JDict (map (fun kv => (fst kv, JInt (snd kv))) c).

Definition to_dict (st : ActionStats) : json :=
  JDict
    [("count", JInt (count st));
     ("mean_x", json_of_option_float (mean_x st));
     ("mean_y", json_of_option_float (mean_y st));
     ("std_x", json_of_option_float (std_x st));
     ("std_y", json_of_option_float (std_y st));
     ("direction_counts",
       json_of_counter (match direction_counts st with Some c => c | None => [] end));
     ("magnitudes",
       JList (map JInt (match magnitudes st with Some l => l | None => [] end)))].

Definition save (bp : BehaviorPrior) : json :=
  JDict
    [("screen_size", JList [JInt (screen_w bp); JInt (screen_h bp)]);
     ("action_counts", json_of_counter (action_counts bp));
     ("action_stats",
       JDict (map (fun kv => (fst kv, to_dict (snd kv))) (action_stats bp)))].

Definition rbind {A B : Type} (r : result A) (k : A -> result B) : result B :=
  match r with
  | Ok a => k a
  | Raise e => Raise e
  | OutOfModel => OutOfModel
  end.

Fixpoint int_values (d : list (string * json)) : option (pydict Z) :=
  match d with
  | [] => Some []
  | (k, JInt n) :: d' =>
      match int_values d' with Some r => Some ((k, n) :: r) | None => None end
  | _ :: _ => None
  end.

Fixpoint int_items (l : list json) : option (list Z) :=
  match l with
  | [] => Some []
  | v :: l' =>
      match as_int v, int_items l' with
      | Some n, Some r => Some (n :: r)
      | _, _ => None
      end
  end.

(** [Counter(v)] for a histogram stored as a JSON object. *)
Definition counter_of_json (v : json) : result (pydict Z) :=
  match v with
  | JDict d => match int_values d with Some c => Ok c | None => OutOfModel end
  | JNull => Ok []
  | JBool _ | JInt _ | JFloat _ => Raise (Exception "TypeError")
  | JStr _ | JList _ => OutOfModel
  end.

(** [list(v)] for the magnitude samples. *)
Definition int_list_of_json (v : json) : result (list Z) :=
  match v with
  | JList l => match int_items l with Some r => Ok r | None => OutOfModel end
  | JNull | JBool _ | JInt _ | JFloat _ => Raise (Exception "TypeError")
  | JStr _ | JDict _ => OutOfModel
  end.

Definition option_float_of_json (v : json) : result (option F) :=
  match v with
  | JNull => Ok None
  | JFloat a => Ok (Some a)
  | _ => OutOfModel
  end.

Definition from_dict (v : json) : result ActionStats :=
  rbind (as_dict v) (fun d =>
  rbind (match dict_get_default d "count" (JInt 0) with
         | JInt n => Ok n
         | _ => OutOfModel
         end) (fun c =>
  rbind (option_float_of_json (dict_get d "mean_x")) (fun mx =>
  rbind (option_float_of_json (dict_get d "mean_y")) (fun my =>
  rbind (option_float_of_json (dict_get d "std_x")) (fun sx =>
  rbind (option_float_of_json (dict_get d "std_y")) (fun sy =>
  rbind (counter_of_json (dict_get_default d "direction_counts" (JDict []))) (fun dc =>
  rbind (int_list_of_json (dict_get_default d "magnitudes" (JList []))) (fun mags =>
  Ok (mkActionStats c mx my sx sy (Some dc) (Some mags) None None None))))))))).

(** [size[0], size[1]] *)
Definition screen_size_of_json (v : json) : result (Z * Z) :=
  match v with
  | JList (JInt w :: JInt h :: _) => Ok (w, h)
  | JList (_ :: _ :: _) => OutOfModel
  | JList _ => Raise (Exception "IndexError")
  | JDict _ => Raise (Exception "KeyError")
  | JStr s => if (String.length s <? 2)%nat then Raise (Exception "IndexError")
              else OutOfModel
  | JNull | JBool _ | JInt _ | JFloat _ => Raise (Exception "TypeError")
  end.

Fixpoint stats_of_items (d : list (string * json)) : result (pydict ActionStats) :=
  match d with
  | [] => Ok []
  | (k, v) :: d' =>
      rbind (from_dict v) (fun st =>
      rbind (stats_of_items d') (fun r => Ok ((k, st) :: r)))
  end.

Definition load (doc : json) : result BehaviorPrior :=
  rbind (as_dict doc) (fun d =>
  rbind (screen_size_of_json
           (dict_get_default d "screen_size" (JList [JInt 1440; JInt 900])))
        (fun size =>
  rbind (counter_of_json (dict_get_default d "action_counts" (JDict []))) (fun counts =>
  rbind (as_dict (dict_get_default d "action_stats" (JDict []))) (fun items =>
  rbind (stats_of_items items) (fun stats =>
  Ok (mkBehaviorPrior (fst size) (snd size) counts stats false)))))).

(** *** The random generator

    [random] is a stream of draws: the [k]-th call takes the [k]-th
    integer draw (reduced to the range asked for) or the [k]-th standard
    normal variate. *)
Record Rng : Type := mkRng {
  rand_int : nat -> Z;
  rand_normal : nat -> F;
  cursor : nat
}.

Definition advance (g : Rng) : Rng :=
  mkRng (rand_int g) (rand_normal g) (S (cursor g)).

Definition randbelow (n : Z) : M Rng Z :=
  fun g => (advance g, Ok (rand_int g (cursor g) mod n)).

(** [random.randint(a, b)] *)
Definition randint (a b : Z) : M Rng Z :=
  if b <? a then raise (Exception "ValueError")
  else k <- randbelow (b - a + 1) ;; ret (a + k).

(** [random.choice(seq)] *)
Definition choice {A : Type} (seq : list A) : M Rng A :=
  match seq with
  | [] => raise (Exception "IndexError")
  | a :: _ =>
      k <- randbelow (Z.of_nat (List.length seq)) ;;
      ret (nth (Z.to_nat k) seq a)
  end.

(** [random.gauss(mu, sigma)] is [mu + z * sigma] for a standard normal
    [z]; [mu] may be an attribute that holds [None]. *)
Definition gauss (mu : option F) (sigma : F) : M Rng F :=
  fun g =>
    match mu with
    | Some m => (advance g, Ok (f_add m (f_mul (rand_normal g (cursor g)) sigma)))
    | None => (advance g, Raise (Exception "TypeError"))
    end.

(** [int(a)] for a float. *)
Definition py_int (a : F) : result Z :=
  match f_trunc a with
  | Some n => Ok n
  | None => Raise (Exception "ValueError or OverflowError")
  end.

(** *** Sampling *)

(** [st.std_x or (self.screen_w * 0.2)] *)
Definition sigma_or_default (s : option F) (dim : Z) : result F :=
  match s with
  | Some a => if f_is_zero a then int_times_fifth dim else Ok a
  | None => int_times_fifth dim
  end.

Definition clamp (dim v : Z) : Z := Z.max 0 (Z.min (dim - 1) v).

Definition sample_coordinates (bp : BehaviorPrior) (name : string) : M Rng (Z * Z) :=
  xy <- match dget name (action_stats bp) with
        | Some st =>
            match mean_x st with
            | Some mx =>
                sigma_x <- lift (sigma_or_default (std_x st) (screen_w bp)) ;;
                sigma_y <- lift (sigma_or_default (std_y st) (screen_h bp)) ;;
                gx <- gauss (Some mx) sigma_x ;;
                x <- lift (py_int gx) ;;
                gy <- gauss (mean_y st) sigma_y ;;
                y <- lift (py_int gy) ;;
                ret (x, y)
            | None => ret (screen_w bp / 2, screen_h bp / 2)
            end
        | None => ret (screen_w bp / 2, screen_h bp / 2)
        end ;;
  ret (clamp (screen_w bp) (fst xy), clamp (screen_h bp) (snd xy)).

(** The walk over the cumulative counts. *)
Fixpoint pick_direction (r cum : Z) (items : pydict Z) (chosen : string) : string :=
  match items with
  | [] => chosen
  | (d, c) :: rest =>
      if r <=? cum + c then d else pick_direction r (cum + c) rest chosen
  end.

Definition sum_counts (items : pydict Z) : Z :=
  fold_left (fun acc kv => acc + snd kv) items 0.

Definition sample_scroll (bp : BehaviorPrior) (at_ : bool) : M Rng (string * Z) :=
  let name := if at_ then "scroll_at" else "scroll_document" in
  let st := dget name (action_stats bp) in
  chosen <- match st with
            | Some {| direction_counts := Some ((d0, c0) :: rest) |} =>
                let items := (d0, c0) :: rest in
                r <- randint 1 (sum_counts items) ;;
                ret (pick_direction r 0 items d0)
            | _ =>
                if at_ then choice ["up"; "down"; "left"; "right"]
                else choice ["up"; "down"]
            end ;;
  mag <- (if at_ then
            match st with
            | Some {| magnitudes := Some (m0 :: ms) |} => choice (m0 :: ms)
            | _ => choice [200; 400; 800]
            end
          else ret 0) ;;
  ret (chosen, mag).

(** *** [action_prob] *)

(** [a / b] for two ints.  CPython rounds the exact quotient once; up to
    [2^53] both operands are doubles and dividing them is that rounding.
    Larger operands are left out. *)
Definition int_truediv (a b : Z) : result F :=
  if b =? 0 then Raise (Exception "ZeroDivisionError")
  else if (Z.abs a <=? 2 ^ 53) && (Z.abs b <=? 2 ^ 53)
       then Ok (f_div (f_of_int a) (f_of_int b))
       else OutOfModel.

Definition action_prob (bp : BehaviorPrior) (name : string) : result F :=
  let total := sum_counts (action_counts bp) in
  if total =? 0 then Ok (f_div f_one f_one)
  else int_truediv (match dget name (action_counts bp) with
                    | Some c => c
                    | None => 0
                    end) total.

(** *** [validate_or_adjust]

    The argument mapping is a mutable object that the caller keeps a
    reference to, so dict objects live in a heap and are named by their
    position in it. *)
Record Mem : Type := mkMem {
  heap : list (pydict json);
  rng : Rng
}.

Definition ref : Type := nat.

Fixpoint update_nth {A : Type} (i : nat) (f : A -> A) (l : list A) : list A :=
  match l, i with
  | [], _ => []
  | a :: l', O => f a :: l'
  | a :: l', S i' => a :: update_nth i' f l'
  end.

(** A new dict object. *)
Definition alloc (d : pydict json) : M Mem ref :=
  fun m => (mkMem (heap m ++ [d])%list (rng m), Ok (List.length (heap m))).

Definition deref (r : ref) : M Mem (pydict json) :=
  fun m =>
    match nth_error (heap m) r with
    | Some d => (m, Ok d)
    | None => (m, OutOfModel)        (* no reference dangles in Python *)
    end.

(** [obj[k] = v] *)
Definition setitem (r : ref) (k : string) (v : json) : M Mem unit :=
  modify (fun m => mkMem (update_nth r (dset k v) (heap m)) (rng m)).

Definition with_rng {A : Type} (c : M Rng A) : M Mem A :=
  zoom rng (fun g m => mkMem (heap m) g) c.

(** [v < n] and [v >= n] for a number [v] and an int [n]. *)
Definition num_lt (v : json) (n : Z) : bool :=
  match v with
  | JInt a => a <? n
  | JBool b => (if b then 1 else 0) <? n
  | JFloat a => match f_cmp_int a n with Some Lt => true | _ => false end
  | _ => false
  end.

Definition num_ge (v : json) (n : Z) : bool :=
  match v with
  | JInt a => n <=? a
  | JBool b => n <=? (if b then 1 else 0)
  | JFloat a => match f_cmp_int a n with Some Gt | Some Eq => true | _ => false end
  | _ => false
  end.

Definition Directions : list string := ["up"; "down"; "left"; "right"].

(** [direction not in {"up", "down", "left", "right"}]: the test hashes
    its left operand. *)
Definition not_in_directions (v : json) : result bool :=
  match v with
  | JStr s => Ok (negb (mem_str s Directions))
  | JList _ | JDict _ => Raise (Exception "TypeError")
  | _ => Ok true
  end.

Definition is_int (v : json) : bool :=
  match as_int v with Some _ => true | None => false end.

(** Whether the pair read from [out] has to be replaced. *)
Definition need_coordinates (bp : BehaviorPrior) (x y : json) : bool :=
  if negb (isinstance_number x) || negb (isinstance_number y) then true
  else num_lt x 0 || num_lt y 0
       || num_ge x (screen_w bp) || num_ge y (screen_h bp).

(** The block under [if name in CoordActions], on the object [out]. *)
Definition adjust_coordinates (bp : BehaviorPrior) (name : string) (out : ref)
  : M Mem unit :=
  if mem_str name CoordActions then
    o <- deref out ;;
    let x := dict_get o "x" in
    let y := dict_get o "y" in
    if need_coordinates bp x y then
      xy <- with_rng (sample_coordinates bp name) ;;
      setitem out "x" (JInt (fst xy)) ;;;
      setitem out "y" (JInt (snd xy))
    else ret tt
  else ret tt.

(** The block under [if name in ("scroll_at", "scroll_document")]. *)
Definition adjust_scroll (bp : BehaviorPrior) (name : string) (out : ref)
  : M Mem unit :=
  if mem_str name ScrollActions then
    o <- deref out ;;
    let direction := dict_get o "direction" in
    let mag := dict_get o "magnitude" in
    dm <- with_rng (sample_scroll bp (String.eqb name "scroll_at")) ;;
    replace_dir <- lift (not_in_directions direction) ;;
    (if replace_dir then setitem out "direction" (JStr (fst dm)) else ret tt) ;;;
    if String.eqb name "scroll_at" && negb (is_int mag)
    then setitem out "magnitude" (JInt (snd dm))
    else ret tt
  else ret tt.

(** [args] is a reference to the caller's dict, or [None]. *)
Definition validate_or_adjust (bp : BehaviorPrior) (name : string)
    (args : option ref) : M Mem ref :=
  (* out = dict(args) if args else {} *)
  a <- match args with Some r => deref r | None => ret [] end ;;
  out <- alloc (match a with [] => [] | _ :: _ => a end) ;;
  adjust_coordinates bp name out ;;;
  adjust_scroll bp name out ;;;
  ret out.

(** *** The whole-sample statistics

    The mean and the unbiased variance as the specification words them:
    the sum over all samples divided by their number, and the sum of the
    squared deviations from that mean divided by [n - 1]. *)
Definition f_sum (l : list F) : F := fold_right f_add f_zero l.

Definition direct_mean (l : list F) : F :=
  f_div (f_sum l) (f_of_int (Z.of_nat (List.length l))).

Definition direct_variance (l : list F) : F :=
  let m := direct_mean l in
  f_div (f_sum (map (fun a => f_mul (f_sub a m) (f_sub a m)) l))
        (f_of_int (Z.of_nat (List.length l) - 1)).

Definition direct_std (l : list F) : F := f_sqrt (max_one (direct_variance l)).

End Model.

Arguments json F : clear implicits.
Arguments ActionStats F : clear implicits.
Arguments BehaviorPrior F : clear implicits.
Arguments Rng F : clear implicits.
Arguments Mem F : clear implicits.
Arguments index_file F : clear implicits.
Arguments dir_entry F : clear implicits.
Arguments episodes_path F : clear implicits.

(* ================================================================= *)
(** ** The episode collector ([src/data_pipeline/collector.py]) *)

Section Collector.

Context {F : Type} {PF : PyFloat F}.

(** *** Records ([src/data_pipeline/schemas.py]) *)

Record Observation : Type := mkObservation {
  url : string;
  timestamp_ms : Z;
  image_path : string;
  dom_path : option string
}.

Record ActionRecord : Type := mkActionRecord {
  name : string;
  args : pydict (json F)
}.

Record StepRecord : Type := mkStepRecord {
  step_index : Z;
  obs : Observation;
  action : ActionRecord;
  next_obs : Observation;
  meta : pydict (json F)
}.

Record EpisodeRecord : Type := mkEpisodeRecord {
  episode_id : string;
  steps : list StepRecord
}.

(** The [Literal] that types [ActionRecord.name]. *)
Definition action_names : list string :=
  ["open_web_browser"; "click_at"; "hover_at"; "type_text_at";
   "scroll_document"; "scroll_at"; "wait_5_seconds"; "go_back";
   "go_forward"; "search"; "navigate"; "key_combination"; "drag_and_drop"].

(** [ActionRecord(name=n, args=a)], with the validation of the model
    class. *)
Definition new_ActionRecord (n : string) (a : pydict (json F)) : result ActionRecord :=
  if mem_str n action_names then Ok (mkActionRecord n a)
  else Raise (Exception "ValidationError").

Record CollectConfig : Type := mkCollectConfig {
  output_dir : string;
  episodes : Z;
  max_steps_per_episode : Z;
  initial_url : string;
  save_dom : bool;
  whitelist_domains : option (list string);
  seed : Z
}.

(** *** The environment and the platform

    [Computer] comes from the [computers] package, [urlparse], [random],
    [uuid] and [time] from the standard library: they are parameters. *)

(** What an environment operation returns: [EnvState]. *)
Record EnvState : Type := mkEnvState {
  state_url : string;
  screenshot : string
}.

(** The operations of [Computer] that return an [EnvState], with the
    arguments the collector passes. *)
Inductive EnvCall : Type :=
| open_web_browser
| click_at (x y : json F)
| hover_at (x y : json F)
| type_text_at (x y text press_enter clear_before_typing : json F)
| scroll_document (direction : json F)
| scroll_at (x y direction magnitude : json F)
| wait_5_seconds
| go_back
| go_forward
| search
| navigate (target : json F)
| key_combination (keys : json F)
| drag_and_drop (x y destination_x destination_y : json F)
| current_state.

(** The state of one environment instance. *)
Variable Env : Type.
(** The [k]-th [env_factory()] and its [__enter__]. *)
Variable env_factory : nat -> result Env.
Variable env_call : EnvCall -> Env -> Env * result EnvState.
Variable env_screen_size : Env -> Env * result (Z * Z).
(** [urlparse(url).netloc]; [None] when [urlparse] raises. *)
Variable urlparse_netloc : string -> option string.
(** The generator after [random.seed(seed)]. *)
Variable seed_rng : Z -> Rng F.
(** The [k]-th [str(uuid.uuid4())]. *)
Variable uuid4 : nat -> string.
(** The [k]-th reading of [int(time.time() * 1000)]. *)
Variable clock_ms : nat -> Z.

(** What the run does to the outside, in order. *)
Inductive event : Type :=
| ev_mkdir (path : string)
| ev_write (path : string)
| ev_sleep_ms (ms : Z)
| ev_enter (k : nat)
| ev_exit (k : nat).

Record World : Type := mkWorld {
  w_rng : Rng F;
  w_events : list event;
  w_ticks : nat
}.

(** Inside [with env_factory() as computer]. *)
Record Sess : Type := mkSess {
  world : World;
  computer : Env
}.

Definition log (e : event) : M World unit :=
  modify (fun w => mkWorld (w_rng w) (w_events w ++ [e])%list (w_ticks w)).

Definition in_world {A : Type} (c : M World A) : M Sess A :=
  zoom world (fun w s => mkSess w (computer s)) c.

Definition random {A : Type} (c : M (Rng F) A) : M Sess A :=
  in_world (zoom w_rng (fun g w => mkWorld g (w_events w) (w_ticks w)) c).

Definition call (c : EnvCall) : M Sess EnvState :=
  fun s => let (e, r) := env_call c (computer s) in (mkSess (world s) e, r).

Definition screen_size : M Sess (Z * Z) :=
  fun s => let (e, r) := env_screen_size (computer s) in (mkSess (world s) e, r).

(** [try: body except Exception: handler] *)
Definition try_except {S A : Type} (body handler : M S A) : M S A :=
  fun s =>
    match body s with
    | (s', Raise (Exception _)) => handler s'
    | other => other
    end.

Definition _ts_ms : M World Z :=
  fun w => (mkWorld (w_rng w) (w_events w) (S (w_ticks w)), Ok (clock_ms (w_ticks w))).

(** [s.endswith(suffix)] *)
Definition endswith (s suffix : string) : bool :=
  let n := String.length s in
  let k := String.length suffix in
  (k <=? n)%nat && String.eqb (substring (n - k) k s) suffix.

Definition _domain_allowed (u : string) (whitelist : option (list string)) : bool :=
  match whitelist with
  | None | Some [] => true
  | Some l =>
      match urlparse_netloc u with
      | Some host => existsb (endswith host) l
      | None => true
      end
  end.

(** [f"{n:06d}"] *)
Definition fmt_06d (n : Z) : string :=
  let digits := NilZero.string_of_uint (N.to_uint (Z.to_N (Z.abs n))) in
  let width := if n <? 0 then 5%nat else 6%nat in
  let zeros := string_of_list_ascii
                 (repeat "0"%char (width - String.length digits)) in
  let sign := if n <? 0 then "-" else "" in
  (sign ++ zeros ++ digits)%string.

Definition _save_screenshot (ep_dir : string) (step_idx : Z) (png : string)
  : M World string :=
  let img_path := (ep_dir ++ "/step_" ++ fmt_06d step_idx ++ "_obs.png")%string in
  log (ev_write img_path) ;;; ret img_path.

Definition _save_next_screenshot (ep_dir : string) (step_idx : Z) (png : string)
  : M World string :=
  let img_path := (ep_dir ++ "/step_" ++ fmt_06d step_idx ++ "_next_obs.png")%string in
  log (ev_write img_path) ;;; ret img_path.

Definition _save_json (ep_dir file : string) : M World string :=
  let path := (ep_dir ++ "/" ++ file)%string in
  log (ev_write path) ;;; ret path.

(** The placeholder returns [None] whatever the environment. *)
Definition _maybe_get_dom_snapshot : option string := None.

(** *** The random policy *)

Definition acts : list string :=
  ["scroll_document"; "scroll_at"; "hover_at"; "click_at";
   "wait_5_seconds"; "go_back"; "go_forward"; "search"].

Definition _random_action : M Sess ActionRecord :=
  nm <- random (choice acts) ;;
  wh <- screen_size ;;
  let W := fst wh in
  let H := snd wh in
  if mem_str nm ["hover_at"; "click_at"] then
    x <- random (randint 10 (Z.max 10 (W - 10))) ;;
    y <- random (randint 80 (Z.max 80 (H - 10))) ;;
    lift (new_ActionRecord nm [("x", JInt x); ("y", JInt y)])
  else if String.eqb nm "scroll_at" then
    x <- random (randint 10 (Z.max 10 (W - 10))) ;;
    y <- random (randint 120 (Z.max 120 (H - 10))) ;;
    direction <- random (choice ["up"; "down"]) ;;
    magnitude <- random (choice [200; 400; 800]) ;;
    lift (new_ActionRecord nm
            [("x", JInt x); ("y", JInt y);
             ("direction", JStr direction); ("magnitude", JInt magnitude)])
  else if String.eqb nm "scroll_document" then
    direction <- random (choice ["up"; "down"]) ;;
    lift (new_ActionRecord nm [("direction", JStr direction)])
  else if String.eqb nm "wait_5_seconds" then
    lift (new_ActionRecord nm [])
  else if mem_str nm ["go_back"; "go_forward"; "search"] then
    lift (new_ActionRecord nm [])
  else lift (new_ActionRecord "wait_5_seconds" []).

(** *** The step loop *)

(** [action.args[k]] *)
Definition item (a : ActionRecord) (k : string) : result (json F) :=
  match dget k (args a) with
  | Some v => Ok v
  | None => Raise (Exception "KeyError")
  end.

(** [action.args.get(k, dflt)] *)
Definition item_default (a : ActionRecord) (k : string) (dflt : json F) : json F :=
  dict_get_default (args a) k dflt.

(** The chain of [if action.name == ...] inside the [try]. *)
Definition dispatch (a : ActionRecord) : M Sess EnvState :=
  let nm := name a in
  if String.eqb nm "open_web_browser" then call open_web_browser
  else if String.eqb nm "click_at" then
    x <- lift (item a "x") ;; y <- lift (item a "y") ;; call (click_at x y)
  else if String.eqb nm "hover_at" then
    x <- lift (item a "x") ;; y <- lift (item a "y") ;; call (hover_at x y)
  else if String.eqb nm "type_text_at" then
    x <- lift (item a "x") ;; y <- lift (item a "y") ;;
    call (type_text_at x y
            (item_default a "text" (JStr ""))
            (item_default a "press_enter" (JBool false))
            (item_default a "clear_before_typing" (JBool true)))
  else if String.eqb nm "scroll_document" then
    d <- lift (item a "direction") ;; call (scroll_document d)
  else if String.eqb nm "scroll_at" then
    x <- lift (item a "x") ;; y <- lift (item a "y") ;;
    d <- lift (item a "direction") ;; m <- lift (item a "magnitude") ;;
    call (scroll_at x y d m)
  else if String.eqb nm "wait_5_seconds" then call wait_5_seconds
  else if String.eqb nm "go_back" then call go_back
  else if String.eqb nm "go_forward" then call go_forward
  else if String.eqb nm "search" then call search
  else if String.eqb nm "navigate" then
    u <- lift (item a "url") ;; call (navigate u)
  else if String.eqb nm "key_combination" then
    k <- lift (item a "keys") ;; call (key_combination k)
  else if String.eqb nm "drag_and_drop" then
    x <- lift (item a "x") ;; y <- lift (item a "y") ;;
    dx <- lift (item a "destination_x") ;; dy <- lift (item a "destination_y") ;;
    call (drag_and_drop x y dx dy)
  else call wait_5_seconds.

(** The variables of [collect_episodes] that the step loop reads and
    writes.  [last_action] is the local [action]: unbound ([None]) until
    the first sampled action, and never unbound again, in this episode or
    a later one. *)
Record Locals : Type := mkLocals {
  cur_obs : Observation;
  last_action : option ActionRecord;
  acc_steps : list StepRecord
}.

(** The body of [for t in range(1, cfg.max_steps_per_episode + 1)]. *)
Definition collect_step (cfg : CollectConfig) (ep_dir : string) (t : Z)
    (loc : Locals) : M Sess Locals :=
  r <- (if negb (_domain_allowed (url (cur_obs loc)) (whitelist_domains cfg))
        then
          (* Navigate back to initial URL to stay within whitelist *)
          next_state <- call (navigate (JStr (initial_url cfg))) ;;
          ret (next_state, last_action loc)
        else
          a <- _random_action ;;
          next_state <-
            try_except (dispatch a)
              (in_world (log (ev_sleep_ms 500)) ;;; call current_state) ;;
          ret (next_state, Some a)) ;;
  let next_state := fst r in
  let local_action := snd r in
  next_img_path <-
    in_world (_save_next_screenshot ep_dir t (screenshot next_state)) ;;
  let next_dom_path := if save_dom cfg then _maybe_get_dom_snapshot else None in
  ts <- in_world _ts_ms ;;
  let next_o := mkObservation (state_url next_state) ts next_img_path next_dom_path in
  (* action if 'action' in locals() else ActionRecord(name='navigate', ...) *)
  recorded <- match local_action with
              | Some a => ret a
              | None => lift (new_ActionRecord "navigate"
                                [("url", JStr (initial_url cfg))])
              end ;;
  let step := mkStepRecord t (cur_obs loc) recorded next_o [] in
  ret (mkLocals next_o local_action (acc_steps loc ++ [step])%list).

Fixpoint steps_loop (cfg : CollectConfig) (ep_dir : string) (ts : list Z)
    (loc : Locals) : M Sess Locals :=
  match ts with
  | [] => ret loc
  | t :: ts' =>
      loc' <- collect_step cfg ep_dir t loc ;;
      steps_loop cfg ep_dir ts' loc'
  end.

(** [range(a, b)] *)
Definition py_range (a b : Z) : list Z :=
  map (fun i => a + Z.of_nat i) (seq 0 (Z.to_nat (b - a))).

(** [with env_factory() as computer: body]: the environment is released
    whether or not the body raised. *)
Definition with_env {A : Type} (k : nat) (body : M Sess A) : M World A :=
  fun w =>
    match env_factory k with
    | Ok e =>
        let (w1, _) := log (ev_enter k) w in
        let (s', r) := body (mkSess w1 e) in
        let (w2, _) := log (ev_exit k) (world s') in
        (w2, r)
    | Raise ex => (w, Raise ex)
    | OutOfModel => (w, OutOfModel)
    end.

(** The body of [for epi in range(cfg.episodes)]; the local [action]
    comes in and goes out. *)
Definition collect_episode (cfg : CollectConfig) (k : nat)
    (act : option ActionRecord) : M World (EpisodeRecord * option ActionRecord) :=
  let eid := uuid4 k in
  let ep_dir := (output_dir cfg ++ "/episodes/" ++ eid)%string in
  log (ev_mkdir ep_dir) ;;;
  loc <- with_env k
           (state <- call open_web_browser ;;
            obs_path <- in_world (_save_screenshot ep_dir 0 (screenshot state)) ;;
            let dom := if save_dom cfg then _maybe_get_dom_snapshot else None in
            ts <- in_world _ts_ms ;;
            let o := mkObservation (state_url state) ts obs_path dom in
            steps_loop cfg ep_dir (py_range 1 (max_steps_per_episode cfg + 1))
              (mkLocals o act [])) ;;
  let episode := mkEpisodeRecord eid (acc_steps loc) in
  _save_json ep_dir "episode.json" ;;;
  ret (episode, last_action loc).

Fixpoint episodes_loop (cfg : CollectConfig) (ks : list nat)
    (act : option ActionRecord) (episodes_meta : list EpisodeRecord)
  : M World (list EpisodeRecord) :=
  match ks with
  | [] => ret episodes_meta
  | k :: ks' =>
      r <- collect_episode cfg k act ;;
      episodes_loop cfg ks' (snd r) (episodes_meta ++ [fst r])%list
  end.

Definition collect_episodes (cfg : CollectConfig) : M World (list EpisodeRecord) :=
  (* random.seed(cfg.seed) *)
  modify (fun w => mkWorld (seed_rng (seed cfg)) (w_events w) (w_ticks w)) ;;;
  log (ev_mkdir (output_dir cfg)) ;;;
  episodes_loop cfg (seq 0 (Z.to_nat (episodes cfg))) None [].

End Collector.

Arguments world {F Env} s.
Arguments computer {F Env} s.
Arguments mkSess {F Env} world computer.

(* ================================================================= *)
(** ** Predicates of the specification *)

Section Predicates.

Context {F : Type} {PF : PyFloat F}.

(** A number inside [0, dim). *)
Definition within (v : json F) (dim : Z) : bool :=
  match v with
  | JInt n => (0 <=? n) && (n <? dim)
  | JBool b => (if b then 1 else 0) <? dim
  | JFloat a =>
      match f_cmp_int a 0, f_cmp_int a dim with
      | Some (Gt | Eq), Some Lt => true
      | _, _ => false
      end
  | _ => false
  end.

(** The keys that [validate_or_adjust] may write. *)
Definition adjusted_keys : list string := ["x"; "y"; "direction"; "magnitude"].

(** [k] is missing from [d] or holds something that is not a number. *)
Definition absent_or_non_numeric (d : pydict (json F)) (k : string) : bool :=
  match dget k d with
  | None => true
  | Some v => negb (isinstance_number v)
  end.

(** A coordinate argument equal to 0. *)
Definition is_zero_number (v : json F) : bool :=
  match v with
  | JInt n => n =? 0
  | JFloat a => f_is_zero a
  | _ => false
  end.

(** Triples for [M]: from a state in [P] the computation ends in [Q] when
    it returns and in [E] when it raises. *)
Definition hoare {S A : Type} (P : S -> Prop) (c : M S A)
    (Q : A -> S -> Prop) (E : S -> Prop) : Prop :=
  forall s, P s ->
    match c s with
    | (s', Ok a) => Q a s'
    | (s', _) => E s'
    end.

(** The heap is the initial heap [h0] and one more object, which
    satisfies [P]. *)
Definition one_new (h0 : list (pydict (json F))) (P : pydict (json F) -> Prop)
    (m : Mem F) : Prop :=
  exists o, heap m = (h0 ++ [o])%list /\ P o.

End Predicates.

(* ================================================================= *)
(** ** Dictionaries, heaps and triples *)

Section Basics.

Context {F : Type} {PF : PyFloat F}.

Lemma dget_dset_eq {V : Type} (k : string) (v : V) (d : pydict V) :
  dget k (dset k v d) = Some v.
Proof.
  induction d as [| [k' v'] d IH]; simpl.
  - now rewrite String.eqb_refl.
  - destruct (String.eqb k k') eqn:E; simpl; rewrite E; auto.
Qed.

Lemma dget_dset_ne {V : Type} (k k' : string) (v : V) (d : pydict V) :
  k <> k' -> dget k' (dset k v d) = dget k' d.
Proof.
  intros Hne. induction d as [| [k0 v0] d IH]; simpl.
  - destruct (String.eqb k' k) eqn:E; [apply String.eqb_eq in E; congruence | reflexivity].
  - destruct (String.eqb k k0) eqn:E; simpl.
    + apply String.eqb_eq in E. subst k0.
      destruct (String.eqb k' k) eqn:E'; [apply String.eqb_eq in E'; congruence | reflexivity].
    + now rewrite IH.
Qed.

Lemma dkeys_dset_in {V : Type} (k : string) (v : V) (d : pydict V) :
  dget k d <> None -> dkeys (dset k v d) = dkeys d.
Proof.
  induction d as [| [k0 v0] d IH]; simpl; [congruence |].
  destruct (String.eqb k k0) eqn:E; simpl; [reflexivity |].
  intros H. f_equal. now apply IH.
Qed.

Lemma nth_error_update_nth_ne {A : Type} (f : A -> A) (l : list A) (i j : nat) :
  i <> j -> nth_error (update_nth i f l) j = nth_error l j.
Proof.
  revert i j. induction l as [| a l IH]; intros [| i] [| j] H; simpl; auto.
  congruence.
Qed.

Lemma update_nth_app_last {A : Type} (f : A -> A) (l : list A) (a : A) :
  update_nth (List.length l) f (l ++ [a]) = (l ++ [f a])%list.
Proof. induction l as [| b l IH]; simpl; [reflexivity | now rewrite IH]. Qed.

Lemma nth_error_app_last {A : Type} (l : list A) (a : A) :
  nth_error (l ++ [a]) (List.length l) = Some a.
Proof. induction l; simpl; auto. Qed.

Lemma nth_error_app_old {A : Type} (l : list A) (a b : A) (i : nat) :
  nth_error l i = Some b -> nth_error (l ++ [a]) i = Some b.
Proof.
  revert i. induction l as [| c l IH]; intros [| i]; simpl; try discriminate; auto.
Qed.

(** *** Rules for triples *)

Lemma hoare_ret {S A : Type} (P : S -> Prop) (a : A) (Q : A -> S -> Prop) E :
  (forall s, P s -> Q a s) -> hoare P (ret a) Q E.
Proof. intros H s Hs. simpl. auto. Qed.

Lemma hoare_bind {S A B : Type} (P : S -> Prop) (c : M S A) (k : A -> M S B)
    (Q : A -> S -> Prop) (R : B -> S -> Prop) (E : S -> Prop) :
  hoare P c Q E -> (forall a, hoare (Q a) (k a) R E) -> hoare P (bind c k) R E.
Proof.
  intros Hc Hk s Hs. unfold bind. specialize (Hc s Hs).
  destruct (c s) as [s' [a | e |]]; auto. apply (Hk a s' Hc).
Qed.

Lemma hoare_lift {S A : Type} (P : S -> Prop) (r : result A)
    (Q : A -> S -> Prop) (E : S -> Prop) :
  (forall s, P s -> match r with Ok a => Q a s | _ => E s end) ->
  hoare P (lift r) Q E.
Proof. intros H s Hs. unfold lift. specialize (H s Hs). destruct r; auto. Qed.

Lemma hoare_modify {S : Type} (P : S -> Prop) (f : S -> S)
    (Q : unit -> S -> Prop) (E : S -> Prop) :
  (forall s, P s -> Q tt (f s)) -> hoare P (modify f) Q E.
Proof. intros H s Hs. simpl. auto. Qed.

Lemma hoare_weaken {S A : Type} (P P' : S -> Prop) (c : M S A)
    (Q Q' : A -> S -> Prop) (E E' : S -> Prop) :
  hoare P' c Q' E' ->
  (forall s, P s -> P' s) -> (forall a s, Q' a s -> Q a s) ->
  (forall s, E' s -> E s) ->
  hoare P c Q E.
Proof.
  intros H HP HQ HE s Hs. specialize (H s (HP s Hs)).
  destruct (c s) as [s' [a | e |]]; auto.
Qed.

(** *** The heap operations under [one_new] *)

Lemma hoare_with_rng {A : Type} (h0 : list (pydict (json F))) P (c : M (Rng F) A) :
  hoare (one_new h0 P) (with_rng c) (fun _ => one_new h0 P) (one_new h0 P).
Proof.
  intros m Hm. unfold with_rng, zoom.
  destruct (c (rng m)) as [g [a | e |]]; exact Hm.
Qed.

Lemma hoare_setitem (h0 : list (pydict (json F))) (P : pydict (json F) -> Prop)
    (k : string) (v : json F) :
  (forall o, P o -> P (dset k v o)) ->
  hoare (one_new h0 P) (setitem (List.length h0) k v)
        (fun _ => one_new h0 P) (one_new h0 P).
Proof.
  intros HP. apply hoare_modify. intros m [o [Hh Ho]].
  exists (dset k v o). simpl. rewrite Hh, update_nth_app_last. auto.
Qed.

Lemma hoare_deref_new (h0 : list (pydict (json F))) (P : pydict (json F) -> Prop) :
  hoare (one_new h0 P) (deref (List.length h0))
        (fun o m => P o /\ one_new h0 P m) (one_new h0 P).
Proof.
  intros m Hm. unfold deref. destruct Hm as [o [Hh Ho]] eqn:E.
  rewrite Hh, nth_error_app_last. split; [exact Ho | exists o; auto].
Qed.

End Basics.

(* ================================================================= *)
(** ** [validate_or_adjust] *)

Section Validate.

Context {F : Type} {PF : PyFloat F}.

Implicit Types (bp : BehaviorPrior F) (hp : list (pydict (json F))).

Lemma adjust_coordinates_stable bp name hp (P : pydict (json F) -> Prop) :
  (forall o v, P o -> P (dset "x" v o)) ->
  (forall o v, P o -> P (dset "y" v o)) ->
  hoare (one_new hp P) (adjust_coordinates bp name (List.length hp))
        (fun _ => one_new hp P) (one_new hp P).
Proof.
  intros Hx Hy. unfold adjust_coordinates.
  destruct (mem_str name CoordActions); [| apply hoare_ret; auto].
  eapply hoare_bind; [apply hoare_deref_new |]. intros o.
  destruct (need_coordinates bp (dict_get o "x") (dict_get o "y")).
  - eapply hoare_bind with (Q := fun _ => one_new hp P).
    + eapply hoare_weaken; [apply (hoare_with_rng hp P) | | |]; simpl; tauto.
    + intros xy. eapply hoare_bind; [apply hoare_setitem; auto |].
      intros ?. apply hoare_setitem; auto.
  - apply hoare_ret. tauto.
Qed.

Lemma adjust_scroll_stable bp name hp (P : pydict (json F) -> Prop) :
  (forall o v, P o -> P (dset "direction" v o)) ->
  (forall o v, P o -> P (dset "magnitude" v o)) ->
  hoare (one_new hp P) (adjust_scroll bp name (List.length hp))
        (fun _ => one_new hp P) (one_new hp P).
Proof.
  intros Hd Hm. unfold adjust_scroll.
  destruct (mem_str name ScrollActions); [| apply hoare_ret; auto].
  eapply hoare_bind; [apply hoare_deref_new |]. intros o.
  eapply hoare_bind with (Q := fun _ => one_new hp P).
  { eapply hoare_weaken; [apply (hoare_with_rng hp P) | | |]; simpl; tauto. }
  intros dm.
  eapply hoare_bind with (Q := fun _ => one_new hp P).
  { apply hoare_lift. intros s Hs.
    destruct (not_in_directions (dict_get o "direction")); exact Hs. }
  intros replace_dir.
  eapply hoare_bind with (Q := fun _ => one_new hp P).
  { destruct replace_dir; [apply hoare_setitem; auto | apply hoare_ret; auto]. }
  intros ?.
  destruct (String.eqb name "scroll_at" && negb (is_int (dict_get o "magnitude"))).
  - apply hoare_setitem; auto.
  - apply hoare_ret; auto.
Qed.

Lemma within_not_needed bp (vx vy : json F) :
  within vx (screen_w bp) = true -> within vy (screen_h bp) = true ->
  need_coordinates bp vx vy = false.
Proof.
  assert (H : forall (v : json F) dim, within v dim = true ->
            isinstance_number v = true /\ num_lt v 0 = false /\ num_ge v dim = false).
  { intros v dim Hv. destruct v as [| b | n | a | s | l | d]; simpl in *; try discriminate.
    - repeat split; [destruct b; reflexivity | lia].
    - lia.
    - destruct (f_cmp_int a 0) as [[| |] |], (f_cmp_int a dim) as [[| |] |];
        try discriminate; auto. }
  intros Hx Hy. unfold need_coordinates.
  destruct (H _ _ Hx) as (-> & -> & ->). destruct (H _ _ Hy) as (-> & -> & ->).
  reflexivity.
Qed.

(** With a pair inside the screen the coordinate block neither writes nor
    raises. *)
Lemma adjust_coordinates_within bp name hp (vx vy : json F) :
  within vx (screen_w bp) = true -> within vy (screen_h bp) = true ->
  let P := fun o => dget "x" o = Some vx /\ dget "y" o = Some vy in
  hoare (one_new hp P) (adjust_coordinates bp name (List.length hp))
        (fun _ => one_new hp P) (fun _ => False).
Proof.
  intros Hx Hy P. unfold adjust_coordinates.
  destruct (mem_str name CoordActions); [| apply hoare_ret; auto].
  intros m Hm. unfold bind, deref. destruct Hm as [o [Hh [Hox Hoy]]] eqn:E.
  rewrite Hh, nth_error_app_last. unfold dict_get. rewrite Hox, Hoy.
  rewrite (within_not_needed bp vx vy Hx Hy). simpl. exact Hm.
Qed.

Lemma validate_or_adjust_start bp name (r : ref) (m : Mem F) (a : pydict (json F)) :
  nth_error (heap m) r = Some a ->
  validate_or_adjust bp name (Some r) m =
    (adjust_coordinates bp name (List.length (heap m)) ;;;
     adjust_scroll bp name (List.length (heap m)) ;;;
     ret (List.length (heap m)))
      (mkMem (heap m ++ [a])%list (rng m)).
Proof.
  intros Hr. unfold validate_or_adjust.
  unfold bind at 1. unfold deref. rewrite Hr.
  unfold bind at 1. unfold alloc.
  now destruct a.
Qed.

Lemma one_new_old hp (P : pydict (json F) -> Prop) (m : Mem F) (i : nat) :
  one_new hp P m -> (i < List.length hp)%nat -> nth_error (heap m) i = nth_error hp i.
Proof. intros [o [-> _]] Hi. now apply nth_error_app1. Qed.

(** C10.  [validate_or_adjust] leaves every dict that existed before the
    call as it was, the argument mapping among them, whether it returns or
    raises; the mapping it returns is a new object, and every key other than
    [x], [y], [direction] and [magnitude] holds in it what it holds in the
    argument mapping (nothing when the argument has no such key). *)
Theorem validate_or_adjust_frame bp name (r : ref) (m : Mem F)
    (a : pydict (json F)) :
  nth_error (heap m) r = Some a ->
  forall m' res, validate_or_adjust bp name (Some r) m = (m', res) ->
    nth_error (heap m') r = Some a /\
    (forall i, (i < List.length (heap m))%nat ->
               nth_error (heap m') i = nth_error (heap m) i) /\
    match res with
    | Ok out =>
        out = List.length (heap m) /\ out <> r /\
        exists o, nth_error (heap m') out = Some o /\
                  forall k, ~ In k adjusted_keys -> dget k o = dget k a
    | _ => True
    end.
Proof.
  intros Hr m' res Hrun.
  rewrite (validate_or_adjust_start bp name r m a Hr) in Hrun.
  set (P := fun o : pydict (json F) =>
              forall k, ~ In k adjusted_keys -> dget k o = dget k a).
  assert (Hstable : forall k0, In k0 adjusted_keys ->
            forall o v, P o -> P (dset k0 v o)).
  { intros k0 Hk0 o v Ho k Hk. rewrite dget_dset_ne; [now apply Ho |].
    intros ->. contradiction. }
  assert (Hh : hoare (one_new (heap m) P)
                 (adjust_coordinates bp name (List.length (heap m)) ;;;
                  adjust_scroll bp name (List.length (heap m)) ;;;
                  ret (List.length (heap m)))
                 (fun out s => out = List.length (heap m) /\ one_new (heap m) P s)
                 (one_new (heap m) P)).
  { eapply hoare_bind.
    - apply adjust_coordinates_stable; apply Hstable; simpl; tauto.
    - intros ?. eapply hoare_bind.
      + apply adjust_scroll_stable; apply Hstable; simpl; tauto.
      + intros ?. apply hoare_ret. auto. }
  assert (Hinit : one_new (heap m) P (mkMem (heap m ++ [a])%list (rng m))).
  { exists a. split; [reflexivity | intros k _; reflexivity]. }
  specialize (Hh _ Hinit). rewrite Hrun in Hh.
  assert (Hlt : (r < List.length (heap m))%nat).
  { apply nth_error_Some. congruence. }
  assert (Hnew : one_new (heap m) P m').
  { destruct res; tauto. }
  split; [| split].
  - rewrite (one_new_old _ _ _ r Hnew Hlt). exact Hr.
  - intros i Hi. now apply (one_new_old _ _ _ i Hnew).
  - destruct res as [out | e |]; auto.
    destruct Hh as [-> [o [Ho HP]]]. split; [reflexivity |]. split; [lia |].
    exists o. split; [| exact HP]. rewrite Ho. apply nth_error_app_last.
Qed.

(** C8.  When the argument mapping of a coordinate action holds numbers
    [x] and [y] inside [0, width) x [0, height), the mapping that
    [validate_or_adjust] returns holds the same [x] and [y], and so does the
    mapping returned when it is applied again to that result, whatever the
    random draws; for the coordinate kinds that are not scroll kinds both
    calls do return. *)
Theorem validate_or_adjust_idempotent bp name (r : ref) (m : Mem F)
    (a : pydict (json F)) (vx vy : json F) :
  mem_str name CoordActions = true ->
  nth_error (heap m) r = Some a ->
  dget "x" a = Some vx -> dget "y" a = Some vy ->
  within vx (screen_w bp) = true -> within vy (screen_h bp) = true ->
  let same := fun (s : Mem F) (out : ref) =>
    exists o, nth_error (heap s) out = Some o /\
              dget "x" o = Some vx /\ dget "y" o = Some vy in
  forall m1 res1, validate_or_adjust bp name (Some r) m = (m1, res1) ->
    match res1 with
    | Ok out1 =>
        same m1 out1 /\
        forall g m2 res2,
          validate_or_adjust bp name (Some out1) (mkMem (heap m1) g) = (m2, res2) ->
          match res2 with
          | Ok out2 => same m2 out2
          | _ => mem_str name ScrollActions = true
          end
    | _ => mem_str name ScrollActions = true
    end.
Proof.
  intros Hname Hr Hax Hay Hx Hy same.
  set (P := fun o : pydict (json F) => dget "x" o = Some vx /\ dget "y" o = Some vy).
  assert (Hcall : forall (r0 : ref) (s : Mem F) a0,
            nth_error (heap s) r0 = Some a0 -> P a0 ->
            forall s' res, validate_or_adjust bp name (Some r0) s = (s', res) ->
              match res with
              | Ok out => same s' out
              | _ => mem_str name ScrollActions = true
              end).
  { intros r0 s a0 Hr0 Ha0 s' res Hrun.
    rewrite (validate_or_adjust_start bp name r0 s a0 Hr0) in Hrun.
    assert (Hinit : one_new (heap s) P (mkMem (heap s ++ [a0])%list (rng s))).
    { exists a0. split; [reflexivity | exact Ha0]. }
    unfold bind at 1 in Hrun.
    pose proof (adjust_coordinates_within bp name (heap s) vx vy Hx Hy _ Hinit) as H1.
    destruct (adjust_coordinates bp name (List.length (heap s))
                (mkMem (heap s ++ [a0])%list (rng s))) as [s1 [[] | e |]];
      try contradiction.
    unfold bind at 1 in Hrun.
    assert (Hst : forall k0, k0 = "direction" \/ k0 = "magnitude" ->
              forall o v, P o -> P (dset k0 v o)).
    { intros k0 Hk0 o v [Hox Hoy]. split; rewrite dget_dset_ne; auto;
        destruct Hk0 as [-> | ->]; discriminate. }
    pose proof (adjust_scroll_stable bp name (heap s) P
                  (Hst _ (or_introl eq_refl)) (Hst _ (or_intror eq_refl)) _ H1) as H2.
    unfold adjust_scroll in *.
    destruct (mem_str name ScrollActions) eqn:Hscroll.
    - match type of Hrun with
      | context [match ?c with _ => _ end] => destruct c as [s2 [[] | e |]]
      end; inversion Hrun; subst; auto.
      destruct H2 as [o [Ho HP]]. exists o. rewrite Ho. split; [apply nth_error_app_last | exact HP].
    - simpl in Hrun. inversion Hrun; subst.
      destruct H1 as [o [Ho HP]]. exists o. rewrite Ho. split; [apply nth_error_app_last | exact HP]. }
  intros m1 res1 Hrun1.
  pose proof (Hcall r m a Hr (conj Hax Hay) m1 res1 Hrun1) as H1.
  destruct res1 as [out1 | e |]; auto.
  split; [exact H1 |].
  intros g m2 res2 Hrun2. destruct H1 as [o1 [Ho1 HP1]].
  exact (Hcall out1 (mkMem (heap m1) g) o1 Ho1 HP1 m2 res2 Hrun2).
Qed.

End Validate.

(* ================================================================= *)
(** ** [sample_coordinates] *)

Section Sampling.

Context {F : Type} {PF : PyFloat F}.

Lemma bind_Ok_inv {S A B : Type} (c : M S A) (k : A -> M S B) (s s' : S) (b : B) :
  bind c k s = (s', Ok b) ->
  exists a s1, c s = (s1, Ok a) /\ k a s1 = (s', Ok b).
Proof.
  unfold bind. destruct (c s) as [s1 [a | e |]]; intros H; try discriminate.
  now exists a, s1.
Qed.

Lemma clamp_range (dim v : Z) : 0 < dim -> 0 <= clamp dim v < dim.
Proof. unfold clamp. lia. Qed.

(** C7.  On a screen of positive width and height every pair that
    [sample_coordinates] returns lies in [0, W) x [0, H), whatever the
    action kind, the statistics and the random draws; and for a kind
    without statistics it does return, the clamped centre of the screen. *)
Theorem sample_coordinates_in_screen (bp : BehaviorPrior F) (name : string)
    (g : Rng F) :
  0 < screen_w bp -> 0 < screen_h bp ->
  (forall g' x y, sample_coordinates bp name g = (g', Ok (x, y)) ->
     0 <= x < screen_w bp /\ 0 <= y < screen_h bp) /\
  (dget name (action_stats bp) = None ->
     sample_coordinates bp name g =
       (g, Ok (clamp (screen_w bp) (screen_w bp / 2),
               clamp (screen_h bp) (screen_h bp / 2)))).
Proof.
  intros HW HH. split.
  - intros g' x y Hrun. unfold sample_coordinates in Hrun.
    apply bind_Ok_inv in Hrun. destruct Hrun as (xy & g1 & _ & Hret).
    unfold ret in Hret. inversion Hret; subst.
    split; apply clamp_range; assumption.
  - intros Hnone. unfold sample_coordinates. rewrite Hnone. reflexivity.
Qed.

End Sampling.

(* ================================================================= *)
(** ** [fit_from_episodes]: one step *)

Section FitStep.

Context {F : Type} {PF : PyFloat F}.

Implicit Types (bp : BehaviorPrior F) (st : ActionStats F).

(** The statistics of the coordinates kept in an [ActionStats]. *)
Definition moments st : option F * option F * option F * option F
                        * option F * option F * option Z :=
  (mean_x st, mean_y st, std_x st, std_y st, _m2x st, _m2y st, _n st).

Lemma stats_of_dset nm st bp (d : pydict (ActionStats F)) :
  stats_of nm (set_action_stats (dset nm st d) bp) = st.
Proof. unfold stats_of. simpl. now rewrite dget_dset_eq. Qed.

(** A computation on [st = self.action_stats[nm]], seen from the prior:
    it only touches that entry. *)
Lemma hoare_on_stats {A : Type} nm (m : M (ActionStats F) A)
    (P : ActionStats F -> Prop) (Q : A -> ActionStats F -> Prop)
    (E : ActionStats F -> Prop) (c : pydict Z) :
  hoare P m Q E ->
  hoare (fun bp => P (stats_of nm bp) /\ action_counts bp = c)
        (on_stats nm m)
        (fun a bp => Q a (stats_of nm bp) /\ action_counts bp = c)
        (fun bp => E (stats_of nm bp)).
Proof.
  intros Hm bp [HP Hc]. unfold on_stats, zoom.
  specialize (Hm _ HP). destruct (m (stats_of nm bp)) as [st' [a | e |]];
    rewrite stats_of_dset; auto.
Qed.

Lemma hoare_on_stats_modify nm (f : ActionStats F -> ActionStats F)
    (P : ActionStats F -> Prop) (c : pydict Z) :
  (forall st, P st -> P (f st)) ->
  hoare (fun bp => P (stats_of nm bp) /\ action_counts bp = c)
        (on_stats nm (modify f))
        (fun _ bp => P (stats_of nm bp) /\ action_counts bp = c)
        (fun _ => False).
Proof.
  intros Hf bp [HP Hc]. unfold on_stats, zoom, modify.
  rewrite stats_of_dset. auto.
Qed.

(** The scroll block keeps the count and the coordinate statistics, and
    does not raise when [args] is a dict. *)
Lemma fit_scroll_keeps nm (a : pydict (json F)) (P : ActionStats F -> Prop)
    (c : pydict Z) :
  (forall st v, P st -> P (set_direction_counts v st)) ->
  (forall st v, P st -> P (set_magnitudes v st)) ->
  hoare (fun bp => P (stats_of nm bp) /\ action_counts bp = c)
        (fit_scroll nm (JDict a))
        (fun _ bp => P (stats_of nm bp) /\ action_counts bp = c)
        (fun _ => False).
Proof.
  intros Hd Hm. unfold fit_scroll.
  destruct (mem_str nm ScrollActions); [| apply hoare_ret; auto].
  eapply hoare_bind.
  { apply hoare_on_stats_modify. intros st HP. destruct (direction_counts st); auto. }
  intros ?. eapply hoare_bind.
  { apply hoare_lift. simpl. intros s Hs. exact Hs. }
  intros a'. eapply hoare_bind with (Q := fun _ bp => P (stats_of nm bp) /\ action_counts bp = c).
  { destruct (dict_get a' "direction"); try (apply hoare_ret; auto).
    apply hoare_on_stats_modify. auto. }
  intros ?. destruct (String.eqb nm "scroll_at"); [| apply hoare_ret; auto].
  eapply hoare_bind.
  { apply hoare_on_stats_modify. intros st HP. destruct (magnitudes st); auto. }
  intros ?. destruct (as_int (dict_get a' "magnitude")); [| apply hoare_ret; auto].
  apply hoare_on_stats_modify. auto.
Qed.

Lemma lookup_stats_ok nm bp :
  stats_default bp = true \/ dget nm (action_stats bp) <> None ->
  exists bp', lookup_stats nm bp = (bp', Ok tt) /\
              stats_of nm bp' = stats_of nm bp /\
              action_counts bp' = action_counts bp.
Proof.
  intros H. unfold lookup_stats.
  destruct (dget nm (action_stats bp)) as [st |] eqn:E.
  - exists bp. auto.
  - destruct H as [-> | H]; [| congruence].
    eexists. split; [reflexivity |]. split; [| reflexivity].
    rewrite stats_of_dset. unfold stats_of. now rewrite E.
Qed.

Lemma bind_Ok {S A B : Type} (c : M S A) (k : A -> M S B) (s s1 : S) (a : A) :
  c s = (s1, Ok a) -> bind c k s = k a s1.
Proof. intros H. unfold bind. now rewrite H. Qed.

Lemma coord_action_truthy nm :
  mem_str nm CoordActions = true -> truthy (JStr nm : json F) = true.
Proof.
  intros H. simpl. destruct (String.eqb nm "") eqn:E; [| reflexivity].
  apply String.eqb_eq in E. subst. discriminate.
Qed.

Lemma zero_number_falsy (v : json F) : is_zero_number v = true -> truthy v = false.
Proof. destruct v; simpl; try discriminate; intros ->; reflexivity. Qed.

Lemma absent_not_number (a : pydict (json F)) k :
  absent_or_non_numeric a k = true -> isinstance_number (dict_get a k) = false.
Proof.
  unfold absent_or_non_numeric, dict_get. destruct (dget k a) as [v |]; [| reflexivity].
  now destruct (isinstance_number v).
Qed.

(** The Welford update never writes [count], also when it raises part
    way. *)
Lemma welford_update_count_held (x y : json F) c :
  hoare (fun st => count st = c) (welford_update x y)
        (fun _ st => count st = c) (fun st => count st = c).
Proof.
  set (K := fun st : ActionStats F => count st = c).
  assert (Hattr : forall (A : Type) (field : ActionStats F -> option A),
             hoare K (attr field) (fun _ => K) K).
  { intros A field st Hst. unfold attr. destruct (field st); exact Hst. }
  assert (Hlift : forall (A : Type) (r : result A), hoare K (lift r) (fun _ => K) K).
  { intros A r. apply hoare_lift. intros st Hst. destruct r; exact Hst. }
  unfold welford_update.
  eapply hoare_bind with (Q := fun _ => K).
  { intros st Hst. exact Hst. }
  intros st0. destruct (mean_x st0) as [mx |].
  - repeat first
      [ apply hoare_modify; intros st Hst; exact Hst
      | apply Hlift
      | apply Hattr
      | eapply hoare_bind with (Q := fun _ => K); [| intros ?] ].
    intros st Hst. destruct (mean_y st); exact Hst.
  - repeat first
      [ apply hoare_modify; intros st Hst; exact Hst
      | apply Hlift
      | eapply hoare_bind with (Q := fun _ => K); [| intros ?] ].
Qed.

(** The step [s] feeds the sample [(vx, vy)] to the statistics of [nm]:
    it ends as the Welford update of that sample ends, on the entry whose
    [count] the step has already raised by one, and it leaves the entry's
    coordinate statistics as that update leaves them. *)
Definition feeds bp (s : json F) (nm : string) (vx vy : json F) : Prop :=
  let st0 := stats_of nm bp in
  let W := welford_update vx vy (set_count (count st0 + 1) st0) in
  exists bp',
    fit_step s bp = (bp', snd W) /\
    action_counts bp' = counter_incr nm (action_counts bp) /\
    count (stats_of nm bp') = count st0 + 1 /\
    moments (stats_of nm bp') = moments (fst W).

(** A step of a coordinate kind feeds the pair that the two [or]
    expressions give, when both are numbers. *)
Lemma fit_step_feeds bp (s act a : pydict (json F)) (nm : string) :
  dget "action" s = Some (JDict act) ->
  dget "name" act = Some (JStr nm) ->
  dget "args" act = Some (JDict a) ->
  mem_str nm CoordActions = true ->
  stats_default bp = true \/ dget nm (action_stats bp) <> None ->
  isinstance_number (py_or (dict_get a "x") (dict_get a "destination_x")) = true ->
  isinstance_number (py_or (dict_get a "y") (dict_get a "destination_y")) = true ->
  feeds bp (JDict s) nm (py_or (dict_get a "x") (dict_get a "destination_x"))
                        (py_or (dict_get a "y") (dict_get a "destination_y")).
Proof.
  intros Hact Hname Hargs Hcoord Hdef Hx Hy.
  unfold feeds. cbv zeta.
  set (vx := py_or (dict_get a "x") (dict_get a "destination_x")) in *.
  set (vy := py_or (dict_get a "y") (dict_get a "destination_y")) in *.
  set (st1 := set_count (count (stats_of nm bp) + 1) (stats_of nm bp)).
  set (bp1 := set_action_counts (counter_incr nm (action_counts bp)) bp).
  destruct (lookup_stats_ok nm bp1 Hdef) as (bp2 & Hlook & Hst2 & Hc2).
  set (bp3 := set_action_stats
                (dset nm (set_count (count (stats_of nm bp2) + 1) (stats_of nm bp2))
                      (action_stats bp2)) bp2).
  set (rest := fit_coordinates nm (JDict a) ;;; fit_scroll nm (JDict a)).
  assert (Hrun : fit_step (JDict s) bp = rest bp3).
  { unfold fit_step.
    erewrite bind_Ok by reflexivity.
    unfold dict_get_default at 1. rewrite Hact.
    erewrite bind_Ok by reflexivity.
    cbv zeta. unfold dict_get, dict_get_default. rewrite Hname, Hargs.
    rewrite (coord_action_truthy nm Hcoord). cbn [negb]. cbv iota.
    erewrite bind_Ok by reflexivity.
    fold bp1. erewrite bind_Ok by exact Hlook.
    erewrite bind_Ok by reflexivity. reflexivity. }
  rewrite Hrun. clear Hrun. unfold rest. clear rest.
  assert (H3 : stats_of nm bp3 = st1).
  { unfold bp3. rewrite stats_of_dset, Hst2. reflexivity. }
  assert (Hc3 : action_counts bp3 = counter_incr nm (action_counts bp)) by exact Hc2.
  assert (Hblock : fit_coordinates nm (JDict a) bp3
                   = on_stats nm (welford_update vx vy) bp3).
  { unfold fit_coordinates. rewrite Hcoord. erewrite bind_Ok by reflexivity.
    cbv zeta. fold vx vy. rewrite Hx, Hy. reflexivity. }
  unfold bind at 1. rewrite Hblock. unfold on_stats, zoom. rewrite H3.
  pose proof (welford_update_count_held vx vy (count (stats_of nm bp) + 1) st1 eq_refl)
    as Hcount.
  destruct (welford_update vx vy st1) as [st' [[] | e |]]; cbn [fst snd].
  - set (bp4 := set_action_stats (dset nm st' (action_stats bp3)) bp3).
    pose proof (fit_scroll_keeps nm a
                  (fun st => count st = count (stats_of nm bp) + 1 /\
                             moments st = moments st')
                  (counter_incr nm (action_counts bp))) as Hs.
    assert (Hd : forall st v,
               count st = count (stats_of nm bp) + 1 /\ moments st = moments st' ->
               count (set_direction_counts v st) = count (stats_of nm bp) + 1 /\
               moments (set_direction_counts v st) = moments st')
      by (intros st v HP; exact HP).
    assert (Hm : forall st v,
               count st = count (stats_of nm bp) + 1 /\ moments st = moments st' ->
               count (set_magnitudes v st) = count (stats_of nm bp) + 1 /\
               moments (set_magnitudes v st) = moments st')
      by (intros st v HP; exact HP).
    assert (H4 : (count (stats_of nm bp4) = count (stats_of nm bp) + 1 /\
                  moments (stats_of nm bp4) = moments st') /\
                 action_counts bp4 = counter_incr nm (action_counts bp)).
    { unfold bp4. rewrite stats_of_dset. split; [split; [exact Hcount | reflexivity] |].
      exact Hc3. }
    specialize (Hs Hd Hm bp4 H4).
    unfold bind. fold bp4.
    destruct (fit_scroll nm (JDict a) bp4) as [bp5 [[] | e |]]; try contradiction.
    exists bp5. destruct Hs as [[Hcnt Hmom] Hc]. auto.
  - eexists. split; [reflexivity |]. rewrite stats_of_dset.
    split; [exact Hc3 |]. split; [exact Hcount | reflexivity].
  - eexists. split; [reflexivity |]. rewrite stats_of_dset.
    split; [exact Hc3 |]. split; [exact Hcount | reflexivity].
Qed.

(** C9.  In a step of a coordinate kind, an [x] (or [y]) equal to 0 is
    passed over for [destination_x] ([destination_y]): when that fallback
    is a number, and the other coordinate resolves to a number, the step
    feeds the fallback, not the 0, to the kind's statistics; and when the
    fallback is missing or not a number either, the step raises nothing,
    adds one to the kind's entry of [action_counts] and to its [count],
    and leaves the kind's means, standard deviations and Welford
    accumulators as they were. *)
Theorem fit_step_zero_coordinate bp (s act a : pydict (json F)) (nm : string) :
  dget "action" s = Some (JDict act) ->
  dget "name" act = Some (JStr nm) ->
  dget "args" act = Some (JDict a) ->
  mem_str nm CoordActions = true ->
  stats_default bp = true \/ dget nm (action_stats bp) <> None ->
  (is_zero_number (dict_get a "x") = true ->
     py_or (dict_get a "x") (dict_get a "destination_x") = dict_get a "destination_x" /\
     (isinstance_number (dict_get a "destination_x") = true ->
      isinstance_number (py_or (dict_get a "y") (dict_get a "destination_y")) = true ->
      feeds bp (JDict s) nm (dict_get a "destination_x")
            (py_or (dict_get a "y") (dict_get a "destination_y")))) /\
  (is_zero_number (dict_get a "y") = true ->
     py_or (dict_get a "y") (dict_get a "destination_y") = dict_get a "destination_y" /\
     (isinstance_number (py_or (dict_get a "x") (dict_get a "destination_x")) = true ->
      isinstance_number (dict_get a "destination_y") = true ->
      feeds bp (JDict s) nm (py_or (dict_get a "x") (dict_get a "destination_x"))
            (dict_get a "destination_y"))) /\
  ((is_zero_number (dict_get a "x") = true /\
    absent_or_non_numeric a "destination_x" = true) \/
   (is_zero_number (dict_get a "y") = true /\
    absent_or_non_numeric a "destination_y" = true) ->
   exists bp',
     fit_step (JDict s) bp = (bp', Ok tt) /\
     action_counts bp' = counter_incr nm (action_counts bp) /\
     count (stats_of nm bp') = count (stats_of nm bp) + 1 /\
     moments (stats_of nm bp') = moments (stats_of nm bp)).
Proof.
  intros Hact Hname Hargs Hcoord Hdef.
  assert (Hor : forall k k', is_zero_number (dict_get a k) = true ->
            py_or (dict_get a k) (dict_get a k') = dict_get a k').
  { intros k k' Hz. unfold py_or. now rewrite (zero_number_falsy _ Hz). }
  pose proof (fit_step_feeds bp s act a nm Hact Hname Hargs Hcoord Hdef) as Hfeeds.
  split.
  { intros Hz. split; [apply Hor; exact Hz |]. intros Hx Hy.
    rewrite (Hor "x" "destination_x" Hz) in Hfeeds. exact (Hfeeds Hx Hy). }
  split.
  { intros Hz. split; [apply Hor; exact Hz |]. intros Hx Hy.
    rewrite (Hor "y" "destination_y" Hz) in Hfeeds. exact (Hfeeds Hx Hy). }
  clear Hfeeds.
  intros Hzero.
  unfold fit_step.
  erewrite bind_Ok by reflexivity.
  unfold dict_get_default at 1. rewrite Hact.
  erewrite bind_Ok by reflexivity.
  cbv zeta. unfold dict_get, dict_get_default. rewrite Hname, Hargs.
  rewrite (coord_action_truthy nm Hcoord). cbn [negb]. cbv iota.
  erewrite bind_Ok by reflexivity.
  set (bp1 := set_action_counts (counter_incr nm (action_counts bp)) bp).
  destruct (lookup_stats_ok nm bp1 Hdef) as (bp2 & Hlook & Hst2 & Hc2).
  erewrite bind_Ok by exact Hlook.
  erewrite bind_Ok by reflexivity.
  set (bp3 := set_action_stats _ bp2).
  set (P := fun st : ActionStats F =>
              count st = count (stats_of nm bp) + 1 /\
              moments st = moments (stats_of nm bp)).
  assert (H3 : P (stats_of nm bp3) /\
               action_counts bp3 = counter_incr nm (action_counts bp)).
  { unfold bp3. rewrite stats_of_dset. rewrite Hst2.
    split; [split; reflexivity | exact Hc2]. }
  (* the coordinate block does nothing *)
  assert (Hcoordblock : fit_coordinates nm (JDict a) bp3 = (bp3, Ok tt)).
  { unfold fit_coordinates. rewrite Hcoord. erewrite bind_Ok by reflexivity.
    assert (Hnot : isinstance_number (py_or (dict_get a "x") (dict_get a "destination_x"))
                   && isinstance_number (py_or (dict_get a "y") (dict_get a "destination_y"))
                   = false).
    { destruct Hzero as [[Hz Hab] | [Hz Hab]]; rewrite (Hor _ _ Hz);
        rewrite (absent_not_number _ _ Hab); [reflexivity | apply andb_false_r]. }
    cbv zeta. rewrite Hnot. reflexivity. }
  erewrite bind_Ok by exact Hcoordblock.
  pose proof (fit_scroll_keeps nm a P (counter_incr nm (action_counts bp))) as Hs.
  assert (Hd : forall st v, P st -> P (set_direction_counts v st)) by (intros st v HP; exact HP).
  assert (Hm : forall st v, P st -> P (set_magnitudes v st)) by (intros st v HP; exact HP).
  specialize (Hs Hd Hm bp3 H3).
  destruct (fit_scroll nm (JDict a) bp3) as [bp4 [[] | e |]]; try contradiction.
  exists bp4. destruct Hs as [[Hcount Hmom] Hc]. auto.
Qed.

(** A step of a coordinate kind whose [x] and [y] are numbers other than
    0 feeds exactly that pair to the Welford update. *)
Lemma fit_coordinates_feeds nm (a : pydict (json F)) bp :
  mem_str nm CoordActions = true ->
  truthy (dict_get a "x") = true -> truthy (dict_get a "y") = true ->
  isinstance_number (dict_get a "x") = true ->
  isinstance_number (dict_get a "y") = true ->
  fit_coordinates nm (JDict a) bp
  = on_stats nm (welford_update (dict_get a "x") (dict_get a "y")) bp.
Proof.
  intros Hnm Htx Hty Hx Hy. unfold fit_coordinates. rewrite Hnm.
  erewrite bind_Ok by reflexivity. cbv zeta. unfold py_or.
  rewrite Htx, Hty, Hx, Hy. reflexivity.
Qed.

End FitStep.

(* ================================================================= *)
(** ** [fit_from_episodes]: invariants of the pass *)

Section FitInvariants.

Context {F : Type} {PF : PyFloat F}.

Implicit Types (bp : BehaviorPrior F) (st : ActionStats F).

(** Every entry of [action_stats] satisfies [P]. *)
Definition AllStats (P : ActionStats F -> Prop) bp : Prop :=
  forall nm st, dget nm (action_stats bp) = Some st -> P st.

(** What no step of the pass writes. *)
Definition static bp : Z * Z * bool := (screen_w bp, screen_h bp, stats_default bp).

Definition Fit (P : ActionStats F -> Prop) (fr : Z * Z * bool) bp : Prop :=
  AllStats P bp /\ static bp = fr.

Lemma AllStats_dset (P : ActionStats F -> Prop) bp nm st :
  AllStats P bp -> P st ->
  AllStats P (set_action_stats (dset nm st (action_stats bp)) bp).
Proof.
  intros Hall Hst nm' st'. simpl.
  destruct (String.eqb nm nm') eqn:E.
  - apply String.eqb_eq in E. subst nm'. rewrite dget_dset_eq. congruence.
  - apply String.eqb_neq in E. rewrite dget_dset_ne by exact E. apply Hall.
Qed.

Lemma stats_of_AllStats (P : ActionStats F -> Prop) bp nm :
  AllStats P bp -> P new_ActionStats -> P (stats_of nm bp).
Proof.
  intros Hall Hnew. unfold stats_of.
  destruct (dget nm (action_stats bp)) eqn:E; [eapply Hall; eauto | exact Hnew].
Qed.

(** A computation on one entry that takes [P] to [Q] (both holding of the
    other entries) takes the prior from [Fit P] to [Fit Q]. *)
Lemma hoare_on_stats_all {A : Type} nm (m : M (ActionStats F) A)
    (P Q : ActionStats F -> Prop) (E : ActionStats F -> Prop) fr :
  P new_ActionStats ->
  (forall st, P st -> Q st) ->
  hoare P m (fun _ => Q) E ->
  hoare (Fit P fr) (on_stats nm m) (fun _ => Fit Q fr)
        (fun bp => E (stats_of nm bp)).
Proof.
  intros Hnew HPQ Hm bp [Hall Hfr]. unfold on_stats, zoom.
  specialize (Hm _ (stats_of_AllStats P bp nm Hall Hnew)).
  destruct (m (stats_of nm bp)) as [st' [a | e |]]; rewrite ?stats_of_dset; auto.
  split; [| exact Hfr].
  apply AllStats_dset; [| exact Hm].
  intros nm' st0 H0. apply HPQ. eapply Hall; eauto.
Qed.

Lemma hoare_for_each {S A : Type} (I : S -> Prop) (E : S -> Prop)
    (body : A -> M S unit) (l : list A) :
  (forall a, In a l -> hoare I (body a) (fun _ => I) E) ->
  hoare I (for_each l body) (fun _ => I) E.
Proof.
  induction l as [| a l IH]; intros Hb; simpl.
  - apply hoare_ret. auto.
  - eapply hoare_bind; [apply Hb; now left |].
    intros ?. apply IH. intros a' Ha'. apply Hb. now right.
Qed.

(** Leaves of a walk that keeps [I] and does not care where a raise
    ends. *)
Lemma keep_lift {S A : Type} (I : S -> Prop) (r : result A) :
  hoare I (lift r) (fun _ => I) (fun _ => True).
Proof. apply hoare_lift. intros s Hs. destruct r; auto. Qed.

Lemma keep_modify {S : Type} (I : S -> Prop) (f : S -> S) :
  (forall s, I s -> I (f s)) -> hoare I (modify f) (fun _ => I) (fun _ => True).
Proof. intros H. apply hoare_modify. exact H. Qed.

Lemma keep_attr {A : Type} (I : ActionStats F -> Prop)
    (field : ActionStats F -> option A) :
  hoare I (attr field) (fun _ => I) (fun _ => True).
Proof. intros st Hst. unfold attr. destruct (field st); auto. Qed.

Lemma keep_ret {S A : Type} (I : S -> Prop) (a : A) :
  hoare I (ret a) (fun _ => I) (fun _ => True).
Proof. apply hoare_ret. auto. Qed.

(** *** The standard deviations are set only with the means *)

(** An entry without a mean has no standard deviation. *)
Definition std_follows_mean st : Prop :=
  mean_x st = None -> std_x st = None /\ std_y st = None.

Lemma welford_update_sets_mean (x y : json F) :
  hoare (fun _ => True) (welford_update x y)
        (fun _ st => mean_x st <> None) (fun _ => True).
Proof.
  set (K := fun st : ActionStats F => mean_x st <> None).
  unfold welford_update.
  eapply hoare_bind with (Q := fun st0 st => st = st0).
  { intros st _. reflexivity. }
  intros st0. destruct (mean_x st0) as [mx |] eqn:Hmean.
  - eapply hoare_weaken with (P' := K) (Q' := fun _ => K) (E' := fun _ => True);
      [| intros st ->; unfold K; congruence | auto | auto].
    repeat first
      [ apply keep_modify; intros st Hst; unfold K in *; simpl; congruence
      | apply keep_lift
      | apply keep_attr
      | eapply hoare_bind with (Q := fun _ => K); [| intros ?] ].
    intros st Hst. destruct (mean_y st); auto.
  - eapply hoare_weaken with (P' := fun _ => True) (Q' := fun _ => K)
        (E' := fun _ => True); [| auto | auto | auto].
    eapply hoare_bind with (Q := fun _ _ => True); [apply keep_lift |]. intros fx.
    eapply hoare_bind with (Q := fun _ _ => True); [apply keep_lift |]. intros fy.
    eapply hoare_bind with (Q := fun _ => K).
    { apply hoare_modify. intros st _. unfold K. simpl. congruence. }
    intros ?.
    eapply hoare_bind with (Q := fun _ => K);
      [| intros ?]; apply keep_modify; intros st Hst; unfold K in *; simpl; congruence.
Qed.

Lemma std_follows_mean_new : std_follows_mean new_ActionStats.
Proof. intros _. split; reflexivity. Qed.

Lemma fit_step_std_follows_mean (step : json F) fr :
  hoare (Fit std_follows_mean fr) (fit_step step)
        (fun _ => Fit std_follows_mean fr) (fun _ => True).
Proof.
  set (I := Fit std_follows_mean fr).
  assert (Hon : forall nm (f : ActionStats F -> ActionStats F),
            (forall st, std_follows_mean st -> std_follows_mean (f st)) ->
            hoare I (on_stats nm (modify f)) (fun _ => I) (fun _ => True)).
  { intros nm f Hf. eapply hoare_weaken.
    - apply (hoare_on_stats_all nm (modify f) std_follows_mean std_follows_mean
               (fun _ => True) fr std_follows_mean_new); [auto |].
      apply keep_modify. exact Hf.
    - auto.
    - auto.
    - auto. }
  unfold fit_step.
  eapply hoare_bind with (Q := fun _ => I); [apply keep_lift |]. intros s.
  eapply hoare_bind with (Q := fun _ => I); [apply keep_lift |]. intros act.
  cbv zeta.
  destruct (negb (truthy (dict_get act "name"))); [apply keep_ret |].
  destruct (dict_get act "name") as [| b0 | n0 | a0 | nm | l0 | d0];
    try apply keep_lift.
  eapply hoare_bind with (Q := fun _ => I).
  { apply keep_modify. intros bp [Hall Hfr]. split; [exact Hall | exact Hfr]. }
  intros ?. eapply hoare_bind with (Q := fun _ => I).
  { intros bp [Hall Hfr]. unfold lookup_stats.
    destruct (dget nm (action_stats bp)) eqn:E; [split; auto |].
    destruct (stats_default bp) eqn:Hd; [| exact Logic.I].
    split; [| exact Hfr]. apply AllStats_dset; [exact Hall | apply std_follows_mean_new]. }
  intros ?. eapply hoare_bind with (Q := fun _ => I).
  { apply Hon. intros st Hst. exact Hst. }
  intros ?. eapply hoare_bind with (Q := fun _ => I).
  { unfold fit_coordinates.
    destruct (mem_str nm CoordActions); [| apply keep_ret].
    eapply hoare_bind with (Q := fun _ => I); [apply keep_lift |]. intros ad.
    cbv zeta. match goal with |- context [if ?c then _ else _] => destruct c end;
      [| apply keep_ret].
    eapply hoare_weaken.
    - apply (hoare_on_stats_all nm _ std_follows_mean std_follows_mean
               (fun _ => True) fr std_follows_mean_new); [auto |].
      eapply hoare_weaken; [apply welford_update_sets_mean | | |]; simpl; auto.
      intros _ st Hst Hnone. contradiction.
    - auto.
    - auto.
    - auto. }
  intros ?. unfold fit_scroll.
  destruct (mem_str nm ScrollActions); [| apply keep_ret].
  eapply hoare_bind with (Q := fun _ => I).
  { apply Hon. intros st Hst. destruct (direction_counts st); exact Hst. }
  intros ?. eapply hoare_bind with (Q := fun _ => I); [apply keep_lift |]. intros ad.
  eapply hoare_bind with (Q := fun _ => I).
  { destruct (dict_get ad "direction"); try apply keep_ret.
    apply Hon. intros st Hst. exact Hst. }
  intros ?. destruct (String.eqb nm "scroll_at"); [| apply keep_ret].
  eapply hoare_bind with (Q := fun _ => I).
  { apply Hon. intros st Hst. destruct (magnitudes st); exact Hst. }
  intros ?. destruct (as_int (dict_get ad "magnitude")); [| apply keep_ret].
  apply Hon. intros st Hst. exact Hst.
Qed.

End FitInvariants.

(* ================================================================= *)
(** ** [fit_from_episodes]: the fallback standard deviation *)

Section FitFinalize.

Context {F : Type} {PF : PyFloat F}.

Implicit Types (bp : BehaviorPrior F) (st : ActionStats F).

Lemma fit_episode_std_follows_mean (ep : json F) fr :
  hoare (Fit std_follows_mean fr) (fit_episode ep)
        (fun _ => Fit std_follows_mean fr) (fun _ => True).
Proof.
  unfold fit_episode.
  eapply hoare_bind with (Q := fun _ => Fit std_follows_mean fr); [apply keep_lift |].
  intros e.
  eapply hoare_bind with (Q := fun _ => Fit std_follows_mean fr); [apply keep_lift |].
  intros steps. apply hoare_for_each. intros s _. apply fit_step_std_follows_mean.
Qed.

Lemma fit_entries_std_follows_mean (entries : list (dir_entry F)) fr :
  hoare (Fit std_follows_mean fr) (for_each entries fit_entry)
        (fun _ => Fit std_follows_mean fr) (fun _ => True).
Proof.
  apply hoare_for_each. intros e _. unfold fit_entry.
  destruct e as [| [[ex | ep] |]].
  - apply keep_ret.
  - apply keep_lift.
  - apply fit_episode_std_follows_mean.
  - apply keep_ret.
Qed.

(** The fallback: 20% of the dimension, floored at 1.0. *)
Definition fallback_std (dim : Z) : F := max_one (f_mul (f_of_int dim) f_fifth).

(** What the finalization establishes for an entry without a mean. *)
Definition finalized (w h : Z) st : Prop :=
  count st <= 1 -> mean_x st = None ->
  std_x st = Some (fallback_std w) /\ std_y st = Some (fallback_std h).

Lemma int_times_fifth_Ok (n : Z) (a : F) :
  int_times_fifth n = Ok a -> a = f_mul (f_of_int n) f_fifth.
Proof.
  unfold int_times_fifth, int_to_float. destruct (f_int_fits n); congruence.
Qed.

Lemma finalize_stats_cases (w h : Z) st st' :
  finalize_stats w h st = (st', Ok tt) ->
  mean_x st' = mean_x st /\ count st' = count st /\
  (count st <= 1 ->
   std_x st' = Some (match std_x st with Some s => s | None => fallback_std w end) /\
   std_y st' = Some (match std_y st with Some s => s | None => fallback_std h end)).
Proof.
  unfold finalize_stats, bind, gets, lift, modify, ret, int_times_fifth,
    int_to_float, fallback_std.
  destruct (count st <=? 1) eqn:Hc; destruct (std_x st) eqn:Hx;
    destruct (std_y st) eqn:Hy; simpl; rewrite ?Hy;
    destruct (f_int_fits w); destruct (f_int_fits h); simpl; rewrite ?Hy;
    intros H; inversion H; subst; simpl; rewrite ?Hx, ?Hy;
    repeat split; auto; intros; apply Z.leb_gt in Hc; lia.
Qed.

Lemma finalize_stats_post (w h : Z) st st' :
  std_follows_mean st \/ finalized w h st ->
  finalize_stats w h st = (st', Ok tt) ->
  finalized w h st'.
Proof.
  intros Hpre Hrun Hcount Hmean.
  destruct (finalize_stats_cases w h st st' Hrun) as (Hm & Hc & Hstd).
  rewrite Hm in Hmean. rewrite Hc in Hcount.
  destruct (Hstd Hcount) as [Hx Hy]. rewrite Hx, Hy.
  destruct Hpre as [HJ | Hf].
  - destruct (HJ Hmean) as [-> ->]. auto.
  - destruct (Hf Hcount Hmean) as [-> ->]. auto.
Qed.

Lemma dget_Some_In {V : Type} (k : string) (d : pydict V) (v : V) :
  dget k d = Some v -> In k (dkeys d).
Proof.
  induction d as [| [k' v'] d IH]; simpl; [discriminate |].
  destruct (String.eqb k k') eqn:E; [apply String.eqb_eq in E; auto | auto].
Qed.

Lemma finalize_loop (w h : Z) (ks : list string) :
  forall bp bp' (Done : string -> Prop),
    (forall nm st, dget nm (action_stats bp) = Some st ->
       (std_follows_mean st \/ finalized w h st) /\ (Done nm -> finalized w h st)) ->
    for_each ks (fun nm => on_stats nm (finalize_stats w h)) bp = (bp', Ok tt) ->
    forall nm st, dget nm (action_stats bp') = Some st ->
      (std_follows_mean st \/ finalized w h st) /\
      (Done nm \/ In nm ks -> finalized w h st).
Proof.
  induction ks as [| k ks IH]; intros bp bp' Done Hpre Hrun nm st Hget.
  - simpl in Hrun. inversion Hrun; subst.
    destruct (Hpre nm st Hget) as [H1 H2]. split; [exact H1 |].
    intros [H | []]. auto.
  - simpl in Hrun. apply bind_Ok_inv in Hrun.
    destruct Hrun as ([] & bp1 & Hk & Hrest).
    unfold on_stats, zoom in Hk.
    destruct (finalize_stats w h (stats_of k bp)) as [stk [[] | e |]] eqn:Hfin;
      inversion Hk; subst bp1; clear Hk.
    assert (Hstk : finalized w h stk).
    { eapply finalize_stats_post; [| exact Hfin].
      unfold stats_of. destruct (dget k (action_stats bp)) eqn:E.
      - apply (Hpre k a E).
      - left. apply std_follows_mean_new. }
    specialize (IH (set_action_stats (dset k stk (action_stats bp)) bp) bp'
                  (fun n => Done n \/ n = k)).
    assert (Hpre1 : forall nm st,
              dget nm (action_stats
                         (set_action_stats (dset k stk (action_stats bp)) bp)) = Some st ->
              (std_follows_mean st \/ finalized w h st) /\
              ((Done nm \/ nm = k) -> finalized w h st)).
    { intros nm0 st0. simpl. destruct (String.eqb k nm0) eqn:E.
      - apply String.eqb_eq in E. subst nm0. rewrite dget_dset_eq.
        intros H; inversion H; subst. auto.
      - apply String.eqb_neq in E. rewrite dget_dset_ne by exact E.
        intros H. destruct (Hpre nm0 st0 H) as [H1 H2]. split; [exact H1 |].
        intros [Hd | ->]; [auto | congruence]. }
    destruct (IH Hpre1 Hrest nm st Hget) as [H1 H2]. split; [exact H1 |].
    intros [Hd | [-> | Hin]]; apply H2; auto.
Qed.

Lemma max_one_not_zero (a : F) : f_is_zero (max_one a) = false.
Proof.
  unfold max_one. destruct (f_ltb a f_one) eqn:E.
  - apply f_one_not_zero.
  - now apply f_ge_one_not_zero.
Qed.

(** C3, as amended.  After [fit_from_episodes] has completed on a new
    prior, every action kind observed exactly once for which no
    coordinate sample was recorded (its mean is unset) has [std_x] and
    [std_y] equal to [max(0.2 * width, 1.0)] and [max(0.2 * height, 1.0)],
    and neither is zero. *)
Theorem fit_single_observation_std (w h : Z) (p : episodes_path F) bp' :
  fit_from_episodes p (new_BehaviorPrior w h) = (bp', Ok tt) ->
  forall nm st,
    dget nm (action_stats bp') = Some st ->
    count st = 1 -> mean_x st = None ->
    std_x st = Some (fallback_std w) /\ std_y st = Some (fallback_std h) /\
    f_is_zero (fallback_std w) = false /\ f_is_zero (fallback_std h) = false.
Proof.
  intros Hrun nm st Hget Hcount Hmean.
  destruct p as [| | entries]; try discriminate.
  simpl in Hrun. apply bind_Ok_inv in Hrun.
  destruct Hrun as ([] & bp1 & Hloop & Hfin).
  pose proof (fit_entries_std_follows_mean entries (w, h, true)
                (new_BehaviorPrior w h)) as Hinv.
  assert (Hinit : Fit std_follows_mean (w, h, true) (new_BehaviorPrior (F := F) w h)).
  { split; [intros ? ? H; discriminate H | reflexivity]. }
  specialize (Hinv Hinit). rewrite Hloop in Hinv. destruct Hinv as [Hall Hfr].
  unfold finalize in Hfin. unfold bind at 1 in Hfin. simpl in Hfin.
  unfold static in Hfr. injection Hfr as Hw Hh Hd. rewrite Hw, Hh in Hfin.
  pose proof (finalize_loop w h (dkeys (action_stats bp1)) bp1 bp'
                (fun n => ~ In n (dkeys (action_stats bp1)))) as Hl.
  assert (Hpre : forall nm st, dget nm (action_stats bp1) = Some st ->
            (std_follows_mean st \/ finalized w h st) /\
            (~ In nm (dkeys (action_stats bp1)) -> finalized w h st)).
  { intros nm0 st0 H0. split; [left; eapply Hall; eauto |].
    intros Hn. exfalso. apply Hn. eapply dget_Some_In; eauto. }
  destruct (Hl Hpre Hfin nm st Hget) as [_ Hdone].
  assert (Hf : finalized w h st).
  { apply Hdone. destruct (in_dec string_dec nm (dkeys (action_stats bp1))); auto. }
  assert (Hle : count st <= 1) by lia.
  destruct (Hf Hle Hmean) as [Hx Hy].
  repeat split; auto; unfold fallback_std; apply max_one_not_zero.
Qed.

End FitFinalize.

(* ================================================================= *)
(** ** [save] and [load] *)

Section Persistence.

Context {F : Type} {PF : PyFloat F}.

Implicit Types (bp : BehaviorPrior F) (st : ActionStats F).

(** What [to_dict] writes for a histogram or sample list that is [None]. *)
Definition or_empty {A : Type} (o : option (list A)) : list A :=
  match o with Some l => l | None => [] end.

(** The entry that [from_dict] builds from what [to_dict] wrote. *)
Definition restored_stats st : ActionStats F :=
  mkActionStats (count st) (mean_x st) (mean_y st) (std_x st) (std_y st)
    (Some (or_empty (direction_counts st))) (Some (or_empty (magnitudes st)))
    None None None.

Definition restored bp : BehaviorPrior F :=
  mkBehaviorPrior (screen_w bp) (screen_h bp) (action_counts bp)
    (map (fun kv => (fst kv, restored_stats (snd kv))) (action_stats bp)) false.

Lemma int_values_counter (c : pydict Z) :
  int_values (map (fun kv => (fst kv, JInt (F := F) (snd kv))) c) = Some c.
Proof.
  induction c as [| [k n] c IH]; simpl; [reflexivity | now rewrite IH].
Qed.

Lemma int_items_map (l : list Z) : int_items (map (JInt (F := F)) l) = Some l.
Proof. induction l as [| n l IH]; simpl; [reflexivity | now rewrite IH]. Qed.

Lemma option_float_roundtrip (a : option F) :
  option_float_of_json (json_of_option_float a) = Ok a.
Proof. destruct a; reflexivity. Qed.

Lemma from_dict_to_dict st : from_dict (to_dict st) = Ok (restored_stats st).
Proof.
  unfold from_dict, to_dict, rbind, as_dict, dict_get, dict_get_default.
  cbn [dget String.eqb Ascii.eqb Bool.eqb].
  rewrite !option_float_roundtrip.
  unfold counter_of_json, json_of_counter. rewrite int_values_counter.
  unfold int_list_of_json. rewrite int_items_map.
  reflexivity.
Qed.

Lemma stats_of_items_to_dict (d : pydict (ActionStats F)) :
  stats_of_items (map (fun kv => (fst kv, to_dict (snd kv))) d)
  = Ok (map (fun kv => (fst kv, restored_stats (snd kv))) d).
Proof.
  induction d as [| [k st] d IH]; simpl; [reflexivity |].
  rewrite from_dict_to_dict. simpl. rewrite IH. reflexivity.
Qed.

Lemma load_save bp : load (save bp) = Ok (restored bp).
Proof.
  unfold load, save, rbind, as_dict, dict_get_default.
  cbn [dget String.eqb Ascii.eqb Bool.eqb screen_size_of_json].
  unfold counter_of_json, json_of_counter. rewrite int_values_counter.
  rewrite stats_of_items_to_dict. reflexivity.
Qed.

Lemma dget_map_values {V W : Type} (f : V -> W) (k : string) (d : pydict V) :
  dget k (map (fun kv => (fst kv, f (snd kv))) d) = option_map f (dget k d).
Proof.
  induction d as [| [k' v] d IH]; simpl; [reflexivity |].
  destruct (String.eqb k k'); [reflexivity | exact IH].
Qed.

Lemma to_dict_restored st : to_dict (restored_stats st) = to_dict st.
Proof. unfold to_dict, restored_stats. simpl. reflexivity. Qed.

(** C6, as amended.  [load] reads back what [save] wrote: the prior it
    returns has the same screen size and the same [action_counts], the
    same kinds in the same order, and for every kind the same [count],
    [mean_x], [mean_y], [std_x] and [std_y]; [direction_counts] and
    [magnitudes] are the same except that an unset one ([None]) comes back
    empty, and the Welford accumulators are not stored.  Saving the prior
    read back writes the same document. *)
Theorem load_save_roundtrip bp :
  exists bp',
    load (save bp) = Ok bp' /\
    screen_w bp' = screen_w bp /\ screen_h bp' = screen_h bp /\
    action_counts bp' = action_counts bp /\
    dkeys (action_stats bp') = dkeys (action_stats bp) /\
    (forall nm,
       match dget nm (action_stats bp), dget nm (action_stats bp') with
       | Some st, Some st' =>
           count st' = count st /\
           mean_x st' = mean_x st /\ mean_y st' = mean_y st /\
           std_x st' = std_x st /\ std_y st' = std_y st /\
           direction_counts st' = Some (or_empty (direction_counts st)) /\
           magnitudes st' = Some (or_empty (magnitudes st))
       | None, None => True
       | _, _ => False
       end) /\
    save bp' = save bp.
Proof.
  exists (restored bp). split; [apply load_save |].
  split; [reflexivity |]. split; [reflexivity |]. split; [reflexivity |].
  split; [| split].
  - unfold restored, dkeys. simpl. rewrite map_map. reflexivity.
  - intros nm. unfold restored. simpl. rewrite dget_map_values.
    destruct (dget nm (action_stats bp)) as [st |]; simpl; auto.
    repeat split; reflexivity.
  - unfold save, restored. simpl. rewrite map_map. reflexivity.
Qed.

End Persistence.

(* ================================================================= *)
(** ** [fit_from_episodes]: which inputs are skipped, which raise *)

Section FitTotal.

Context {F : Type} {PF : PyFloat F}.

Implicit Types (bp : BehaviorPrior F) (st : ActionStats F).

(** *** Well-formed episode records

    An index file as the collector writes it: an object whose [steps] is a
    list of objects, each with an [action] object whose [name] is a string
    (or null) and whose [args] is an object; an integer coordinate must
    be in the range of a double. *)
Definition fits_float (v : json F) : bool :=
  match v with
  | JInt n => f_int_fits n
  | _ => true
  end.

Definition well_formed_args (a : pydict (json F)) : bool :=
  forallb (fun k => fits_float (dict_get a k))
          ["x"; "y"; "destination_x"; "destination_y"].

Definition well_formed_step (s : json F) : bool :=
  match s with
  | JDict d =>
      match dict_get_default d "action" (JDict []) with
      | JDict act =>
          match dict_get act "name" with
          | JNull | JStr _ =>
              match dict_get_default act "args" (JDict []) with
              | JDict a => well_formed_args a
              | _ => false
              end
          | _ => false
          end
      | _ => false
      end
  | _ => false
  end.

Definition episode_steps (ep : json F) : list (json F) :=
  match ep with
  | JDict e =>
      match dict_get_default e "steps" (JList []) with
      | JList l => l
      | _ => []
      end
  | _ => []
  end.

Definition well_formed_episode (ep : json F) : bool :=
  match ep with
  | JDict e =>
      match dict_get_default e "steps" (JList []) with
      | JList l => forallb well_formed_step l
      | _ => false
      end
  | _ => false
  end.

Definition well_formed_entry (e : dir_entry F) : bool :=
  match e with
  | NotDir | EpisodeDir None => true
  | EpisodeDir (Some (Parsed ep)) => well_formed_episode ep
  | EpisodeDir (Some (Unreadable _)) => false
  end.

Definition entry_steps (e : dir_entry F) : Z :=
  match e with
  | EpisodeDir (Some (Parsed ep)) => Z.of_nat (List.length (episode_steps ep))
  | _ => 0
  end.

Definition total {A : Type} (wt : A -> Z) (l : list A) : Z :=
  fold_right (fun a acc => wt a + acc) 0 l.

(** An entry that the loop passes over. *)
Definition has_index (e : dir_entry F) : bool :=
  match e with
  | NotDir | EpisodeDir None => false
  | EpisodeDir (Some _) => true
  end.

(** *** Skipped entries *)

Lemma bind_ret_tt {S B : Type} (k : unit -> M S B) (s : S) :
  bind (ret tt) k s = k tt s.
Proof. reflexivity. Qed.

Lemma for_each_skip (entries : list (dir_entry F)) bp :
  for_each entries fit_entry bp = for_each (filter has_index entries) fit_entry bp.
Proof.
  revert bp. induction entries as [| e entries IH]; intros bp; [reflexivity |].
  destruct e as [| [i |]]; cbn [filter has_index for_each].
  - cbn [fit_entry]. rewrite bind_ret_tt. apply IH.
  - unfold bind.
    destruct (fit_entry (EpisodeDir (Some i)) bp) as [bp1 [[] | |]];
      try reflexivity. apply IH.
  - cbn [fit_entry]. rewrite bind_ret_tt. apply IH.
Qed.

(** *** An unreadable index file *)

Lemma for_each_app {S A : Type} (l1 l2 : list A) (body : A -> M S unit) (s : S) :
  for_each (l1 ++ l2) body s = (for_each l1 body ;;; for_each l2 body) s.
Proof.
  revert s. induction l1 as [| a l1 IH]; intros s; simpl.
  - reflexivity.
  - unfold bind. destruct (body a s) as [s1 [[] | |]]; try reflexivity. apply IH.
Qed.

Lemma fit_unreadable (before after : list (dir_entry F)) (e : exn) bp bp1 :
  for_each before fit_entry bp = (bp1, Ok tt) ->
  fit_from_episodes (PathDir (before ++ EpisodeDir (Some (Unreadable e)) :: after)) bp
  = (bp1, Raise e).
Proof.
  intros Hb. simpl. unfold bind at 1. rewrite for_each_app.
  unfold bind at 1. rewrite Hb. simpl. reflexivity.
Qed.

(** *** The Welford accumulators are there whenever there is a mean *)

Definition accumulators (j : Z) st : Prop :=
  mean_x st <> None ->
  mean_y st <> None /\ _m2x st <> None /\ _m2y st <> None /\
  exists n, _n st = Some n /\ 1 <= n <= j.

Lemma accumulators_mono (j j' : Z) st :
  j <= j' -> accumulators j st -> accumulators j' st.
Proof.
  intros Hj H Hm. destruct (H Hm) as (H1 & H2 & H3 & n & Hn & Hr).
  repeat split; auto. exists n. split; [exact Hn | lia].
Qed.

Lemma accumulators_new (j : Z) : accumulators j new_ActionStats.
Proof. intros H. now contradiction H. Qed.

Lemma div_int_Ok (a : F) (n : Z) :
  1 <= n <= 2 ^ 64 -> div_int a n = Ok (f_div a (f_of_int n)).
Proof.
  intros Hn. unfold div_int, int_to_float.
  destruct (n =? 0) eqn:E; [apply Z.eqb_eq in E; lia |].
  rewrite f_small_int_fits by lia. reflexivity.
Qed.

Lemma math_sqrt_max_one (a : F) : math_sqrt (max_one a) = Ok (f_sqrt (max_one a)).
Proof.
  unfold math_sqrt, max_one. destruct (f_ltb a f_one) eqn:E.
  - now rewrite f_one_not_neg.
  - now rewrite (f_ge_one_not_neg a E).
Qed.

Lemma py_float_Ok (v : json F) :
  isinstance_number v = true -> fits_float v = true -> exists a, py_float v = Ok a.
Proof.
  destruct v; simpl; try discriminate; intros _ Hf; eauto.
  unfold int_to_float. rewrite Hf. eauto.
Qed.

Lemma welford_update_total (x y : json F) (j : Z) st :
  0 <= j -> j + 1 <= 2 ^ 64 ->
  isinstance_number x = true -> fits_float x = true ->
  isinstance_number y = true -> fits_float y = true ->
  accumulators j st ->
  exists st', welford_update x y st = (st', Ok tt) /\ accumulators (j + 1) st'.
Proof.
  intros Hj Hb Hx Hfx Hy Hfy Hacc.
  destruct (py_float_Ok x Hx Hfx) as [fx Hpx].
  destruct (py_float_Ok y Hy Hfy) as [fy Hpy].
  destruct st as [c mx my sx sy dc mg m2x m2y n].
  unfold welford_update. erewrite bind_Ok by reflexivity. cbn [mean_x].
  destruct mx as [mx |].
  - destruct (Hacc ltac:(simpl; congruence)) as (H1 & H2 & H3 & n0 & Hn & Hr).
    simpl in H1, H2, H3, Hn. subst n.
    destruct my as [my |]; [| congruence].
    destruct m2x as [m2x |]; [| congruence].
    destruct m2y as [m2y |]; [| congruence].
    repeat (erewrite bind_Ok by
              first [ reflexivity
                    | unfold lift;
                      rewrite ?Hpx, ?Hpy, ?math_sqrt_max_one, ?div_int_Ok by lia;
                      reflexivity ]).
    eexists. split; [reflexivity |].
    intros _. simpl. repeat split; try congruence.
    exists (n0 + 1). split; [reflexivity | lia].
  - repeat (erewrite bind_Ok by
              first [ reflexivity
                    | unfold lift; rewrite ?Hpx, ?Hpy; reflexivity ]).
    eexists. split; [reflexivity |].
    intros _. simpl. repeat split; try congruence.
    exists 1. split; [reflexivity | lia].
Qed.

(** *** A well-formed step does not raise *)

Lemma AllStats_weaken (P Q : ActionStats F -> Prop) bp :
  (forall st, P st -> Q st) -> AllStats P bp -> AllStats Q bp.
Proof. intros H Hall nm st Hget. apply H. eapply Hall; eauto. Qed.

Lemma fit_scroll_all nm (a : pydict (json F)) (P : ActionStats F -> Prop) fr :
  P new_ActionStats ->
  (forall st v, P st -> P (set_direction_counts v st)) ->
  (forall st v, P st -> P (set_magnitudes v st)) ->
  hoare (Fit P fr) (fit_scroll nm (JDict a)) (fun _ => Fit P fr) (fun _ => False).
Proof.
  intros Hnew Hd Hm.
  assert (Hon : forall (f : ActionStats F -> ActionStats F),
            (forall st, P st -> P (f st)) ->
            hoare (Fit P fr) (on_stats nm (modify f)) (fun _ => Fit P fr)
                  (fun _ => False)).
  { intros f Hf.
    apply (hoare_on_stats_all nm (modify f) P P (fun _ => False) fr Hnew); [auto |].
    apply hoare_modify. exact Hf. }
  unfold fit_scroll.
  destruct (mem_str nm ScrollActions); [| apply hoare_ret; auto].
  eapply hoare_bind.
  { apply Hon. intros st HP. destruct (direction_counts st); auto. }
  intros ?. eapply hoare_bind.
  { apply hoare_lift. simpl. intros s Hs. exact Hs. }
  intros ad. eapply hoare_bind with (Q := fun _ => Fit P fr).
  { destruct (dict_get ad "direction"); try (apply hoare_ret; auto).
    apply Hon. auto. }
  intros ?. destruct (String.eqb nm "scroll_at"); [| apply hoare_ret; auto].
  eapply hoare_bind.
  { apply Hon. intros st HP. destruct (magnitudes st); auto. }
  intros ?. destruct (as_int (dict_get ad "magnitude")); [| apply hoare_ret; auto].
  apply Hon. auto.
Qed.

Lemma well_formed_args_fits (a : pydict (json F)) (k k' : string) :
  well_formed_args a = true ->
  In k ["x"; "y"] -> In k' ["destination_x"; "destination_y"] ->
  fits_float (py_or (dict_get a k) (dict_get a k')) = true.
Proof.
  unfold well_formed_args. rewrite forallb_forall. intros H Hk Hk'.
  unfold py_or. destruct (truthy (dict_get a k)); apply H; simpl in *; tauto.
Qed.

Lemma fit_coordinates_total nm (a : pydict (json F)) (j w h : Z) bp :
  well_formed_args a = true -> 0 <= j -> j + 1 <= 2 ^ 64 ->
  Fit (accumulators j) (w, h, true) bp ->
  exists bp', fit_coordinates nm (JDict a) bp = (bp', Ok tt) /\
              Fit (accumulators (j + 1)) (w, h, true) bp'.
Proof.
  intros Hwf Hj Hb [Hall Hfr].
  assert (Hmono : Fit (accumulators (j + 1)) (w, h, true) bp).
  { split; [| exact Hfr].
    eapply AllStats_weaken; [| exact Hall]. intros st. apply accumulators_mono. lia. }
  unfold fit_coordinates.
  destruct (mem_str nm CoordActions);
    [| exists bp; split; [reflexivity | exact Hmono]].
  erewrite bind_Ok by reflexivity. cbv zeta.
  set (x := py_or (dict_get a "x") (dict_get a "destination_x")).
  set (y := py_or (dict_get a "y") (dict_get a "destination_y")).
  destruct (isinstance_number x) eqn:Hx;
    [| exists bp; split; [reflexivity | exact Hmono]].
  destruct (isinstance_number y) eqn:Hy;
    [| exists bp; split; [reflexivity | exact Hmono]].
  cbn [andb].
  assert (Hfx : fits_float x = true).
  { apply well_formed_args_fits; simpl; auto. }
  assert (Hfy : fits_float y = true).
  { apply well_formed_args_fits; simpl; auto. }
  destruct (welford_update_total x y j (stats_of nm bp) Hj Hb Hx Hfx Hy Hfy)
    as (st' & Hrun & Hacc).
  { apply stats_of_AllStats; [exact Hall | apply accumulators_new]. }
  unfold on_stats, zoom. rewrite Hrun.
  eexists. split; [reflexivity |]. split; [| exact Hfr].
  apply AllStats_dset; [| exact Hacc].
  eapply AllStats_weaken; [| exact Hall]. intros st. apply accumulators_mono. lia.
Qed.

Lemma fit_step_total (step : json F) (j w h : Z) bp :
  well_formed_step step = true -> 0 <= j -> j + 1 <= 2 ^ 64 ->
  Fit (accumulators j) (w, h, true) bp ->
  exists bp', fit_step step bp = (bp', Ok tt) /\
              Fit (accumulators (j + 1)) (w, h, true) bp'.
Proof.
  intros Hwf Hj Hb [Hall Hfr].
  assert (Hmono : Fit (accumulators (j + 1)) (w, h, true) bp).
  { split; [| exact Hfr].
    eapply AllStats_weaken; [| exact Hall]. intros st. apply accumulators_mono. lia. }
  destruct step as [| | | | | | d]; try discriminate. unfold well_formed_step in Hwf.
  destruct (dict_get_default d "action" (JDict [])) as [| | | | | | act] eqn:Hact;
    try discriminate.
  unfold fit_step. erewrite bind_Ok by reflexivity. rewrite Hact.
  erewrite bind_Ok by reflexivity. cbv zeta.
  destruct (dict_get_default act "args" (JDict [])) as [| | | | | | a] eqn:Hargs;
    try (destruct (dict_get act "name"); discriminate).
  destruct (dict_get act "name") as [| | | | nm | |] eqn:Hname; try discriminate.
  - exists bp. split; [reflexivity | exact Hmono].
  - destruct (truthy (JStr nm : json F));
      [| exists bp; split; [reflexivity | exact Hmono]].
    cbn [negb]. cbv iota.
    erewrite bind_Ok by reflexivity.
    set (bp1 := set_action_counts (counter_incr nm (action_counts bp)) bp).
    assert (H1 : Fit (accumulators j) (w, h, true) bp1) by (split; assumption).
    (* st = self.action_stats[name] *)
    assert (H2 : exists bp2, lookup_stats nm bp1 = (bp2, Ok tt) /\
                             Fit (accumulators j) (w, h, true) bp2).
    { unfold lookup_stats. destruct (dget nm (action_stats bp1)) eqn:E; [eauto |].
      injection Hfr as _ _ Hd. change (stats_default bp1) with (stats_default bp).
      rewrite Hd. eexists. split; [reflexivity |].
      split; [| unfold static in *; simpl; destruct H1 as [_ H1]; exact H1].
      apply AllStats_dset; [exact Hall | apply accumulators_new]. }
    destruct H2 as (bp2 & Hlook & [Hall2 Hfr2]).
    erewrite bind_Ok by exact Hlook.
    erewrite bind_Ok by reflexivity.
    set (bp3 := set_action_stats _ bp2).
    assert (H3 : Fit (accumulators j) (w, h, true) bp3).
    { split; [| exact Hfr2]. apply AllStats_dset; [exact Hall2 |].
      intros Hm. apply (stats_of_AllStats _ bp2 nm Hall2 (accumulators_new j) Hm). }
    destruct (fit_coordinates_total nm a j w h bp3 Hwf Hj Hb H3) as (bp4 & Hc & H4).
    erewrite bind_Ok by exact Hc.
    pose proof (fit_scroll_all nm a (accumulators (j + 1)) (w, h, true)
                  (accumulators_new _)) as Hs.
    assert (Hd : forall st v, accumulators (j + 1) st ->
                   accumulators (j + 1) (set_direction_counts v st)) by (intros ? ? H; exact H).
    assert (Hm : forall st v, accumulators (j + 1) st ->
                   accumulators (j + 1) (set_magnitudes v st)) by (intros ? ? H; exact H).
    specialize (Hs Hd Hm bp4 H4).
    destruct (fit_scroll nm (JDict a) bp4) as [bp5 [[] | e |]]; try contradiction.
    eauto.
Qed.

(** *** The loops *)

Lemma for_each_weighted {S A : Type} (I : Z -> S -> Prop) (wt : A -> Z)
    (body : A -> M S unit) (B : Z) :
  (forall a, 0 <= wt a) ->
  forall (l : list A) (j : Z) (s : S),
    (forall a j s, In a l -> 0 <= j -> j + wt a <= B -> I j s ->
       exists s', body a s = (s', Ok tt) /\ I (j + wt a) s') ->
    0 <= j -> j + total wt l <= B -> I j s ->
    exists s', for_each l body s = (s', Ok tt) /\ I (j + total wt l) s'.
Proof.
  intros Hwt. induction l as [| a l IH]; intros j s Hbody Hj Hb Hs.
  - exists s. split; [reflexivity |]. simpl. now rewrite Z.add_0_r.
  - simpl in Hb.
    assert (Htl : 0 <= total wt l).
    { clear - Hwt. induction l as [| a' l IH]; simpl; [lia |]. specialize (Hwt a'). lia. }
    specialize (Hwt a).
    destruct (Hbody a j s (or_introl eq_refl) Hj ltac:(lia) Hs) as (s1 & Ha & Hs1).
    destruct (IH (j + wt a) s1) as (s2 & Hl & Hs2); try lia; try assumption.
    { intros a' j' s' Hin. apply Hbody. now right. }
    exists s2. simpl. rewrite (bind_Ok _ _ _ _ _ Ha). split; [exact Hl |].
    now rewrite Z.add_assoc.
Qed.

Lemma total_ones {A : Type} (l : list A) :
  total (fun _ => 1) l = Z.of_nat (List.length l).
Proof.
  induction l as [| a l IH]; [reflexivity |].
  unfold total in *. cbn [fold_right List.length]. rewrite IH. lia.
Qed.

Lemma fit_episode_total (ep : json F) (j w h : Z) bp :
  well_formed_episode ep = true ->
  0 <= j -> j + Z.of_nat (List.length (episode_steps ep)) <= 2 ^ 64 ->
  Fit (accumulators j) (w, h, true) bp ->
  exists bp', fit_episode ep bp = (bp', Ok tt) /\
              Fit (accumulators (j + Z.of_nat (List.length (episode_steps ep))))
                  (w, h, true) bp'.
Proof.
  intros Hwf Hj Hb Hfit.
  destruct ep as [| | | | | | e]; try discriminate.
  unfold well_formed_episode in Hwf. unfold episode_steps in *.
  unfold fit_episode. erewrite bind_Ok by reflexivity.
  destruct (dict_get_default e "steps" (JList [])) as [| | | | | l |]; try discriminate.
  erewrite bind_Ok by reflexivity.
  rewrite forallb_forall in Hwf. rewrite <- total_ones in *.
  apply (for_each_weighted (fun j => Fit (accumulators j) (w, h, true))
           (fun _ => 1) fit_step (2 ^ 64)); try assumption; [lia |].
  intros s j' bp0 Hin Hj' Hb' Hfit'. apply fit_step_total; auto.
Qed.

Lemma fit_entries_total (entries : list (dir_entry F)) (w h : Z) bp :
  forallb well_formed_entry entries = true ->
  total entry_steps entries <= 2 ^ 64 ->
  Fit (accumulators 0) (w, h, true) bp ->
  exists bp', for_each entries fit_entry bp = (bp', Ok tt) /\
              static bp' = (w, h, true).
Proof.
  intros Hwf Hb Hfit. rewrite forallb_forall in Hwf.
  destruct (for_each_weighted (fun j => Fit (accumulators j) (w, h, true))
              entry_steps fit_entry (2 ^ 64)) with (l := entries) (j := 0) (s := bp)
    as (bp' & Hrun & Hfit'); try assumption; try lia.
  - intros e. unfold entry_steps. destruct e as [| [[|] |]]; lia.
  - intros e j bp0 Hin Hj Hbj Hfit0. specialize (Hwf e Hin).
    destruct e as [| [[ex | ep] |]]; try discriminate.
    + exists bp0. split; [reflexivity |]. simpl. now rewrite Z.add_0_r.
    + simpl in *. apply fit_episode_total; assumption.
    + exists bp0. split; [reflexivity |]. simpl. now rewrite Z.add_0_r.
  - exists bp'. split; [exact Hrun | apply Hfit'].
Qed.

Lemma finalize_stats_total (w h : Z) st :
  f_int_fits w = true -> f_int_fits h = true ->
  exists st', finalize_stats w h st = (st', Ok tt).
Proof.
  intros Hw Hh.
  unfold finalize_stats, bind, gets, lift, modify, ret, int_times_fifth, int_to_float.
  rewrite Hw, Hh.
  destruct (count st <=? 1); destruct (std_x st); destruct (std_y st) eqn:Hy;
    simpl; rewrite ?Hy; eauto.
Qed.

Lemma finalize_loop_total (w h : Z) (ks : list string) :
  f_int_fits w = true -> f_int_fits h = true ->
  forall bp, exists bp',
    for_each ks (fun nm => on_stats nm (finalize_stats w h)) bp = (bp', Ok tt).
Proof.
  intros Hw Hh. induction ks as [| k ks IH]; intros bp; simpl;
    [exists bp; reflexivity |].
  destruct (finalize_stats_total w h (stats_of k bp) Hw Hh) as (st' & Hst).
  assert (Hk : on_stats k (finalize_stats w h) bp =
               (set_action_stats (dset k st' (action_stats bp)) bp, Ok tt)).
  { unfold on_stats, zoom. now rewrite Hst. }
  rewrite (bind_Ok _ _ _ _ _ Hk). apply IH.
Qed.

Lemma finalize_total (w h : Z) bp :
  f_int_fits w = true -> f_int_fits h = true ->
  static bp = (w, h, true) ->
  exists bp', finalize bp = (bp', Ok tt).
Proof.
  intros Hw Hh Hfr. unfold finalize. erewrite bind_Ok by reflexivity.
  injection Hfr as Hw' Hh' _. rewrite Hw', Hh'.
  now apply finalize_loop_total.
Qed.

(** C2, as amended.  In [fit_from_episodes]:
    - an entry of the episodes directory that is not a directory, or that
      has no [episode.json], is skipped and the pass goes on with the
      other entries;
    - a missing episodes directory raises FileNotFoundError and leaves the
      prior as it was;
    - an [episode.json] that cannot be read or parsed is not skipped: its
      error reaches the caller, after the entries before it have been
      aggregated and before any finalization;
    - on a new prior, the fit completes whenever the directory exists and
      every [episode.json] in it is a readable, well-formed episode record
      (with at most 2^64 steps in all, the screen size in the range of a
      double). *)
Theorem fit_from_episodes_skips_and_raises :
  (forall (entries : list (dir_entry F)) bp,
     fit_from_episodes (PathDir entries) bp
     = fit_from_episodes (PathDir (filter has_index entries)) bp) /\
  (forall bp,
     fit_from_episodes PathMissing bp = (bp, Raise (Exception "FileNotFoundError"))) /\
  (forall (before after : list (dir_entry F)) (e : exn) bp bp1,
     for_each before fit_entry bp = (bp1, Ok tt) ->
     fit_from_episodes (PathDir (before ++ EpisodeDir (Some (Unreadable e)) :: after)) bp
     = (bp1, Raise e)) /\
  (forall (entries : list (dir_entry F)) (w h : Z),
     forallb well_formed_entry entries = true ->
     total entry_steps entries <= 2 ^ 64 ->
     f_int_fits w = true -> f_int_fits h = true ->
     exists bp', fit_from_episodes (PathDir entries) (new_BehaviorPrior w h)
                 = (bp', Ok tt)).
Proof.
  split; [| split; [| split]].
  - intros entries bp. simpl. unfold bind. now rewrite for_each_skip.
  - reflexivity.
  - apply fit_unreadable.
  - intros entries w h Hwf Hb Hw Hh.
    destruct (fit_entries_total entries w h (new_BehaviorPrior w h) Hwf Hb)
      as (bp1 & Hrun & Hfr).
    { split; [intros ? ? H; discriminate H | reflexivity]. }
    destruct (finalize_total w h bp1 Hw Hh Hfr) as (bp' & Hfin).
    exists bp'. simpl. rewrite (bind_Ok _ _ _ _ _ Hrun). exact Hfin.
Qed.

End FitTotal.

(* ================================================================= *)
(** ** The step loop of the collector *)

Section CollectorTheory.

Context {F : Type} {PF : PyFloat F}.

Variable Env : Type.
Variable env_factory : nat -> result Env.
Variable env_call : EnvCall (F := F) -> Env -> Env * result EnvState.
Variable env_screen_size : Env -> Env * result (Z * Z).
Variable urlparse_netloc : string -> option string.
Variable seed_rng : Z -> Rng F.
Variable uuid4 : nat -> string.
Variable clock_ms : nat -> Z.

Notation Sess' := (Sess (F := F) Env).
Notation collect_step' := (collect_step Env env_call env_screen_size urlparse_netloc clock_ms).
Notation steps_loop' := (steps_loop Env env_call env_screen_size urlparse_netloc clock_ms).
Notation collect_episode' :=
  (collect_episode Env env_factory env_call env_screen_size urlparse_netloc uuid4 clock_ms).
Notation episodes_loop' :=
  (episodes_loop Env env_factory env_call env_screen_size urlparse_netloc uuid4 clock_ms).
Notation collect_episodes' :=
  (collect_episodes Env env_factory env_call env_screen_size urlparse_netloc seed_rng
     uuid4 clock_ms).
Notation _random_action' := (_random_action (F := F) Env env_screen_size).
Notation dispatch' := (dispatch Env env_call).
Notation call' := (call Env env_call).

(** The environment operations outside the [try] never fail, and what
    the dispatched operations raise is an [Exception]. *)
Definition reliable_env : Prop :=
  (forall k, exists e, env_factory k = Ok e) /\
  (forall e, exists e' wh, env_screen_size e = (e', Ok wh)) /\
  (forall e, exists e' s, env_call open_web_browser e = (e', Ok s)) /\
  (forall e, exists e' s, env_call current_state e = (e', Ok s)) /\
  (forall u e, exists e' s, env_call (navigate u) e = (e', Ok s)) /\
  (forall c e, match snd (env_call c e) with
               | Ok _ | Raise (Exception _) => True
               | _ => False
               end).

(** *** Every step that returns records one transition *)

Lemma collect_step_appends cfg ep_dir t (loc loc' : Locals) (s s' : Sess') :
  collect_step' cfg ep_dir t loc s = (s', Ok loc') ->
  exists step, acc_steps loc' = (acc_steps loc ++ [step])%list /\ step_index step = t.
Proof.
  unfold collect_step. intros H.
  apply bind_Ok_inv in H. destruct H as (r & s1 & _ & H).
  apply bind_Ok_inv in H. destruct H as (p & s2 & _ & H).
  apply bind_Ok_inv in H. destruct H as (ts & s3 & _ & H).
  apply bind_Ok_inv in H. destruct H as (rec & s4 & _ & H).
  unfold ret in H. inversion H; subst. simpl. eauto.
Qed.

Lemma steps_loop_indices cfg ep_dir (ts : list Z) :
  forall (loc loc' : Locals) (s s' : Sess'),
    steps_loop' cfg ep_dir ts loc s = (s', Ok loc') ->
    map step_index (acc_steps loc') = (map step_index (acc_steps loc) ++ ts)%list.
Proof.
  induction ts as [| t ts IH]; intros loc loc' s s' H; simpl in H.
  - inversion H; subst. now rewrite app_nil_r.
  - apply bind_Ok_inv in H. destruct H as (loc1 & s1 & Hstep & Hrest).
    destruct (collect_step_appends _ _ _ _ _ _ _ Hstep) as (step & Hacc & Hidx).
    rewrite (IH _ _ _ _ Hrest), Hacc, map_app. simpl. rewrite Hidx.
    now rewrite <- app_assoc.
Qed.

Lemma collect_episode_indices cfg k act (w w' : World) ep act' :
  collect_episode' cfg k act w = (w', Ok (ep, act')) ->
  map step_index (steps ep) = py_range 1 (max_steps_per_episode cfg + 1).
Proof.
  unfold collect_episode. intros H.
  apply bind_Ok_inv in H. destruct H as ([] & w1 & _ & H).
  apply bind_Ok_inv in H. destruct H as (loc & w2 & Hwith & H).
  apply bind_Ok_inv in H. destruct H as (p & w3 & _ & H).
  unfold ret in H. inversion H; subst. simpl. clear H.
  unfold with_env in Hwith. destruct (env_factory k) as [e | ex |]; try discriminate.
  destruct (log (ev_enter k) w1) as [w1' r1].
  match type of Hwith with
  | (let (s', r) := ?body ?s0 in _) = _ =>
      destruct (body s0) as [s' r] eqn:Hbody
  end.
  destruct (log (ev_exit k) (world s')) as [w2' r2].
  inversion Hwith; subst. clear Hwith.
  apply bind_Ok_inv in Hbody. destruct Hbody as (st & s1 & _ & Hbody).
  apply bind_Ok_inv in Hbody. destruct Hbody as (p1 & s2 & _ & Hbody).
  apply bind_Ok_inv in Hbody. destruct Hbody as (ts & s3 & _ & Hbody).
  apply steps_loop_indices in Hbody. exact Hbody.
Qed.

Lemma episodes_loop_steps cfg (ks : list nat) :
  forall act (acc eps : list EpisodeRecord) (w w' : World),
    episodes_loop' cfg ks act acc w = (w', Ok eps) ->
    exists new, eps = (acc ++ new)%list /\ List.length new = List.length ks /\
      forall ep, In ep new ->
        map step_index (steps ep) = py_range 1 (max_steps_per_episode cfg + 1).
Proof.
  induction ks as [| k ks IH]; intros act acc eps w w' H; simpl in H.
  - inversion H; subst. exists []. rewrite app_nil_r. simpl. tauto.
  - apply bind_Ok_inv in H. destruct H as ([ep act'] & w1 & Hep & Hrest).
    apply IH in Hrest. destruct Hrest as (new & -> & Hlen & Hall).
    exists (ep :: new). rewrite <- app_assoc. simpl. repeat split; auto.
    intros ep' [<- | Hin]; [| now apply Hall].
    eapply collect_episode_indices; eauto.
Qed.

(** *** The two ways a step gets its action *)

(** A dispatch that raises an [Exception] is followed by a pause of
    500 ms and a state query; the step is recorded with the sampled
    action. *)
Lemma collect_step_recovers cfg ep_dir t (loc : Locals) (s s1 s2 : Sess')
    (a : ActionRecord) (cls : string) (e3 : Env) (st : EnvState) :
  _domain_allowed urlparse_netloc (url (cur_obs loc)) (whitelist_domains cfg) = true ->
  _random_action' s = (s1, Ok a) ->
  dispatch' a s1 = (s2, Raise (Exception cls)) ->
  env_call current_state (computer s2) = (e3, Ok st) ->
  exists s' loc' step,
    collect_step' cfg ep_dir t loc s = (s', Ok loc') /\
    acc_steps loc' = (acc_steps loc ++ [step])%list /\
    step_index step = t /\ obs step = cur_obs loc /\ action step = a /\
    url (next_obs step) = state_url st /\
    cur_obs loc' = next_obs step /\ last_action loc' = Some a /\
    w_events (world s') =
      (w_events (world s2) ++
       [ev_sleep_ms 500;
        ev_write (ep_dir ++ "/step_" ++ fmt_06d t ++ "_next_obs.png")%string])%list.
Proof.
  intros Hallow Hrand Hdisp Hcur.
  unfold collect_step. rewrite Hallow. cbn [negb].
  match goal with
  | |- context [bind ?c ?k s] =>
      assert (H1 : c s = (mkSess (mkWorld (w_rng (world s2))
                                    (w_events (world s2) ++ [ev_sleep_ms 500])%list
                                    (w_ticks (world s2))) e3,
                          Ok (st, Some a)))
  end.
  { rewrite (bind_Ok _ _ _ _ _ Hrand).
    unfold bind at 1. unfold try_except. rewrite Hdisp.
    unfold bind, in_world, zoom, log, modify, call. simpl. rewrite Hcur. reflexivity. }
  rewrite (bind_Ok _ _ _ _ _ H1).
  do 3 eexists. split; [reflexivity |]. simpl.
  rewrite <- app_assoc. repeat split; reflexivity.
Qed.

(** A step whose observation is outside the whitelist navigates to the
    initial URL; it is recorded with the local [action] when one is bound,
    and with a [navigate] record only when none is. *)
Lemma collect_step_guard cfg ep_dir t (loc : Locals) (s : Sess')
    (e1 : Env) (st : EnvState) :
  _domain_allowed urlparse_netloc (url (cur_obs loc)) (whitelist_domains cfg) = false ->
  env_call (navigate (JStr (initial_url cfg))) (computer s) = (e1, Ok st) ->
  exists s' loc' step,
    collect_step' cfg ep_dir t loc s = (s', Ok loc') /\
    acc_steps loc' = (acc_steps loc ++ [step])%list /\
    step_index step = t /\
    last_action loc' = last_action loc /\
    action step = match last_action loc with
                  | Some a => a
                  | None => mkActionRecord "navigate" [("url", JStr (initial_url cfg))]
                  end.
Proof.
  intros Hguard Hnav.
  unfold collect_step. rewrite Hguard. cbn [negb].
  match goal with
  | |- context [bind ?c ?k s] =>
      assert (H1 : c s = (mkSess (world s) e1, Ok (st, last_action loc)))
  end.
  { unfold bind, call. rewrite Hnav. reflexivity. }
  rewrite (bind_Ok _ _ _ _ _ H1).
  destruct (last_action loc) as [a |] eqn:Hact;
    do 3 eexists; (split; [reflexivity |]); simpl; repeat split; reflexivity.
Qed.

(** *** Computations that always return, and computations whose only
    failure is an [Exception] *)

Definition returns {S A : Type} (P : A -> Prop) (c : M S A) : Prop :=
  forall s, exists s' a, c s = (s', Ok a) /\ P a.

Definition mild {S A : Type} (c : M S A) : Prop :=
  forall s, match snd (c s) with
            | Ok _ | Raise (Exception _) => True
            | _ => False
            end.

Lemma returns_ret {S A : Type} (P : A -> Prop) (a : A) :
  P a -> returns (S := S) P (ret a).
Proof. intros H s. exists s, a. auto. Qed.

Lemma returns_bind {S A B : Type} (P : A -> Prop) (Q : B -> Prop)
    (c : M S A) (k : A -> M S B) :
  returns P c -> (forall a, P a -> returns Q (k a)) -> returns Q (bind c k).
Proof.
  intros Hc Hk s. destruct (Hc s) as (s1 & a & Ha & HP).
  destruct (Hk a HP s1) as (s2 & b & Hb & HQ).
  exists s2, b. rewrite (bind_Ok _ _ _ _ _ Ha). auto.
Qed.

Lemma returns_weaken {S A : Type} (P Q : A -> Prop) (c : M S A) :
  returns P c -> (forall a, P a -> Q a) -> returns Q c.
Proof. intros Hc H s. destruct (Hc s) as (s1 & a & Ha & HP). eauto. Qed.

Lemma returns_zoom {S T A : Type} (P : A -> Prop) (get : S -> T)
    (set : T -> S -> S) (c : M T A) :
  returns P c -> returns P (zoom get set c).
Proof.
  intros Hc s. unfold zoom. destruct (Hc (get s)) as (t & a & Ha & HP).
  rewrite Ha. eauto.
Qed.

Lemma returns_random {A : Type} (P : A -> Prop) (c : M (Rng F) A) :
  returns P c -> returns P (random Env c).
Proof. intros Hc. unfold random, in_world. now do 2 apply returns_zoom. Qed.

Lemma returns_in_world {A : Type} (P : A -> Prop) (c : M (World (F := F)) A) :
  returns P c -> returns P (in_world Env c).
Proof. intros Hc. unfold in_world. now apply returns_zoom. Qed.

Lemma returns_choice {A : Type} (l : list A) :
  l <> [] -> returns (fun a => In a l) (choice (F := F) l).
Proof.
  intros Hne g. destruct l as [| a l]; [congruence |].
  unfold choice, bind, randbelow, ret.
  eexists. eexists. split; [reflexivity |].
  apply nth_In.
  set (n := Z.of_nat (List.length (a :: l))).
  assert (Hn : 0 < n) by (unfold n; simpl List.length; lia).
  pose proof (Z.mod_pos_bound (rand_int g (cursor g)) n Hn). lia.
Qed.

Lemma returns_randint (a b : Z) :
  a <= b -> returns (fun _ => True) (randint (F := F) a b).
Proof.
  intros Hab g. unfold randint.
  destruct (b <? a) eqn:E; [apply Z.ltb_lt in E; lia |].
  unfold bind, randbelow, ret. eauto.
Qed.

Lemma returns_log (e : event) : returns (fun _ => True) (log (F := F) e).
Proof. intros w. unfold log, modify. eauto. Qed.

Lemma mild_bind {S A B : Type} (c : M S A) (k : A -> M S B) :
  mild c -> (forall a, mild (k a)) -> mild (bind c k).
Proof.
  intros Hc Hk s. unfold bind. specialize (Hc s).
  destruct (c s) as [s1 [a | [cls | cls] |]]; simpl in *; auto. apply Hk.
Qed.

Lemma mild_item {S : Type} (a : ActionRecord (F := F)) (k : string) :
  mild (S := S) (lift (item a k)).
Proof. intros s. unfold lift, item. simpl. destruct (dget k (args a)); exact I. Qed.

Section Reliable.

Hypothesis Hrel : reliable_env.

Lemma mild_call (c : EnvCall) : mild (call' c).
Proof.
  intros s. unfold call. destruct Hrel as (_ & _ & _ & _ & _ & H).
  specialize (H c (computer s)). destruct (env_call c (computer s)). exact H.
Qed.

Lemma returns_call (c : EnvCall) :
  (forall e, exists e' s, env_call c e = (e', Ok s)) ->
  returns (fun _ => True) (call' c).
Proof.
  intros H s. unfold call. destruct (H (computer s)) as (e' & st & ->). eauto.
Qed.

Lemma returns_screen_size :
  returns (fun _ => True) (screen_size (F := F) Env env_screen_size).
Proof.
  intros s. unfold screen_size. destruct Hrel as (_ & H & _).
  destruct (H (computer s)) as (e' & wh & ->). eauto.
Qed.

Lemma mild_dispatch (a : ActionRecord (F := F)) : mild (dispatch' a).
Proof.
  unfold dispatch.
  repeat match goal with
         | |- mild (if ?c then _ else _) => destruct c
         end;
    repeat first [ apply mild_call
                 | apply mild_item
                 | apply mild_bind; [| intros ?] ].
Qed.

Lemma returns_random_action : returns (fun _ => True) _random_action'.
Proof.
  unfold _random_action.
  eapply returns_bind.
  { apply returns_random. apply returns_choice. discriminate. }
  intros nm Hnm.
  eapply returns_bind; [apply returns_screen_size |]. intros wh _. cbv zeta.
  assert (Hr : forall a b, a <= b ->
            returns (fun _ => True) (random Env (randint (F := F) a b))).
  { intros a b Hab. apply returns_random, returns_randint, Hab. }
  assert (Hc : forall (A : Type) (l : list A), l <> [] ->
            returns (fun _ => True) (random Env (choice (F := F) l))).
  { intros A l Hl. apply returns_random.
    eapply returns_weaken; [apply returns_choice, Hl | auto]. }
  simpl in Hnm.
  repeat (destruct Hnm as [<- | Hnm]); try contradiction; cbn -[Z.max randint choice];
    repeat first
      [ apply returns_ret; exact I
      | eapply returns_bind;
        [ first [ apply Hr; lia | apply Hc; discriminate ] | intros ? _ ] ].
  all: intros s; unfold lift; eauto.
Qed.

Lemma returns_try_except {S A : Type} (body handler : M S A) :
  mild body -> returns (fun _ => True) handler ->
  returns (fun _ => True) (try_except body handler).
Proof.
  intros Hb Hh s. unfold try_except. specialize (Hb s).
  destruct (body s) as [s1 [a | [c | c] |]]; simpl in Hb; try contradiction; eauto.
Qed.

Lemma returns_collect_step cfg ep_dir t (loc : Locals) :
  returns (fun _ => True) (collect_step' cfg ep_dir t loc).
Proof.
  destruct Hrel as (_ & _ & _ & Hcur & Hnav & _).
  unfold collect_step.
  eapply returns_bind with (P := fun _ => True).
  { destruct (negb (_domain_allowed urlparse_netloc (url (cur_obs loc))
                      (whitelist_domains cfg))).
    - eapply returns_bind; [apply returns_call, Hnav |].
      intros ? _. now apply returns_ret.
    - eapply returns_bind; [apply returns_random_action |]. intros a _.
      eapply returns_bind; [| intros ? _; now apply returns_ret].
      apply returns_try_except; [apply mild_dispatch |].
      eapply returns_bind; [apply returns_in_world, returns_log |].
      intros ? _. apply returns_call, Hcur. }
  intros r _. cbv zeta.
  eapply returns_bind with (P := fun _ => True).
  { apply returns_in_world. unfold _save_next_screenshot.
    eapply returns_bind; [apply returns_log |]. intros ? _. now apply returns_ret. }
  intros p _.
  eapply returns_bind with (P := fun _ => True).
  { apply returns_in_world. intros w. unfold _ts_ms. eauto. }
  intros ts _.
  eapply returns_bind with (P := fun _ => True).
  { destruct (snd r); [now apply returns_ret |]. intros s.
    exists s. eexists. split; [reflexivity | exact I]. }
  intros rec _. now apply returns_ret.
Qed.

Lemma returns_steps_loop cfg ep_dir (ts : list Z) :
  forall loc : Locals, returns (fun _ => True) (steps_loop' cfg ep_dir ts loc).
Proof.
  induction ts as [| t ts IH]; intros loc; simpl.
  - now apply returns_ret.
  - eapply returns_bind; [apply returns_collect_step |]. intros loc' _. apply IH.
Qed.

Lemma returns_collect_episode cfg k act :
  returns (fun _ => True) (collect_episode' cfg k act).
Proof.
  destruct Hrel as (Hfac & _ & Hopen & _).
  unfold collect_episode.
  eapply returns_bind; [apply returns_log |]. intros ? _.
  eapply returns_bind with (P := fun _ => True).
  { intros w. unfold with_env. destruct (Hfac k) as (e & ->).
    destruct (log (ev_enter k) w) as [w1 r1].
    match goal with
    | |- context [let (s', r) := ?body ?s0 in _] =>
        assert (Hb : returns (fun _ => True) body)
    end.
    { eapply returns_bind; [apply returns_call, Hopen |]. intros st _.
      eapply returns_bind with (P := fun _ => True).
      { apply returns_in_world. unfold _save_screenshot.
        eapply returns_bind; [apply returns_log |]. intros ? _. now apply returns_ret. }
      intros p _.
      eapply returns_bind with (P := fun _ => True).
      { apply returns_in_world. intros w0. unfold _ts_ms. eauto. }
      intros ts _. apply returns_steps_loop. }
    destruct (Hb (mkSess w1 e)) as (s' & loc & Hrun & _). rewrite Hrun.
    destruct (log (ev_exit k) (world s')) as [w2 r2]. eauto. }
  intros loc _.
  eapply returns_bind with (P := fun _ => True).
  { unfold _save_json. eapply returns_bind; [apply returns_log |].
    intros ? _. now apply returns_ret. }
  intros p _. now apply returns_ret.
Qed.

Lemma returns_episodes_loop cfg (ks : list nat) :
  forall act acc, returns (fun _ => True) (episodes_loop' cfg ks act acc).
Proof.
  induction ks as [| k ks IH]; intros act acc; simpl.
  - now apply returns_ret.
  - eapply returns_bind; [apply returns_collect_episode |]. intros r _. apply IH.
Qed.

Lemma returns_collect_episodes cfg :
  returns (fun _ => True) (collect_episodes' cfg).
Proof.
  unfold collect_episodes.
  eapply returns_bind with (P := fun _ => True).
  { intros w. unfold modify. eauto. }
  intros ? _. eapply returns_bind; [apply returns_log |].
  intros ? _. apply returns_episodes_loop.
Qed.

End Reliable.

Lemma py_range_length (a b : Z) : List.length (py_range a b) = Z.to_nat (b - a).
Proof. unfold py_range. now rewrite length_map, length_seq. Qed.

(** C5, as amended.  For a run with [max_steps_per_episode = N]:
    - whenever [collect_episodes] returns, it returns [cfg.episodes]
      episodes and each holds exactly N StepRecords (none when N <= 0)
      with [step_index] 1, 2, ..., N in order;
    - when the dispatch of a sampled action raises an [Exception] and the
      state query that replaces it succeeds, the step is recorded with the
      sampled action after a pause of 500 ms, and the episode goes on;
    - [collect_episodes] does return when the environment operations
      outside the [try] ([env_factory], [screen_size], [open_web_browser],
      [current_state], [navigate]) do not raise, whichever dispatched
      operations raise an [Exception]. *)
Theorem collect_episodes_step_count cfg :
  (forall (w w' : World) eps,
     collect_episodes' cfg w = (w', Ok eps) ->
     List.length eps = Z.to_nat (episodes cfg) /\
     forall ep, In ep eps ->
       map step_index (steps ep) = py_range 1 (max_steps_per_episode cfg + 1) /\
       List.length (steps ep) = Z.to_nat (max_steps_per_episode cfg)) /\
  (forall ep_dir t (loc : Locals) (s s1 s2 : Sess') (a : ActionRecord)
          (cls : string) (e3 : Env) (st : EnvState),
     _domain_allowed urlparse_netloc (url (cur_obs loc)) (whitelist_domains cfg) = true ->
     _random_action' s = (s1, Ok a) ->
     dispatch' a s1 = (s2, Raise (Exception cls)) ->
     env_call current_state (computer s2) = (e3, Ok st) ->
     exists s' loc' step,
       collect_step' cfg ep_dir t loc s = (s', Ok loc') /\
       acc_steps loc' = (acc_steps loc ++ [step])%list /\
       step_index step = t /\ obs step = cur_obs loc /\ action step = a /\
       url (next_obs step) = state_url st /\
       cur_obs loc' = next_obs step /\ last_action loc' = Some a /\
       w_events (world s') =
         (w_events (world s2) ++
          [ev_sleep_ms 500;
           ev_write (ep_dir ++ "/step_" ++ fmt_06d t ++ "_next_obs.png")%string])%list) /\
  (reliable_env ->
   forall w : World, exists w' eps, collect_episodes' cfg w = (w', Ok eps)).
Proof.
  split; [| split].
  - intros w w' eps H. unfold collect_episodes in H.
    apply bind_Ok_inv in H. destruct H as ([] & w1 & _ & H).
    apply bind_Ok_inv in H. destruct H as ([] & w2 & _ & H).
    apply episodes_loop_steps in H. destruct H as (new & -> & Hlen & Hall).
    simpl. rewrite Hlen, length_seq. split; [reflexivity |].
    intros ep Hin. specialize (Hall ep Hin). split; [exact Hall |].
    rewrite <- (length_map step_index), Hall, py_range_length. f_equal. lia.
  - intros. eapply collect_step_recovers; eauto.
  - intros Hrel w. destruct (returns_collect_episodes Hrel cfg w) as (w' & eps & H & _).
    eauto.
Qed.

End CollectorTheory.

(* ================================================================= *)
(** ** The Welford update in exact arithmetic *)

Section ExactWelford.

Local Open Scope R_scope.

Definition sum_R (l : list R) : R := fold_right Rplus 0 l.
Definition sumsq_R (l : list R) : R := fold_right (fun a acc => a * a + acc) 0 l.

(** The state of an entry after [k >= 1] samples with sums [s1] and sums
    of squares [s2]. *)
Definition welford_state (s1x s2x s1y s2y : R) (k : nat) (st : ActionStats R) : Prop :=
  let K := IZR (Z.of_nat k) in
  _n st = Some (Z.of_nat k) /\
  mean_x st = Some (s1x / K) /\ mean_y st = Some (s1y / K) /\
  _m2x st = Some (s2x - s1x * s1x / K) /\ _m2y st = Some (s2y - s1y * s1y / K) /\
  ((2 <= k)%nat ->
   std_x st = Some (sqrt (max_one ((s2x - s1x * s1x / K) / IZR (Z.of_nat k - 1)))) /\
   std_y st = Some (sqrt (max_one ((s2y - s1y * s1y / K) / IZR (Z.of_nat k - 1))))).

Lemma div_int_exact (a : R) (n : Z) :
  n <> 0%Z -> div_int (F := R) a n = Ok (a / IZR n).
Proof.
  intros Hn. unfold div_int. destruct (n =? 0)%Z eqn:E.
  - apply Z.eqb_eq in E. contradiction.
  - reflexivity.
Qed.

Lemma welford_update_exact (x y s1x s2x s1y s2y : R) (k : nat) (st : ActionStats R) :
  (1 <= k)%nat ->
  welford_state s1x s2x s1y s2y k st ->
  exists st',
    welford_update (JFloat x) (JFloat y) st = (st', Ok tt) /\
    welford_state (s1x + x) (s2x + x * x) (s1y + y) (s2y + y * y) (S k) st'.
Proof.
  intros Hk (Hn & Hmx & Hmy & Hm2x & Hm2y & _).
  destruct st as [c mx my sx sy dc mg m2x m2y n]. simpl in Hn, Hmx, Hmy, Hm2x, Hm2y.
  subst n mx my m2x m2y.
  set (K := IZR (Z.of_nat k)) in *.
  assert (HK : 1 <= K).
  { unfold K. apply IZR_le. lia. }
  unfold welford_update. erewrite bind_Ok by reflexivity. cbn [mean_x].
  assert (Hn1 : (Z.of_nat k + 1 <> 0)%Z) by lia.
  assert (Hmax : Z.max (Z.of_nat k + 1 - 1) 1 = Z.of_nat k) by lia.
  repeat (erewrite bind_Ok by
            first [ reflexivity
                  | unfold lift;
                    rewrite ?Hmax, ?math_sqrt_max_one, ?div_int_exact by lia;
                    reflexivity ]).
  eexists. split; [reflexivity |].
  unfold welford_state. cbn [_n mean_x mean_y _m2x _m2y std_x std_y
    set_n set_mean_x set_mean_y set_m2x set_m2y set_std_x set_std_y count
    direction_counts magnitudes].
  cbn [f_add f_sub f_mul f_div f_sqrt exact].
  rewrite Nat2Z.inj_succ, succ_IZR. fold K.
  replace (Z.succ (Z.of_nat k) - 1)%Z with (Z.of_nat k) by lia.
  rewrite plus_IZR. fold K. change (IZR 1) with 1.
  assert (E1 : forall s v, s / K + (v - s / K) / (K + 1) = (s + v) / (K + 1)).
  { intros s v. field. lra. }
  assert (E2 : forall s2 s v,
            s2 - s * s / K + (v - s / K) * (v - (s + v) / (K + 1))
            = s2 + v * v - (s + v) * (s + v) / (K + 1)).
  { intros s2 s v. field. lra. }
  rewrite !E1, !E2.
  repeat split; reflexivity.
Qed.

Definition feed (samples : list (R * R)) : M (ActionStats R) unit :=
  for_each samples (fun p => welford_update (JFloat (fst p)) (JFloat (snd p))).

Lemma welford_state_ext (s1x s2x s1y s2y s1x' s2x' s1y' s2y' : R) (k k' : nat)
    (st : ActionStats R) :
  s1x = s1x' -> s2x = s2x' -> s1y = s1y' -> s2y = s2y' -> k = k' ->
  welford_state s1x s2x s1y s2y k st -> welford_state s1x' s2x' s1y' s2y' k' st.
Proof. intros -> -> -> -> ->. auto. Qed.

Lemma feed_exact (samples : list (R * R)) :
  forall (s1x s2x s1y s2y : R) (k : nat) (st : ActionStats R),
    (1 <= k)%nat ->
    welford_state s1x s2x s1y s2y k st ->
    exists st',
      feed samples st = (st', Ok tt) /\
      welford_state (s1x + sum_R (map fst samples)) (s2x + sumsq_R (map fst samples))
                    (s1y + sum_R (map snd samples)) (s2y + sumsq_R (map snd samples))
                    (k + List.length samples) st'.
Proof.
  induction samples as [| [x y] samples IH]; intros s1x s2x s1y s2y k st Hk Hst.
  - exists st. split; [reflexivity |].
    eapply welford_state_ext; [.. | exact Hst]; simpl; try ring; lia.
  - destruct (welford_update_exact x y _ _ _ _ k st Hk Hst) as (st1 & Hrun & Hst1).
    destruct (IH _ _ _ _ (S k) st1 ltac:(lia) Hst1) as (st' & Hfeed & Hst').
    exists st'. split.
    + unfold feed in *. simpl. rewrite (bind_Ok _ _ _ _ _ Hrun). exact Hfeed.
    + eapply welford_state_ext; [.. | exact Hst']; simpl; try ring; lia.
Qed.

Lemma first_sample_exact (x y : R) :
  exists st,
    welford_update (JFloat x) (JFloat y) new_ActionStats = (st, Ok tt) /\
    welford_state x (x * x) y (y * y) 1 st.
Proof.
  eexists. split; [reflexivity |].
  unfold welford_state. simpl.
  repeat split; first [reflexivity | f_equal; field | exfalso; lia].
Qed.

Lemma sum_sqdev (m : R) (l : list R) :
  sum_R (map (fun a => (a - m) * (a - m)) l)
  = sumsq_R l - 2 * m * sum_R l + IZR (Z.of_nat (List.length l)) * m * m.
Proof.
  induction l as [| a l IH].
  - simpl. ring.
  - cbn [map sum_R sumsq_R fold_right List.length]. fold (sum_R (map (fun a => (a - m) * (a - m)) l)).
    fold (sum_R l). fold (sumsq_R l). rewrite IH, Nat2Z.inj_succ, succ_IZR. ring.
Qed.

Lemma direct_mean_exact (l : list R) :
  direct_mean l = sum_R l / IZR (Z.of_nat (List.length l)).
Proof. reflexivity. Qed.

Lemma direct_variance_exact (l : list R) :
  l <> [] ->
  direct_variance l
  = (sumsq_R l - sum_R l * sum_R l / IZR (Z.of_nat (List.length l)))
    / IZR (Z.of_nat (List.length l) - 1).
Proof.
  intros Hl. unfold direct_variance. cbv zeta. rewrite direct_mean_exact.
  cbn [f_div f_sub f_mul f_of_int exact].
  change (f_sum (map (fun a => (a - ?m) * (a - ?m)) l)) with
    (sum_R (map (fun a => (a - m) * (a - m)) l)).
  f_equal.
  change (f_sum ?x) with (sum_R x).
  rewrite sum_sqdev.
  assert (HK : 1 <= IZR (Z.of_nat (List.length l))).
  { apply IZR_le. destruct l; [congruence | simpl List.length; lia]. }
  field. lra.
Qed.

(** X19.  In arithmetic without rounding, feeding two or more samples to the
    Welford update of [fit_from_episodes], from a new entry, gives the
    whole-sample mean on each axis, and for the standard deviation the
    square root of the unbiased whole-sample variance floored at 1.0. *)
Theorem welford_matches_direct (samples : list (R * R)) :
  (2 <= List.length samples)%nat ->
  exists st,
    feed samples new_ActionStats = (st, Ok tt) /\
    _n st = Some (Z.of_nat (List.length samples)) /\
    mean_x st = Some (direct_mean (map fst samples)) /\
    mean_y st = Some (direct_mean (map snd samples)) /\
    std_x st = Some (direct_std (map fst samples)) /\
    std_y st = Some (direct_std (map snd samples)).
Proof.
  intros Hlen. destruct samples as [| [x y] rest]; [simpl in Hlen; lia |].
  destruct (first_sample_exact x y) as (st1 & Hfirst & Hst1).
  destruct (feed_exact rest _ _ _ _ 1%nat st1 ltac:(lia) Hst1) as (st & Hfeed & Hst).
  exists st. split.
  { unfold feed in *. simpl. rewrite (bind_Ok _ _ _ _ _ Hfirst). exact Hfeed. }
  destruct Hst as (Hn & Hmx & Hmy & _ & _ & Hstd).
  simpl List.length in *. change (1 + List.length rest)%nat with (S (List.length rest)) in *.
  destruct (Hstd Hlen) as [Hsx Hsy].
  split; [exact Hn |].
  unfold direct_std.
  rewrite !direct_variance_exact by discriminate.
  rewrite !direct_mean_exact, !length_map. simpl List.length.
  repeat split; assumption.
Qed.

End ExactWelford.

(* ================================================================= *)
(** ** Invariants of the fitting pass *)

Section FitWalk.

Context {F : Type} {PF : PyFloat F}.

Implicit Types (bp : BehaviorPrior F) (st : ActionStats F).

Lemma bind_ext {S A B : Type} (c c' : M S A) (k k' : A -> M S B) s :
  c s = c' s -> (forall a s1, k a s1 = k' a s1) -> bind c k s = bind c' k' s.
Proof.
  intros Hc Hk. unfold bind. rewrite Hc.
  destruct (c' s) as [s1 [a | e |]]; auto.
Qed.

(** The three statements that open the body of a named step. *)
Definition fit_head (nm : string) : M (BehaviorPrior F) unit :=
  modify (fun bp => set_action_counts (counter_incr nm (action_counts bp)) bp) ;;;
  lookup_stats nm ;;;
  on_stats nm (modify (fun st => set_count (count st + 1) st)).

Lemma bind_assoc {S A B C : Type} (c : M S A) (k : A -> M S B) (k' : B -> M S C) s :
  bind (bind c k) k' s = bind c (fun a => bind (k a) k') s.
Proof.
  unfold bind. destruct (c s) as [s1 [a | e |]]; reflexivity.
Qed.

Lemma fit_step_named (s act : pydict (json F)) nm bp :
  dict_get_default s "action" (JDict []) = JDict act ->
  dict_get act "name" = JStr nm ->
  nm <> "" ->
  fit_step (JDict s) bp
  = (fit_head nm ;;;
     fit_coordinates nm (dict_get_default act "args" (JDict [])) ;;;
     fit_scroll nm (dict_get_default act "args" (JDict []))) bp.
Proof.
  intros Hact Hname Hnm. unfold fit_step, fit_head.
  erewrite bind_Ok by reflexivity. rewrite Hact.
  erewrite bind_Ok by reflexivity. cbv zeta. rewrite Hname.
  assert (Ht : truthy (JStr nm : json F) = true).
  { simpl. destruct (String.eqb nm "") eqn:E; [| reflexivity].
    apply String.eqb_eq in E. contradiction. }
  rewrite Ht. cbn [negb].
  rewrite bind_assoc. apply bind_ext; [reflexivity |]. intros ? bp1.
  rewrite bind_assoc. reflexivity.
Qed.

(** The walk of one step, for an invariant [I] of the prior that the head
    of a named step turns into [I1 nm], that every later write to the entry
    [nm] keeps, and that gives [I] back. *)
Section Walk.

Variable I : BehaviorPrior F -> Prop.
Variable I1 I2 : string -> BehaviorPrior F -> Prop.

Hypothesis I_head : forall nm, hoare I (fit_head nm) (fun _ => I1 nm) (fun _ => True).
Hypothesis I1_welford : forall nm x y,
  hoare (I1 nm) (on_stats nm (welford_update x y)) (fun _ => I2 nm) (fun _ => True).
Hypothesis I1_I2 : forall nm bp, I1 nm bp -> I2 nm bp.
Hypothesis I2_dir0 : forall nm,
  hoare (I2 nm)
    (on_stats nm (modify (fun st => match direction_counts st with
                                    | None => set_direction_counts (Some []) st
                                    | Some _ => st
                                    end)))
    (fun _ => I2 nm) (fun _ => True).
Hypothesis I2_dir : forall nm dir,
  hoare (I2 nm)
    (on_stats nm
       (modify (fun st =>
          set_direction_counts
            (Some (counter_incr dir
                     (match direction_counts st with Some c => c | None => [] end)))
            st)))
    (fun _ => I2 nm) (fun _ => True).
Hypothesis I2_mag0 : forall nm,
  hoare (I2 nm)
    (on_stats nm (modify (fun st => match magnitudes st with
                                    | None => set_magnitudes (Some []) st
                                    | Some _ => st
                                    end)))
    (fun _ => I2 nm) (fun _ => True).
Hypothesis I2_mag : forall nm mag,
  hoare (I2 nm)
    (on_stats nm
       (modify (fun st =>
          set_magnitudes
            (Some ((match magnitudes st with Some l => l | None => [] end)
                     ++ [mag])%list)
            st)))
    (fun _ => I2 nm) (fun _ => True).
Hypothesis I2_I : forall nm bp, I2 nm bp -> I bp.

Lemma fit_step_walk (step : json F) :
  hoare I (fit_step step) (fun _ => I) (fun _ => True).
Proof.
  unfold fit_step.
  eapply hoare_bind with (Q := fun _ => I); [apply keep_lift |]. intros s.
  eapply hoare_bind with (Q := fun _ => I); [apply keep_lift |]. intros act.
  cbv zeta.
  destruct (negb (truthy (dict_get act "name"))); [apply keep_ret |].
  destruct (dict_get act "name") as [| b0 | n0 | a0 | nm | l0 | d0];
    try apply keep_lift.
  intros bp Hbp.
  pose proof (I_head nm bp Hbp) as Hh. unfold fit_head in Hh.
  match goal with
  | |- let (_, _) := ?c bp in _ =>
      match type of Hh with
      | let (_, _) := ?c' bp in _ =>
          assert (Hsplit : c bp = bind c' (fun _ =>
                     fit_coordinates nm (dict_get_default act "args" (JDict [])) ;;;
                     fit_scroll nm (dict_get_default act "args" (JDict []))) bp)
      end
  end.
  { rewrite bind_assoc. apply bind_ext; [reflexivity |]. intros ? bp1.
    cbv beta. rewrite bind_assoc. reflexivity. }
  rewrite Hsplit. clear Hsplit. unfold bind at 1.
  match type of Hh with
  | let (_, _) := ?c' bp in _ => destruct (c' bp) as [bp1 [[] | e |]]; auto
  end.
  revert bp1 Hh. change (hoare (I1 nm)
    (fit_coordinates nm (dict_get_default act "args" (JDict [])) ;;;
     fit_scroll nm (dict_get_default act "args" (JDict [])))
    (fun _ => I) (fun _ => True)).
  eapply hoare_bind with (Q := fun _ => I2 nm).
  { unfold fit_coordinates.
    destruct (mem_str nm CoordActions);
      [| apply hoare_ret; intros ?; apply I1_I2].
    eapply hoare_bind with (Q := fun _ => I1 nm); [apply keep_lift |]. intros ad.
    cbv zeta. match goal with |- context [if ?c then _ else _] => destruct c end;
      [apply I1_welford | apply hoare_ret; intros ?; apply I1_I2]. }
  intros ?. eapply hoare_weaken with (P' := I2 nm) (Q' := fun _ => I2 nm)
    (E' := fun _ => True); [| auto | intros ? ?; apply I2_I | auto].
  unfold fit_scroll.
  destruct (mem_str nm ScrollActions); [| apply keep_ret].
  eapply hoare_bind with (Q := fun _ => I2 nm); [apply I2_dir0 |].
  intros ?. eapply hoare_bind with (Q := fun _ => I2 nm); [apply keep_lift |]. intros ad.
  eapply hoare_bind with (Q := fun _ => I2 nm).
  { destruct (dict_get ad "direction"); try apply keep_ret. apply I2_dir. }
  intros ?. destruct (String.eqb nm "scroll_at"); [| apply keep_ret].
  eapply hoare_bind with (Q := fun _ => I2 nm); [apply I2_mag0 |].
  intros ?. destruct (as_int (dict_get ad "magnitude")); [| apply keep_ret].
  apply I2_mag.
Qed.

Lemma fit_entries_walk (entries : list (dir_entry F)) :
  hoare I (for_each entries fit_entry) (fun _ => I) (fun _ => True).
Proof.
  apply hoare_for_each. intros e _. unfold fit_entry.
  destruct e as [| [[ex | ep] |]];
    [apply keep_ret | apply keep_lift | | apply keep_ret].
  unfold fit_episode.
  eapply hoare_bind with (Q := fun _ => I); [apply keep_lift |]. intros e.
  eapply hoare_bind with (Q := fun _ => I); [apply keep_lift |]. intros steps.
  apply hoare_for_each. intros s _. apply fit_step_walk.
Qed.

End Walk.


(** *** [action_counts] and the [count] fields agree *)

Definition counts_of_stats (d : pydict (ActionStats F)) : pydict Z :=
  map (fun kv => (fst kv, count (snd kv))) d.

Lemma map_values_dset {V W : Type} (f : V -> W) k v (d : pydict V) :
  map (fun kv => (fst kv, f (snd kv))) (dset k v d)
  = dset k (f v) (map (fun kv => (fst kv, f (snd kv))) d).
Proof.
  induction d as [| [k' v'] d IH]; simpl; [reflexivity |].
  destruct (String.eqb k k'); simpl; [reflexivity | now rewrite IH].
Qed.

Lemma dset_same {V : Type} k (v : V) d : dget k d = Some v -> dset k v d = d.
Proof.
  induction d as [| [k' v'] d IH]; simpl; [discriminate |].
  destruct (String.eqb k k') eqn:E.
  - intros H. inversion H; subst. reflexivity.
  - intros H. now rewrite IH.
Qed.

Lemma dset_dset {V : Type} k (v v' : V) d : dset k v (dset k v' d) = dset k v d.
Proof.
  induction d as [| [k' v0] d IH]; simpl.
  - now rewrite String.eqb_refl.
  - destruct (String.eqb k k') eqn:E; simpl; rewrite E; [reflexivity | now rewrite IH].
Qed.

Definition counts_agree bp : Prop :=
  action_counts bp = counts_of_stats (action_stats bp) /\ stats_default bp = true.

Definition counts_agree_at (nm : string) bp : Prop :=
  counts_agree bp /\ dget nm (action_stats bp) <> None.

Lemma counts_agree_head nm :
  hoare counts_agree (fit_head nm) (fun _ => counts_agree_at nm) (fun _ => True).
Proof.
  intros bp [Hc Hd]. unfold fit_head.
  erewrite bind_Ok by reflexivity.
  unfold lookup_stats, bind, on_stats, zoom, modify, stats_of.
  cbn [action_stats set_action_counts stats_default].
  rewrite Hd.
  destruct (dget nm (action_stats bp)) as [st |] eqn:E.
  - cbn [action_stats set_action_counts set_action_stats]. rewrite E.
    split; [split |].
    + cbn [action_counts action_stats set_action_counts set_action_stats].
      unfold counter_incr, counts_of_stats. rewrite map_values_dset, Hc.
      unfold counts_of_stats. rewrite dget_map_values, E. reflexivity.
    + exact Hd.
    + cbn [action_stats set_action_stats]. rewrite dget_dset_eq. discriminate.
  - cbn [action_stats set_action_counts set_action_stats]. rewrite dget_dset_eq.
    split; [split |].
    + cbn [action_counts action_stats set_action_counts set_action_stats
           stats_default].
      unfold counter_incr, counts_of_stats.
      rewrite dset_dset, map_values_dset, Hc.
      unfold counts_of_stats. rewrite dget_map_values, E. reflexivity.
    + exact Hd.
    + cbn [action_stats set_action_stats]. rewrite dget_dset_eq. discriminate.
Qed.

Lemma counts_agree_on_stats {A : Type} nm (m : M (ActionStats F) A) :
  (forall c, hoare (fun st => count st = c) m (fun _ st => count st = c)
                   (fun _ => True)) ->
  hoare (counts_agree_at nm) (on_stats nm m) (fun _ => counts_agree_at nm)
        (fun _ => True).
Proof.
  intros Hm bp [[Hc Hd] Hin]. unfold on_stats, zoom, stats_of.
  destruct (dget nm (action_stats bp)) as [st |] eqn:E; [| contradiction].
  specialize (Hm (count st) st eq_refl).
  destruct (m st) as [st' [a | e |]]; auto.
  split; [split |].
  - cbn [action_counts action_stats set_action_stats].
    unfold counts_of_stats. rewrite map_values_dset, Hm.
    fold (counts_of_stats (action_stats bp)). rewrite Hc. symmetry.
    apply dset_same. unfold counts_of_stats. rewrite dget_map_values, E. reflexivity.
  - exact Hd.
  - cbn [action_stats set_action_stats]. rewrite dget_dset_eq. discriminate.
Qed.

Lemma welford_update_count (x y : json F) c :
  hoare (fun st => count st = c) (welford_update x y) (fun _ st => count st = c)
        (fun _ => True).
Proof.
  set (K := fun st : ActionStats F => count st = c).
  unfold welford_update.
  eapply hoare_bind with (Q := fun _ => K).
  { intros st Hst. exact Hst. }
  intros st0. destruct (mean_x st0) as [mx |].
  - repeat first
      [ apply keep_modify; intros st Hst; exact Hst
      | apply keep_lift
      | apply keep_attr
      | eapply hoare_bind with (Q := fun _ => K); [| intros ?] ].
    intros st Hst. destruct (mean_y st); auto.
  - repeat first
      [ apply keep_modify; intros st Hst; exact Hst
      | apply keep_lift
      | eapply hoare_bind with (Q := fun _ => K); [| intros ?] ].
Qed.

Lemma modify_count (f : ActionStats F -> ActionStats F) c :
  (forall st, count (f st) = count st) ->
  hoare (fun st => count st = c) (modify f) (fun _ st => count st = c) (fun _ => True).
Proof. intros Hf. apply hoare_modify. intros st Hst. now rewrite Hf. Qed.

Lemma fit_entries_counts_agree (entries : list (dir_entry F)) :
  hoare counts_agree (for_each entries fit_entry) (fun _ => counts_agree)
        (fun _ => True).
Proof.
  apply (fit_entries_walk counts_agree counts_agree_at counts_agree_at).
  - apply counts_agree_head.
  - intros nm x y. apply counts_agree_on_stats. intros c. apply welford_update_count.
  - auto.
  - intros nm. apply counts_agree_on_stats. intros c. apply modify_count.
    intros st. destruct (direction_counts st); reflexivity.
  - intros nm dir. apply counts_agree_on_stats. intros c. apply modify_count.
    reflexivity.
  - intros nm. apply counts_agree_on_stats. intros c. apply modify_count.
    intros st. destruct (magnitudes st); reflexivity.
  - intros nm mag. apply counts_agree_on_stats. intros c. apply modify_count.
    reflexivity.
  - intros nm bp [H _]. exact H.
Qed.

Lemma finalize_stats_count w h c :
  hoare (fun st => count st = c) (finalize_stats w h) (fun _ st => count st = c)
        (fun _ => True).
Proof.
  intros st Hst. destruct (finalize_stats w h st) as [st' [[] | e |]] eqn:E; auto.
  destruct (finalize_stats_cases _ _ _ _ E) as (_ & Hc & _). congruence.
Qed.

Lemma finalize_counts_agree :
  hoare counts_agree finalize (fun _ => counts_agree) (fun _ => True).
Proof.
  unfold finalize.
  eapply hoare_bind with (Q := fun bp0 bp => counts_agree bp /\ bp = bp0).
  { intros bp H. simpl. auto. }
  intros bp0.
  set (J := fun bp => counts_agree bp /\
                      dkeys (action_stats bp) = dkeys (action_stats bp0)).
  eapply hoare_weaken with (P' := J) (Q' := fun _ => J) (E' := fun _ => True);
    [| intros bp [H ->]; split; auto | intros ? bp [H _]; exact H | auto].
  apply hoare_for_each. intros nm Hin bp [Hc Hk].
  assert (Hget : dget nm (action_stats bp) <> None).
  { rewrite <- Hk in Hin. unfold dkeys in Hin. clear - Hin.
    induction (action_stats bp) as [| [k v] d IH]; simpl in *; [contradiction |].
    destruct (String.eqb nm k) eqn:E; [discriminate |].
    destruct Hin as [-> | Hin]; [rewrite String.eqb_refl in E; discriminate | auto]. }
  pose proof (counts_agree_on_stats nm (finalize_stats (screen_w bp0) (screen_h bp0))
                (finalize_stats_count _ _) bp (conj Hc Hget)) as H.
  destruct (on_stats nm (finalize_stats (screen_w bp0) (screen_h bp0)) bp)
    as [bp1 [[] | e |]] eqn:E; auto.
  destruct H as [H1 H2]. split; [exact H1 |].
  rewrite <- Hk. unfold on_stats, zoom in E.
  destruct (finalize_stats (screen_w bp0) (screen_h bp0) (stats_of nm bp)) as [t' r].
  inversion E; subst. cbn [action_stats set_action_stats].
  apply dkeys_dset_in. exact Hget.
Qed.

(** X7.  After a fit of a new prior has completed, [action_counts] lists the
    same kinds as [action_stats], in the same order, each with the [count]
    of its entry. *)
Theorem fit_counts_agree (w h : Z) (p : episodes_path F) bp' :
  fit_from_episodes p (new_BehaviorPrior w h) = (bp', Ok tt) ->
  action_counts bp' = map (fun kv => (fst kv, count (snd kv))) (action_stats bp').
Proof.
  intros Hfit. destruct p as [| | entries]; try discriminate.
  unfold fit_from_episodes in Hfit.
  assert (H0 : counts_agree (new_BehaviorPrior (F := F) w h)) by (split; reflexivity).
  pose proof (fit_entries_counts_agree entries _ H0) as H1.
  unfold bind in Hfit.
  destruct (for_each entries fit_entry (new_BehaviorPrior w h)) as [bp1 [[] | e |]];
    try discriminate.
  pose proof (finalize_counts_agree _ H1) as H2. rewrite Hfit in H2.
  exact (proj1 H2).
Qed.

(** *** Invariants of the entries

    [P] holds of every entry between steps; inside a named step the entry
    of that kind goes through [P1] (after [st.count += 1]) and [P2] (after
    the coordinate block). *)
Section Entries.

Variables P P1 P2 : ActionStats F -> Prop.
Variable fr : Z * Z * bool.

Hypothesis P_new : P new_ActionStats.
Hypothesis P_count : forall st, P st -> P1 (set_count (count st + 1) st).
Hypothesis P1_welford : forall x y,
  hoare P1 (welford_update x y) (fun _ => P2) (fun _ => True).
Hypothesis P1_P2 : forall st, P1 st -> P2 st.
Hypothesis P2_dir0 : forall st, P2 st -> direction_counts st = None ->
  P2 (set_direction_counts (Some []) st).
Hypothesis P2_dir : forall st dir, P2 st ->
  P2 (set_direction_counts
        (Some (counter_incr dir
                 (match direction_counts st with Some c => c | None => [] end))) st).
Hypothesis P2_mag0 : forall st, P2 st -> magnitudes st = None ->
  P2 (set_magnitudes (Some []) st).
Hypothesis P2_mag : forall st mag, P2 st ->
  P2 (set_magnitudes
        (Some ((match magnitudes st with Some l => l | None => [] end) ++ [mag])%list)
        st).
Hypothesis P2_P : forall st, P2 st -> P st.
Hypothesis P_final : forall w h,
  hoare P (finalize_stats w h) (fun _ => P) (fun _ => True).

(** The entry [nm] exists and satisfies [Q]; the others satisfy [P]. *)
Definition entry_at (Q : ActionStats F -> Prop) (nm : string) bp : Prop :=
  (exists st, dget nm (action_stats bp) = Some st /\ Q st) /\
  (forall nm' st', nm' <> nm -> dget nm' (action_stats bp) = Some st' -> P st') /\
  static bp = fr.

Lemma entry_at_on_stats {A : Type} (Q Q' : ActionStats F -> Prop) nm
    (m : M (ActionStats F) A) :
  hoare Q m (fun _ => Q') (fun _ => True) ->
  hoare (entry_at Q nm) (on_stats nm m) (fun _ => entry_at Q' nm) (fun _ => True).
Proof.
  intros Hm bp ((st & Hget & Hst) & Hothers & Hfr).
  unfold on_stats, zoom, stats_of. rewrite Hget.
  specialize (Hm st Hst). destruct (m st) as [st' [a | e |]]; auto.
  split; [| split].
  - exists st'. cbn [action_stats set_action_stats]. rewrite dget_dset_eq. auto.
  - intros nm' st0 Hne. cbn [action_stats set_action_stats].
    rewrite dget_dset_ne by congruence. apply Hothers. exact Hne.
  - exact Hfr.
Qed.

Lemma entry_at_modify (Q Q' : ActionStats F -> Prop) nm
    (f : ActionStats F -> ActionStats F) :
  (forall st, Q st -> Q' (f st)) ->
  hoare (entry_at Q nm) (on_stats nm (modify f)) (fun _ => entry_at Q' nm)
        (fun _ => True).
Proof. intros Hf. apply entry_at_on_stats. apply hoare_modify. exact Hf. Qed.

Lemma entry_at_Fit (Q : ActionStats F -> Prop) nm bp :
  (forall st, Q st -> P st) -> entry_at Q nm bp -> Fit P fr bp.
Proof.
  intros HQ ((st & Hget & Hst) & Hothers & Hfr). split; [| exact Hfr].
  intros nm' st' Hget'. destruct (String.eqb nm' nm) eqn:E.
  - apply String.eqb_eq in E. subst nm'. apply HQ. congruence.
  - apply String.eqb_neq in E. eapply Hothers; eauto.
Qed.

Lemma entries_head nm :
  hoare (Fit P fr) (fit_head nm) (fun _ => entry_at P1 nm) (fun _ => True).
Proof.
  unfold fit_head.
  eapply hoare_bind with (Q := fun _ => Fit P fr).
  { apply keep_modify. intros bp [Hall Hfr]. split; [exact Hall | exact Hfr]. }
  intros ?. eapply hoare_bind with (Q := fun _ => entry_at P nm).
  { intros bp [Hall Hfr]. unfold lookup_stats.
    destruct (dget nm (action_stats bp)) as [st |] eqn:E.
    - split; [exists st; split; [exact E | eapply Hall; eauto] |].
      split; [| exact Hfr]. intros nm' st' _ H. eapply Hall; eauto.
    - destruct (stats_default bp) eqn:Hd; [| exact Logic.I].
      split; [| split].
      + exists new_ActionStats. cbn [action_stats set_action_stats].
        rewrite dget_dset_eq. auto.
      + intros nm' st' Hne. cbn [action_stats set_action_stats].
        rewrite dget_dset_ne by congruence. apply Hall.
      + unfold static in *. cbn [screen_w screen_h stats_default set_action_stats].
        exact Hfr. }
  intros ?. apply entry_at_modify. exact P_count.
Qed.

Lemma fit_entries_keep (entries : list (dir_entry F)) :
  hoare (Fit P fr) (for_each entries fit_entry) (fun _ => Fit P fr) (fun _ => True).
Proof.
  apply (fit_entries_walk (Fit P fr) (entry_at P1) (entry_at P2)).
  - apply entries_head.
  - intros nm x y. apply entry_at_on_stats. apply P1_welford.
  - intros nm bp ((st & Hget & Hst) & Hothers & Hfr).
    split; [exists st; auto | auto].
  - intros nm. apply entry_at_modify. intros st Hst.
    destruct (direction_counts st) eqn:E; [exact Hst | apply P2_dir0; auto].
  - intros nm dir. apply entry_at_modify. intros st Hst. apply P2_dir. exact Hst.
  - intros nm. apply entry_at_modify. intros st Hst.
    destruct (magnitudes st) eqn:E; [exact Hst | apply P2_mag0; auto].
  - intros nm mag. apply entry_at_modify. intros st Hst. apply P2_mag. exact Hst.
  - intros nm bp. apply entry_at_Fit. exact P2_P.
Qed.

Lemma finalize_keep :
  hoare (Fit P fr) finalize (fun _ => Fit P fr) (fun _ => True).
Proof.
  unfold finalize.
  eapply hoare_bind with (Q := fun _ => Fit P fr).
  { intros bp H. exact H. }
  intros bp0. apply hoare_for_each. intros nm _.
  eapply hoare_weaken.
  - apply (hoare_on_stats_all nm _ P P (fun _ => True) fr P_new); [auto |].
    apply P_final.
  - auto.
  - auto.
  - auto.
Qed.

Lemma fit_keeps (w h : Z) (p : episodes_path F) bp' :
  fr = (w, h, true) ->
  fit_from_episodes p (new_BehaviorPrior w h) = (bp', Ok tt) ->
  AllStats P bp' /\ screen_w bp' = w /\ screen_h bp' = h.
Proof.
  intros Hfr Hfit. destruct p as [| | entries]; try discriminate.
  unfold fit_from_episodes in Hfit.
  assert (H0 : Fit P fr (new_BehaviorPrior (F := F) w h)).
  { split; [intros nm st H; discriminate | now rewrite Hfr]. }
  pose proof (fit_entries_keep entries _ H0) as H1.
  unfold bind in Hfit.
  destruct (for_each entries fit_entry (new_BehaviorPrior w h)) as [bp1 [[] | e |]];
    try discriminate.
  pose proof (finalize_keep _ H1) as H2. rewrite Hfit in H2.
  destruct H2 as [Hall Hst]. split; [exact Hall |].
  unfold static in Hst. rewrite Hfr in Hst. inversion Hst; auto.
Qed.

End Entries.

End FitWalk.

Section Draws.

Context {F : Type}.

Lemma randint_range (a b : Z) (g g' : Rng F) v :
  randint a b g = (g', Ok v) -> a <= v <= b.
Proof.
  unfold randint. destruct (b <? a) eqn:E; [discriminate |].
  apply Z.ltb_ge in E. unfold bind, randbelow, ret. intros H. inversion H; subst.
  pose proof (Z.mod_pos_bound (rand_int g (cursor g)) (b - a + 1)). lia.
Qed.

Lemma randint_returns (a b : Z) (g : Rng F) :
  a <= b -> exists v, randint a b g = (advance g, Ok v) /\ a <= v <= b.
Proof.
  intros Hab. unfold randint. destruct (b <? a) eqn:E; [apply Z.ltb_lt in E; lia |].
  eexists. split; [reflexivity |].
  pose proof (Z.mod_pos_bound (rand_int g (cursor g)) (b - a + 1)). lia.
Qed.

Lemma choice_returns {A : Type} (a : A) (l : list A) (g : Rng F) :
  exists v, choice (a :: l) g = (advance g, Ok v) /\ In v (a :: l).
Proof.
  eexists. split; [reflexivity |].
  apply nth_In.
  pose proof (Z.mod_pos_bound (rand_int g (cursor g))
                (Z.of_nat (List.length (a :: l)))) as Hb.
  simpl List.length in *. lia.
Qed.

Lemma pick_direction_In (r cum : Z) (items : pydict Z) chosen :
  In (pick_direction r cum items chosen) (chosen :: dkeys items).
Proof.
  revert cum. induction items as [| [d c] rest IH]; intros cum; simpl.
  - now left.
  - destruct (r <=? cum + c); [right; now left |].
    destruct (IH (cum + c)) as [H | H]; [now left | right; now right].
Qed.

Lemma sum_counts_from (items : pydict Z) (acc : Z) :
  fold_left (fun a kv => a + snd kv) items acc = acc + sum_counts items.
Proof.
  unfold sum_counts. revert acc.
  induction items as [| [d c] rest IH]; intros acc; simpl; [lia |].
  rewrite IH, (IH c). lia.
Qed.

Lemma sum_counts_cons d c (rest : pydict Z) :
  sum_counts ((d, c) :: rest) = c + sum_counts rest.
Proof. unfold sum_counts at 1. simpl. apply sum_counts_from. Qed.

Lemma sum_counts_positive (items : pydict Z) :
  Forall (fun kv => 1 <= snd kv) items -> items <> [] -> 1 <= sum_counts items.
Proof.
  induction 1 as [| [d c] rest Hc Hrest IH]; intros Hne; [congruence |].
  rewrite sum_counts_cons. simpl in Hc.
  destruct rest as [| kv rest'].
  - unfold sum_counts. simpl. lia.
  - assert (1 <= sum_counts (kv :: rest')) by (apply IH; discriminate). lia.
Qed.

End Draws.

Section Histogram.

Context {F : Type} {PF : PyFloat F}.

Implicit Types (bp : BehaviorPrior F) (st : ActionStats F).

Definition hist_ok st : Prop :=
  forall dc, direction_counts st = Some dc ->
    NoDup (dkeys dc) /\ Forall (fun kv => 1 <= snd kv) dc.

Lemma dkeys_dset {V : Type} k (v : V) d :
  dkeys (dset k v d) = match dget k d with
                       | Some _ => dkeys d
                       | None => (dkeys d ++ [k])%list
                       end.
Proof.
  unfold dkeys. induction d as [| [k' v'] d IH]; simpl; [reflexivity |].
  destruct (String.eqb k k') eqn:E; simpl; [reflexivity |].
  rewrite IH. destruct (dget k d); reflexivity.
Qed.

Lemma dget_None_not_In {V : Type} k (d : pydict V) :
  dget k d = None -> ~ In k (dkeys d).
Proof.
  unfold dkeys. induction d as [| [k' v'] d IH]; simpl; [tauto |].
  destruct (String.eqb k k') eqn:E; [discriminate |].
  apply String.eqb_neq in E. intros H [H1 | H1]; [congruence | now apply IH].
Qed.

Lemma NoDup_dset {V : Type} k (v : V) d : NoDup (dkeys d) -> NoDup (dkeys (dset k v d)).
Proof.
  intros H. rewrite dkeys_dset. destruct (dget k d) eqn:E; [exact H |].
  apply dget_None_not_In in E.
  apply NoDup_rev in H. rewrite <- (rev_involutive (dkeys d ++ [k])).
  apply NoDup_rev. rewrite rev_app_distr. simpl. constructor; [| exact H].
  now rewrite <- in_rev.
Qed.

Lemma Forall_dset {V : Type} (Q : V -> Prop) k v (d : pydict V) :
  Forall (fun kv => Q (snd kv)) d -> Q v -> Forall (fun kv => Q (snd kv)) (dset k v d).
Proof.
  intros H Hv. induction H as [| [k' v'] d Hk Hd IH]; simpl.
  - constructor; auto.
  - destruct (String.eqb k k'); constructor; auto.
Qed.

Lemma dget_Forall {V : Type} (Q : V -> Prop) k v (d : pydict V) :
  Forall (fun kv => Q (snd kv)) d -> dget k d = Some v -> Q v.
Proof.
  induction 1 as [| [k' v'] d Hk Hd IH]; simpl; [discriminate |].
  destruct (String.eqb k k'); [intros H; inversion H; subst; exact Hk | exact IH].
Qed.

Lemma counter_incr_ok dir (c : pydict Z) :
  NoDup (dkeys c) /\ Forall (fun kv => 1 <= snd kv) c ->
  NoDup (dkeys (counter_incr dir c)) /\
  Forall (fun kv => 1 <= snd kv) (counter_incr dir c).
Proof.
  intros [Hn Hf]. unfold counter_incr. split; [now apply NoDup_dset |].
  apply (Forall_dset (fun v => 1 <= v)); [exact Hf |].
  destruct (dget dir c) as [n |] eqn:E; cbv beta; [| lia].
  pose proof (dget_Forall (fun v => 1 <= v) _ _ _ Hf E) as Hge. cbv beta in Hge. lia.
Qed.

Lemma finalize_stats_frame (w h : Z) st st' :
  finalize_stats w h st = (st', Ok tt) ->
  count st' = count st /\ mean_x st' = mean_x st /\ mean_y st' = mean_y st /\
  _n st' = _n st /\
  direction_counts st' = direction_counts st /\ magnitudes st' = magnitudes st /\
  (std_x st <> None -> std_x st' = std_x st) /\
  (std_y st <> None -> std_y st' = std_y st).
Proof.
  unfold finalize_stats, bind, gets, lift, modify, ret, int_times_fifth,
    int_to_float.
  destruct (count st <=? 1) eqn:Hc; destruct (std_x st) eqn:Hx;
    destruct (std_y st) eqn:Hy; simpl; rewrite ?Hy;
    destruct (f_int_fits w); destruct (f_int_fits h); simpl; rewrite ?Hy;
    intros H; inversion H; subst; simpl; rewrite ?Hx, ?Hy;
    repeat split; auto; intros; congruence.
Qed.

Lemma welford_update_keeps (K : ActionStats F -> Prop) (x y : json F) :
  (forall st v, K st -> K (set_mean_x v st)) ->
  (forall st v, K st -> K (set_mean_y v st)) ->
  (forall st v, K st -> K (set_std_x v st)) ->
  (forall st v, K st -> K (set_std_y v st)) ->
  (forall st v, K st -> K (set_m2x v st)) ->
  (forall st v, K st -> K (set_m2y v st)) ->
  (forall st v, K st -> K (set_n v st)) ->
  hoare K (welford_update x y) (fun _ => K) (fun _ => True).
Proof.
  intros H1 H2 H3 H4 H5 H6 H7.
  unfold welford_update.
  eapply hoare_bind with (Q := fun _ => K).
  { intros st Hst. exact Hst. }
  intros st0. destruct (mean_x st0) as [mx |].
  - repeat first
      [ apply keep_modify; intros st Hst; auto 10
      | apply keep_lift
      | apply keep_attr
      | eapply hoare_bind with (Q := fun _ => K); [| intros ?] ].
    intros st Hst. destruct (mean_y st); auto.
  - repeat first
      [ apply keep_modify; intros st Hst; auto 10
      | apply keep_lift
      | eapply hoare_bind with (Q := fun _ => K); [| intros ?] ].
Qed.

Lemma fit_hist_ok (w h : Z) (p : episodes_path F) bp' :
  fit_from_episodes p (new_BehaviorPrior w h) = (bp', Ok tt) ->
  AllStats hist_ok bp'.
Proof.
  intros Hfit.
  refine (proj1 (fit_keeps hist_ok hist_ok hist_ok (w, h, true)
                   _ _ _ _ _ _ _ _ _ _ w h p bp' eq_refl Hfit)).
  - intros dc H. discriminate.
  - intros st H. exact H.
  - intros x y. apply welford_update_keeps; intros st v H; exact H.
  - auto.
  - intros st H _ dc Hdc. inversion Hdc; subst. split; constructor.
  - intros st dir H dc Hdc. inversion Hdc; subst. apply counter_incr_ok.
    destruct (direction_counts st) as [c |] eqn:E; [apply H; exact E |].
    split; constructor.
  - intros st H _. exact H.
  - intros st mag H. exact H.
  - auto.
  - intros w0 h0 st Hst. destruct (finalize_stats w0 h0 st) as [st' [[] | e |]] eqn:E; auto.
    destruct (finalize_stats_frame _ _ _ _ E) as (_ & _ & _ & _ & Hd & _).
    intros dc Hdc. apply Hst. congruence.
Qed.

(** What [sample_scroll] chooses from. *)
Definition direction_choices bp (at_ : bool) : list string :=
  match dget (if at_ then "scroll_at" else "scroll_document") (action_stats bp) with
  | Some {| direction_counts := Some ((d0, c0) :: rest) |} => dkeys ((d0, c0) :: rest)
  | _ => if at_ then ["up"; "down"; "left"; "right"] else ["up"; "down"]
  end.

Definition magnitude_choices bp (at_ : bool) : list Z :=
  if at_ then
    match dget "scroll_at" (action_stats bp) with
    | Some {| magnitudes := Some (m0 :: ms) |} => m0 :: ms
    | _ => [200; 400; 800]
    end
  else [0].

(** X10.  On a prior that a fit has produced, [sample_scroll] always returns: a
    direction that was observed for the kind (one of the defaults when none
    was) and a magnitude that was observed for [scroll_at] (one of 200, 400,
    800 when none was; 0 for a document scroll). *)
Theorem sample_scroll_after_fit (w h : Z) (p : episodes_path F) bp' :
  fit_from_episodes p (new_BehaviorPrior w h) = (bp', Ok tt) ->
  forall at_ g, exists g' dir mag,
    sample_scroll bp' at_ g = (g', Ok (dir, mag)) /\
    In dir (direction_choices bp' at_) /\
    In mag (magnitude_choices bp' at_).
Proof.
  intros Hfit at_ g. pose proof (fit_hist_ok _ _ _ _ Hfit) as Hall.
  unfold sample_scroll, direction_choices, magnitude_choices.
  set (name := if at_ then "scroll_at" else "scroll_document").
  assert (Hname : at_ = true -> name = "scroll_at") by (intros ->; reflexivity).
  destruct (dget name (action_stats bp')) as [st |] eqn:Hst.
  - pose proof (Hall _ _ Hst) as Hok. unfold hist_ok in Hok.
    destruct st as [c mx my sx sy dc mg a b n]. cbn [direction_counts] in Hok.
    assert (Hdir : exists g1 dir,
               (match dc with
                | Some ((d0, c0) :: rest) =>
                    r <- randint 1 (sum_counts ((d0, c0) :: rest)) ;;
                    ret (pick_direction r 0 ((d0, c0) :: rest) d0)
                | _ => if at_ then choice ["up"; "down"; "left"; "right"]
                       else choice ["up"; "down"]
                end) g = (g1, Ok dir) /\
               In dir (match dc with
                       | Some ((d0, c0) :: rest) => dkeys ((d0, c0) :: rest)
                       | _ => if at_ then ["up"; "down"; "left"; "right"]
                              else ["up"; "down"]
                       end)).
    { destruct dc as [[| [d0 c0] rest] |].
      - destruct at_; [destruct (choice_returns "up" ["down"; "left"; "right"] g)
                         as (v & Hv & Hin)
                      | destruct (choice_returns "up" ["down"] g) as (v & Hv & Hin)];
          eauto.
      - destruct (Hok _ eq_refl) as [_ Hpos].
        destruct (randint_returns 1 (sum_counts ((d0, c0) :: rest)) g) as (r & Hr & _).
        { apply sum_counts_positive; [exact Hpos | discriminate]. }
        exists (advance g), (pick_direction r 0 ((d0, c0) :: rest) d0).
        split; [erewrite bind_Ok by exact Hr; reflexivity |].
        destruct (pick_direction_In r 0 ((d0, c0) :: rest) d0) as [H | H];
          [rewrite <- H; now left | exact H].
      - destruct at_; [destruct (choice_returns "up" ["down"; "left"; "right"] g)
                         as (v & Hv & Hin)
                      | destruct (choice_returns "up" ["down"] g) as (v & Hv & Hin)];
          eauto. }
    destruct Hdir as (g1 & dir & Hrun & Hin).
    erewrite bind_Ok by exact Hrun.
    destruct at_.
    + rewrite (Hname eq_refl) in Hst. rewrite Hst.
      destruct mg as [[| m0 ms] |].
      * destruct (choice_returns 200 [400; 800] g1) as (v & Hv & Hv').
        erewrite bind_Ok by exact Hv.
        exists (advance g1), dir, v. split; [reflexivity | split; assumption].
      * destruct (choice_returns m0 ms g1) as (v & Hv & Hv').
        erewrite bind_Ok by exact Hv.
        exists (advance g1), dir, v. split; [reflexivity | split; assumption].
      * destruct (choice_returns 200 [400; 800] g1) as (v & Hv & Hv').
        erewrite bind_Ok by exact Hv.
        exists (advance g1), dir, v. split; [reflexivity | split; assumption].
    + erewrite bind_Ok by reflexivity. exists g1, dir, 0.
      split; [reflexivity |]. split; [exact Hin | now left].
  - destruct at_.
    + rewrite (Hname eq_refl) in Hst. rewrite Hst.
      destruct (choice_returns "up" ["down"; "left"; "right"] g) as (v & Hv & Hin).
      erewrite bind_Ok by exact Hv.
      destruct (choice_returns 200 [400; 800] (advance g)) as (v' & Hv' & Hin').
      erewrite bind_Ok by exact Hv'.
      exists (advance (advance g)), v, v'. split; [reflexivity | split; assumption].
    + destruct (choice_returns "up" ["down"] g) as (v & Hv & Hin).
      erewrite bind_Ok by exact Hv.
      erewrite bind_Ok by reflexivity. exists (advance g), v, 0.
      split; [reflexivity |]. split; [exact Hin | now left].
Qed.

End Histogram.

Section Weights.

Lemma In_py_range (a b r : Z) : In r (py_range a b) <-> a <= r < b.
Proof.
  unfold py_range. rewrite in_map_iff. split.
  - intros (i & <- & Hi). apply in_seq in Hi. lia.
  - intros H. exists (Z.to_nat (r - a)). split; [lia |]. apply in_seq. lia.
Qed.

Lemma py_range_split (a m b : Z) :
  a <= m <= b -> py_range a b = (py_range a m ++ py_range m b)%list.
Proof.
  intros H. unfold py_range.
  replace (Z.to_nat (b - a)) with (Z.to_nat (m - a) + Z.to_nat (b - m))%nat by lia.
  rewrite seq_app, map_app. f_equal.
  assert (Hs : forall len n, seq n len = map (fun i => (n + i)%nat) (seq 0 len)).
  { induction len as [| j IH]; intros n; simpl; [reflexivity |].
    f_equal; [lia |]. rewrite (IH (S n)), (IH 1%nat), map_map.
    apply map_ext. intros; lia. }
  rewrite (Hs _ (0 + Z.to_nat (m - a))%nat), map_map. apply map_ext_in.
  intros i _. lia.
Qed.

Lemma filter_all {A : Type} (f : A -> bool) (l : list A) :
  (forall a, In a l -> f a = true) -> filter f l = l.
Proof.
  induction l as [| a l IH]; intros H; simpl; [reflexivity |].
  rewrite (H a) by now left. f_equal. apply IH. intros; apply H; now right.
Qed.

Lemma filter_none {A : Type} (f : A -> bool) (l : list A) :
  (forall a, In a l -> f a = false) -> filter f l = [].
Proof.
  induction l as [| a l IH]; intros H; simpl; [reflexivity |].
  rewrite (H a) by now left. apply IH. intros; apply H; now right.
Qed.

Lemma sum_counts_nonneg (items : pydict Z) :
  Forall (fun kv => 0 <= snd kv) items -> 0 <= sum_counts items.
Proof.
  induction 1 as [| [d c] rest Hc _ IH]; [unfold sum_counts; simpl; lia |].
  rewrite sum_counts_cons. simpl in Hc. lia.
Qed.

(** A draw inside the cumulated counts selects a key of the histogram. *)
Lemma pick_direction_key (r cum : Z) (items : pydict Z) chosen :
  r <= cum + sum_counts items -> items <> [] ->
  In (pick_direction r cum items chosen) (dkeys items).
Proof.
  revert cum. induction items as [| [d c] rest IH]; intros cum Hr Hne;
    [congruence |].
  simpl. destruct (r <=? cum + c) eqn:E; [now left |].
  apply Z.leb_gt in E. rewrite sum_counts_cons in Hr. right.
  destruct rest as [| kv rest'].
  - unfold sum_counts in Hr. simpl in Hr. lia.
  - apply IH; [lia | discriminate].
Qed.

Lemma pick_direction_hits (items : pydict Z) chosen d cum :
  NoDup (dkeys items) ->
  Forall (fun kv => 0 <= snd kv) items ->
  List.length
    (filter (fun r => String.eqb (pick_direction r cum items chosen) d)
            (py_range (cum + 1) (cum + sum_counts items + 1)))
  = Z.to_nat (match dget d items with Some c => c | None => 0 end).
Proof.
  revert cum. induction items as [| [d' c'] rest IH]; intros cum Hnd Hpos.
  - unfold sum_counts. simpl. rewrite filter_none; [reflexivity |].
    intros r Hr. apply In_py_range in Hr. lia.
  - inversion Hnd as [| ? ? Hnotin Hnd']; subst.
    inversion Hpos as [| ? ? Hc' Hpos']; subst. simpl in Hc'.
    pose proof (sum_counts_nonneg rest Hpos') as Hsum.
    rewrite sum_counts_cons.
    rewrite (py_range_split (cum + 1) (cum + c' + 1)) by lia.
    rewrite filter_app, length_app.
    replace (cum + (c' + sum_counts rest) + 1)
      with (cum + c' + sum_counts rest + 1) by lia.
    assert (Hsnd : filter (fun r => String.eqb
                             (pick_direction r cum ((d', c') :: rest) chosen) d)
                     (py_range (cum + c' + 1) (cum + c' + sum_counts rest + 1))
                   = filter (fun r => String.eqb
                               (pick_direction r (cum + c') rest chosen) d)
                       (py_range (cum + c' + 1) (cum + c' + sum_counts rest + 1))).
    { apply filter_ext_in. intros r Hr. apply In_py_range in Hr. simpl.
      destruct (r <=? cum + c') eqn:E; [apply Z.leb_le in E; lia | reflexivity]. }
    rewrite Hsnd, (IH (cum + c') Hnd' Hpos').
    simpl dget. destruct (String.eqb d d') eqn:Ed.
    + apply String.eqb_eq in Ed. subst d'.
      rewrite filter_all.
      * rewrite py_range_length.
        destruct (dget d rest) eqn:Eg;
          [apply dget_Some_In in Eg; contradiction |]. simpl. lia.
      * intros r Hr. apply In_py_range in Hr. simpl.
        destruct (r <=? cum + c') eqn:E; [apply String.eqb_refl |].
        apply Z.leb_gt in E. lia.
    + rewrite filter_none; [reflexivity |].
      intros r Hr. apply In_py_range in Hr. simpl.
      destruct (r <=? cum + c') eqn:E; [| apply Z.leb_gt in E; lia].
      rewrite String.eqb_sym. exact Ed.
Qed.

(** X11.  The walk over the cumulated counts picks each direction in proportion
    to its count: of the [total] draws [1, ..., total] that [randint] can
    return, exactly [c] select a direction whose count is [c]. *)
Theorem pick_direction_weights (items : pydict Z) chosen d c :
  NoDup (dkeys items) ->
  Forall (fun kv => 0 <= snd kv) items ->
  dget d items = Some c ->
  List.length
    (filter (fun r => String.eqb (pick_direction r 0 items chosen) d)
            (py_range 1 (sum_counts items + 1)))
  = Z.to_nat c.
Proof.
  intros Hnd Hpos Hget.
  pose proof (pick_direction_hits items chosen d 0 Hnd Hpos) as H.
  rewrite Hget in H. exact H.
Qed.

End Weights.

Section SingleSample.

Context {F : Type} {PF : PyFloat F}.

Implicit Types (bp : BehaviorPrior F) (st : ActionStats F).

(** The number of coordinate samples of an entry is at most its [count]
    minus [slack], and an entry with one sample has both deviations at
    the [0.0] that the first sample writes. *)
Definition samples_counted (slack : Z) st : Prop :=
  slack <= count st /\
  (mean_x st <> None ->
   exists n, _n st = Some n /\ 1 <= n <= count st - slack /\
             (n = 1 -> std_x st = Some f_zero /\ std_y st = Some f_zero)).

Lemma welford_update_samples_counted (x y : json F) :
  hoare (samples_counted 1) (welford_update x y) (fun _ => samples_counted 0)
        (fun _ => True).
Proof.
  unfold welford_update.
  eapply hoare_bind with (Q := fun st0 st => st = st0 /\ samples_counted 1 st).
  { intros st Hst. simpl. auto. }
  intros st0. destruct (mean_x st0) as [mx |] eqn:Hmean.
  - eapply hoare_bind
      with (Q := fun n0 st => 1 <= count st /\ _n st = Some n0 /\ 1 <= n0 <= count st - 1).
    { intros st [-> [Hc Hs]]. unfold attr.
      destruct Hs as (n & Hn & Hr & _); [congruence |]. rewrite Hn. auto. }
    intros n0. cbv zeta.
    set (K := fun st : ActionStats F =>
                0 <= count st /\ exists n, _n st = Some n /\ 2 <= n <= count st).
    eapply hoare_bind with (Q := fun _ => K).
    { apply hoare_modify. intros st (Hc & Hn & Hr). split; [simpl; lia |].
      exists (n0 + 1). simpl. split; [reflexivity | lia]. }
    intros ?.
    eapply hoare_weaken with (P' := K) (Q' := fun _ => K) (E' := fun _ => True);
      [| auto | | auto].
    + repeat first
        [ apply keep_modify; intros st Hst; exact Hst
        | apply keep_lift
        | apply keep_attr
        | eapply hoare_bind with (Q := fun _ => K); [| intros ?] ].
      intros st Hst. destruct (mean_y st); auto.
    + intros _ st (Hc & n & Hn & Hr). split; [lia |]. intros _.
      exists n. split; [exact Hn |]. split; [lia |]. intros ->. lia.
  - eapply hoare_bind with (Q := fun _ st => 1 <= count st); [| intros fx].
    { apply hoare_lift. intros st [_ [Hc _]]. destruct (py_float x); auto. }
    eapply hoare_bind with (Q := fun _ st => 1 <= count st); [apply keep_lift |].
    intros fy.
    eapply hoare_bind with (Q := fun _ st => 1 <= count st);
      [apply keep_modify; intros st Hst; exact Hst | intros ?].
    eapply hoare_bind
      with (Q := fun _ st => 1 <= count st /\ std_x st = Some f_zero /\
                             std_y st = Some f_zero); [| intros ?].
    { apply hoare_modify. intros st Hst. simpl. auto. }
    apply hoare_modify. intros st (Hc & Hx & Hy). split; [simpl; lia |].
    intros _. exists 1. simpl. repeat split; try lia; auto; intros; apply Hz; assumption.
Qed.

Lemma fit_samples_counted (w h : Z) (p : episodes_path F) bp' :
  fit_from_episodes p (new_BehaviorPrior w h) = (bp', Ok tt) ->
  AllStats (samples_counted 0) bp' /\ screen_w bp' = w /\ screen_h bp' = h.
Proof.
  intros Hfit.
  refine (fit_keeps (samples_counted 0) (samples_counted 1) (samples_counted 0)
            (w, h, true) _ _ _ _ _ _ _ _ _ _ w h p bp' eq_refl Hfit).
  - split; [cbn; lia | intros H; contradiction].
  - intros st [Hc Hs]. split; [simpl; lia |]. intros Hm.
    destruct (Hs Hm) as (n & Hn & Hr & Hz). exists n. simpl.
    repeat split; try lia; auto; intros; apply Hz; assumption.
  - apply welford_update_samples_counted.
  - intros st [Hc Hs]. split; [lia |]. intros Hm.
    destruct (Hs Hm) as (n & Hn & Hr & Hz). exists n. repeat split; try lia; auto; intros; apply Hz; assumption.
  - intros st H _. exact H.
  - intros st dir H. exact H.
  - intros st H _. exact H.
  - intros st mag H. exact H.
  - auto.
  - intros w0 h0 st [Hc Hs].
    destruct (finalize_stats w0 h0 st) as [st' [[] | e |]] eqn:E; auto.
    destruct (finalize_stats_frame _ _ _ _ E)
      as (Hcount & Hmx & _ & Hn & _ & _ & Hsx & Hsy).
    split; [lia |]. rewrite Hmx, Hn, Hcount. intros Hm.
    destruct (Hs Hm) as (n & Hn' & Hr & Hz). exists n.
    split; [exact Hn' |]. split; [lia |]. intros H1.
    destruct (Hz H1) as [Hx Hy]. rewrite Hsx, Hsy by congruence. auto.
Qed.

(** A kind that the fit saw once, with coordinates: both deviations are
    left at the zero of the first sample, and for a zero deviation
    [sample_coordinates] draws with 0.2 times the screen dimension. *)
Lemma single_sample_draw (w h : Z) (p : episodes_path F) bp' nm st :
  f_is_zero f_zero = true ->
  fit_from_episodes p (new_BehaviorPrior w h) = (bp', Ok tt) ->
  dget nm (action_stats bp') = Some st ->
  count st = 1 -> mean_x st <> None ->
  std_x st = Some f_zero /\ std_y st = Some f_zero /\
  forall g,
    sample_coordinates bp' nm g
    = (sigma_x <- lift (int_times_fifth w) ;;
       sigma_y <- lift (int_times_fifth h) ;;
       gx <- gauss (mean_x st) sigma_x ;;
       x <- lift (py_int gx) ;;
       gy <- gauss (mean_y st) sigma_y ;;
       y <- lift (py_int gy) ;;
       ret (clamp w x, clamp h y)) g.
Proof.
  intros Hzero Hfit Hget Hcount Hmean.
  destruct (fit_samples_counted _ _ _ _ Hfit) as (Hall & Hw & Hh).
  destruct (Hall _ _ Hget) as [_ Hs].
  destruct (Hs Hmean) as (n & Hn & Hr & Hz).
  assert (n = 1) by lia. destruct (Hz H) as [Hx Hy].
  split; [exact Hx |]. split; [exact Hy |]. intros g.
  unfold sample_coordinates. rewrite Hget, Hw, Hh, Hx, Hy.
  destruct (mean_x st) as [mx |] eqn:Hmx; [| contradiction].
  unfold sigma_or_default. rewrite Hzero.
  repeat (rewrite bind_assoc; apply bind_ext; [reflexivity | intros ? ?]).
  reflexivity.
Qed.

End SingleSample.

(** X9.  A kind that a completed fit saw exactly once, with coordinates: its
    deviations are the [0.0] written with the first sample (the
    finalization leaves them), and because [0.0] counts as unset in
    [sample_coordinates], the draw for that kind uses 0.2 times the screen
    width and height. *)
Theorem single_sample_uses_default_sigma (w h : Z) (p : episodes_path float)
    (bp' : BehaviorPrior float) nm st :
  fit_from_episodes p (new_BehaviorPrior w h) = (bp', Ok tt) ->
  dget nm (action_stats bp') = Some st ->
  count st = 1 -> mean_x st <> None ->
  std_x st = Some 0%float /\ std_y st = Some 0%float /\
  forall g,
    sample_coordinates bp' nm g
    = (sigma_x <- lift (int_times_fifth w) ;;
       sigma_y <- lift (int_times_fifth h) ;;
       gx <- gauss (mean_x st) sigma_x ;;
       x <- lift (py_int gx) ;;
       gy <- gauss (mean_y st) sigma_y ;;
       y <- lift (py_int gy) ;;
       ret (clamp w x, clamp h y)) g.
Proof.
  intros Hfit Hget Hcount Hmean.
  exact (single_sample_draw (F := float) w h p bp' nm st eq_refl Hfit Hget Hcount Hmean).
Qed.

Section FittedKinds.

Context {F : Type} {PF : PyFloat F}.

(** *** The kinds of a fitted prior *)

Definition counts_ok (bp : BehaviorPrior F) : Prop :=
  NoDup (dkeys (action_counts bp)) /\
  Forall (fun kv => 1 <= snd kv) (action_counts bp).

Lemma counts_ok_on_stats {A : Type} nm (m : M (ActionStats F) A) :
  hoare counts_ok (on_stats nm m) (fun _ => counts_ok) (fun _ => True).
Proof.
  intros bp H. unfold on_stats, zoom.
  destruct (m (stats_of nm bp)) as [st' [a | e |]]; auto.
Qed.

Lemma fit_entries_counts_ok (entries : list (dir_entry F)) :
  hoare counts_ok (for_each entries fit_entry) (fun _ => counts_ok) (fun _ => True).
Proof.
  apply (fit_entries_walk counts_ok (fun _ => counts_ok) (fun _ => counts_ok));
    try (intros; apply counts_ok_on_stats); auto.
  intros nm. unfold fit_head.
  eapply hoare_bind with (Q := fun _ => counts_ok).
  { apply keep_modify. intros bp H. apply counter_incr_ok. exact H. }
  intros ?. eapply hoare_bind with (Q := fun _ => counts_ok).
  { intros bp H. unfold lookup_stats.
    destruct (dget nm (action_stats bp)); [exact H |].
    destruct (stats_default bp); [exact H | exact Logic.I]. }
  intros ?. apply counts_ok_on_stats.
Qed.

(** X8.  After a fit of a new prior has completed, [action_counts] lists every
    kind once with a count of at least 1, and so does every direction
    histogram with its directions. *)
Theorem fit_kinds_listed_once (w h : Z) (p : episodes_path F) bp' :
  fit_from_episodes p (new_BehaviorPrior w h) = (bp', Ok tt) ->
  NoDup (dkeys (action_counts bp')) /\
  Forall (fun kv => 1 <= snd kv) (action_counts bp') /\
  forall nm st dc,
    dget nm (action_stats bp') = Some st -> direction_counts st = Some dc ->
    NoDup (dkeys dc) /\ Forall (fun kv => 1 <= snd kv) dc.
Proof.
  intros Hfit.
  assert (Hc : counts_ok bp').
  { destruct p as [| | entries]; try discriminate.
    unfold fit_from_episodes in Hfit.
    assert (H0 : counts_ok (new_BehaviorPrior (F := F) w h))
      by (split; constructor).
    pose proof (fit_entries_counts_ok entries _ H0) as H1.
    unfold bind in Hfit.
    destruct (for_each entries fit_entry (new_BehaviorPrior w h))
      as [bp1 [[] | e |]]; try discriminate.
    unfold finalize in Hfit. unfold bind, gets in Hfit.
    assert (H2 : hoare counts_ok
                   (for_each (dkeys (action_stats bp1))
                      (fun name => on_stats name
                                     (finalize_stats (screen_w bp1) (screen_h bp1))))
                   (fun _ => counts_ok) (fun _ => True)).
    { apply hoare_for_each. intros nm _. apply counts_ok_on_stats. }
    specialize (H2 _ H1). rewrite Hfit in H2. exact H2. }
  destruct Hc as [H1 H2]. split; [exact H1 |]. split; [exact H2 |].
  intros nm st dc Hget Hdc.
  exact (fit_hist_ok _ _ _ _ Hfit _ _ Hget _ Hdc).
Qed.

End FittedKinds.

Section ActionProbExact.

Lemma dget_In_NoDup {V : Type} (d : pydict V) kv :
  NoDup (dkeys d) -> In kv d -> dget (fst kv) d = Some (snd kv).
Proof.
  induction d as [| [k v] d IH]; intros Hnd Hin; [contradiction |].
  simpl in Hnd. inversion Hnd as [| ? ? Hnot Hnd']; subst. simpl.
  destruct Hin as [<- | Hin].
  - simpl. now rewrite String.eqb_refl.
  - destruct (String.eqb (fst kv) k) eqn:E; [| now apply IH].
    apply String.eqb_eq in E. subst k. exfalso. apply Hnot.
    unfold dkeys. apply in_map. exact Hin.
Qed.

Lemma In_le_sum_counts (d : pydict Z) kv :
  Forall (fun kv => 0 <= snd kv) d -> In kv d -> snd kv <= sum_counts d.
Proof.
  induction 1 as [| [k v] d Hv Hd IH]; intros Hin; [contradiction |].
  rewrite sum_counts_cons. pose proof (sum_counts_nonneg d Hd). simpl in Hv.
  destruct Hin as [<- | Hin]; [simpl; lia |]. specialize (IH Hin). lia.
Qed.

Lemma sum_R_shares (d : pydict Z) (t : R) :
  sum_R (map (fun kv => (IZR (snd kv) / t)%R) d) = (IZR (sum_counts d) / t)%R.
Proof.
  induction d as [| [k v] d IH]; simpl.
  - unfold sum_counts. simpl. unfold Rdiv. now rewrite Rmult_0_l.
  - rewrite IH, sum_counts_cons, plus_IZR. simpl. unfold Rdiv. ring.
Qed.

(** X12.  In exact arithmetic [action_prob] is a distribution over the kinds
    of [action_counts]: when the counts are non-negative, listed once, and
    add up to a positive total (of at most 2^53), the probabilities of the
    listed kinds lie in [0, 1] and add up to 1, and any other kind has
    probability 0.  When the counts add up to 0 (a prior never fitted)
    every kind has probability 1. *)
Theorem action_prob_distribution (bp : BehaviorPrior R) :
  (sum_counts (action_counts bp) = 0 ->
   forall nm, action_prob bp nm = Ok 1%R) /\
  (NoDup (dkeys (action_counts bp)) ->
   Forall (fun kv => 0 <= snd kv) (action_counts bp) ->
   0 < sum_counts (action_counts bp) <= 2 ^ 53 ->
   exists ps,
     map (action_prob bp) (dkeys (action_counts bp)) = map Ok ps /\
     sum_R ps = 1%R /\
     Forall (fun p => (0 <= p <= 1)%R) ps /\
     forall nm, dget nm (action_counts bp) = None -> action_prob bp nm = Ok 0%R).
Proof.
  split.
  - intros Hz nm. unfold action_prob. rewrite Hz. simpl. f_equal. field.
  - intros Hnd Hpos Ht.
    set (T := sum_counts (action_counts bp)) in *.
    assert (HT : (0 < IZR T)%R) by (apply IZR_lt; lia).
    assert (Hprob : forall c, 0 <= c <= T ->
              int_truediv (F := R) c T = Ok (IZR c / IZR T)%R).
    { intros c Hc. unfold int_truediv.
      destruct (T =? 0) eqn:E; [apply Z.eqb_eq in E; lia |].
      assert (Hb : (Z.abs c <=? 2 ^ 53) && (Z.abs T <=? 2 ^ 53) = true).
      { apply andb_true_iff. split; apply Z.leb_le; lia. }
      rewrite Hb. reflexivity. }
    assert (Hne : (T =? 0) = false) by (apply Z.eqb_neq; lia).
    exists (map (fun kv => (IZR (snd kv) / IZR T)%R) (action_counts bp)).
    split; [| split; [| split]].
    + unfold dkeys. rewrite !map_map. apply map_ext_in. intros kv Hin.
      unfold action_prob. fold T. rewrite Hne.
      rewrite (dget_In_NoDup _ _ Hnd Hin). apply Hprob.
      rewrite Forall_forall in Hpos. split; [apply Hpos, Hin |].
      apply In_le_sum_counts; [now apply Forall_forall | exact Hin].
    + rewrite sum_R_shares. fold T. field. lra.
    + apply Forall_forall. intros p Hp. apply in_map_iff in Hp.
      destruct Hp as (kv & <- & Hin).
      assert (H0 : 0 <= snd kv) by (rewrite Forall_forall in Hpos; apply Hpos, Hin).
      assert (H1 : snd kv <= T) by (apply In_le_sum_counts; assumption).
      apply IZR_le in H0, H1. split.
      * apply Rmult_le_pos; [exact H0 |]. left. now apply Rinv_0_lt_compat.
      * apply (Rmult_le_reg_r (IZR T)); [exact HT |].
        unfold Rdiv. rewrite Rmult_assoc, Rinv_l by lra. lra.
    + intros nm Hnone. unfold action_prob. fold T. rewrite Hne, Hnone.
      rewrite Hprob by lia. f_equal. unfold Rdiv. apply Rmult_0_l.
Qed.

End ActionProbExact.

(* ================================================================= *)
(** ** A prior read back from its snapshot *)

Section Restored.

Context {F : Type} {PF : PyFloat F}.

Lemma sample_coordinates_restored (bp : BehaviorPrior F) nm g :
  sample_coordinates (restored bp) nm g = sample_coordinates bp nm g.
Proof.
  unfold sample_coordinates, restored. cbn [action_stats screen_w screen_h].
  rewrite dget_map_values.
  destruct (dget nm (action_stats bp)) as [st |]; reflexivity.
Qed.

Lemma sample_scroll_restored (bp : BehaviorPrior F) at_ g :
  sample_scroll (restored bp) at_ g = sample_scroll bp at_ g.
Proof.
  unfold sample_scroll, restored. cbn [action_stats].
  rewrite dget_map_values.
  destruct (dget (if at_ then "scroll_at" else "scroll_document") (action_stats bp))
    as [st |]; [| reflexivity].
  destruct st as [c mx my sx sy dc mg a b n]. cbn [option_map restored_stats or_empty
    direction_counts magnitudes].
  destruct dc as [[| [d0 c0] rest] |], mg as [[| m0 ms] |]; reflexivity.
Qed.

Lemma validate_or_adjust_restored (bp : BehaviorPrior F) nm args m :
  validate_or_adjust (restored bp) nm args m = validate_or_adjust bp nm args m.
Proof.
  unfold validate_or_adjust.
  apply bind_ext; [reflexivity |]. intros a m1.
  apply bind_ext; [reflexivity |]. intros out m2.
  apply bind_ext.
  - unfold adjust_coordinates. destruct (mem_str nm CoordActions); [| reflexivity].
    apply bind_ext; [reflexivity |]. intros o m3. cbv zeta.
    replace (need_coordinates (restored bp) (dict_get o "x") (dict_get o "y"))
      with (need_coordinates bp (dict_get o "x") (dict_get o "y")) by reflexivity.
    destruct (need_coordinates bp (dict_get o "x") (dict_get o "y")); [| reflexivity].
    apply bind_ext; [| reflexivity].
    unfold with_rng, zoom. rewrite sample_coordinates_restored. reflexivity.
  - intros ? m3. apply bind_ext; [| reflexivity].
    unfold adjust_scroll. destruct (mem_str nm ScrollActions); [| reflexivity].
    apply bind_ext; [reflexivity |]. intros o m4. cbv zeta.
    apply bind_ext; [| reflexivity].
    unfold with_rng, zoom. rewrite sample_scroll_restored. reflexivity.
Qed.

(** X13.  A prior read back from its snapshot samples and repairs exactly as the
    prior that was saved. *)
Theorem loaded_prior_samples_alike (bp : BehaviorPrior F) :
  exists bp',
    load (save bp) = Ok bp' /\
    (forall nm g, sample_coordinates bp' nm g = sample_coordinates bp nm g) /\
    (forall at_ g, sample_scroll bp' at_ g = sample_scroll bp at_ g) /\
    (forall nm args m, validate_or_adjust bp' nm args m = validate_or_adjust bp nm args m).
Proof.
  exists (restored bp). split; [apply load_save |].
  split; [intros; apply sample_coordinates_restored |].
  split; [intros; apply sample_scroll_restored |].
  intros; apply validate_or_adjust_restored.
Qed.

End Restored.

Section Refit.

Context {F : Type} {PF : PyFloat F}.

Lemma rbind_Ok_inv {A B : Type} (r : result A) (k : A -> result B) b :
  rbind r k = Ok b -> exists a, r = Ok a /\ k a = Ok b.
Proof. destruct r; simpl; intros H; try discriminate. eauto. Qed.

Lemma from_dict_plain (v : json F) st :
  from_dict v = Ok st -> _n st = None /\ _m2x st = None /\ _m2y st = None.
Proof.
  unfold from_dict. intros H.
  repeat (apply rbind_Ok_inv in H; destruct H as (? & _ & H)).
  inversion H; subst. auto.
Qed.

Lemma stats_of_items_plain (d : list (string * json F)) stats :
  stats_of_items d = Ok stats ->
  forall nm st, dget nm stats = Some st -> _n st = None.
Proof.
  revert stats. induction d as [| [k v] d IH]; simpl; intros stats H nm st Hget.
  - inversion H; subst. discriminate.
  - apply rbind_Ok_inv in H. destruct H as (st0 & Hst0 & H).
    apply rbind_Ok_inv in H. destruct H as (r & Hr & H).
    inversion H; subst. simpl in Hget.
    destruct (String.eqb nm k).
    + inversion Hget; subst. apply (from_dict_plain _ _ Hst0).
    + eapply IH; eauto.
Qed.

Lemma load_plain (doc : json F) bp :
  load doc = Ok bp ->
  stats_default bp = false /\
  forall nm st, dget nm (action_stats bp) = Some st -> _n st = None.
Proof.
  unfold load. intros H.
  apply rbind_Ok_inv in H. destruct H as (d & _ & H).
  apply rbind_Ok_inv in H. destruct H as (size & _ & H).
  apply rbind_Ok_inv in H. destruct H as (counts & _ & H).
  apply rbind_Ok_inv in H. destruct H as (items & _ & H).
  apply rbind_Ok_inv in H. destruct H as (stats & Hstats & H).
  inversion H; subst. simpl. split; [reflexivity |].
  apply (stats_of_items_plain _ _ Hstats).
Qed.

(** X14.  A prior that [load] returned cannot be fitted further.  A step of a kind
    the snapshot has no entry for raises [KeyError] (the restored
    [action_stats] is a plain dict), after [action_counts] has been
    incremented.  A coordinate sample for a kind that has a mean raises
    [AttributeError]: the snapshot does not hold the accumulator [_n]. *)
Theorem fit_step_after_load_raises (doc : json F) bp (s act : pydict (json F)) nm :
  load doc = Ok bp ->
  dget "action" s = Some (JDict act) ->
  dget "name" act = Some (JStr nm) ->
  nm <> "" ->
  (dget nm (action_stats bp) = None ->
   fit_step (JDict s) bp
   = (set_action_counts (counter_incr nm (action_counts bp)) bp,
      Raise (Exception "KeyError"))) /\
  (forall st mx a,
     dget nm (action_stats bp) = Some st ->
     mean_x st = Some mx ->
     mem_str nm CoordActions = true ->
     dget "args" act = Some (JDict a) ->
     truthy (dict_get a "x") = true -> truthy (dict_get a "y") = true ->
     isinstance_number (dict_get a "x") = true ->
     isinstance_number (dict_get a "y") = true ->
     exists bp',
       fit_step (JDict s) bp = (bp', Raise (Exception "AttributeError")) /\
       action_counts bp' = counter_incr nm (action_counts bp) /\
       count (stats_of nm bp') = count st + 1 /\
       moments (stats_of nm bp') = moments st).
Proof.
  intros Hload Hact Hname Hnm.
  destruct (load_plain _ _ Hload) as [Hplain Hn].
  assert (Htruthy : truthy (JStr nm : json F) = true).
  { simpl. destruct (String.eqb nm "") eqn:E; [| reflexivity].
    apply String.eqb_eq in E. contradiction. }
  assert (Hhead :
            fit_step (JDict s) bp
            = (modify (fun bp => set_action_counts (counter_incr nm (action_counts bp)) bp) ;;;
               lookup_stats nm ;;;
               on_stats nm (modify (fun st => set_count (count st + 1) st)) ;;;
               fit_coordinates nm (dict_get_default act "args" (JDict [])) ;;;
               fit_scroll nm (dict_get_default act "args" (JDict []))) bp).
  { unfold fit_step.
    erewrite bind_Ok by reflexivity.
    unfold dict_get_default at 1. rewrite Hact.
    erewrite bind_Ok by reflexivity. cbv zeta.
    unfold dict_get at 1 2. rewrite Hname. rewrite Htruthy. reflexivity. }
  rewrite Hhead. clear Hhead.
  split.
  - intros Hnone.
    erewrite bind_Ok by reflexivity.
    unfold bind at 1. unfold lookup_stats. cbn [action_stats set_action_counts stats_default].
    rewrite Hnone, Hplain. reflexivity.
  - intros st mx a Hget Hmean Hcoord Hargs Htx Hty Hix Hiy.
    erewrite bind_Ok by reflexivity.
    erewrite bind_Ok
      by (unfold lookup_stats; cbn [action_stats set_action_counts]; rewrite Hget;
          reflexivity).
    erewrite bind_Ok by reflexivity.
    unfold dict_get_default. rewrite Hargs.
    unfold bind at 1. rewrite fit_coordinates_feeds by assumption.
    unfold on_stats, zoom. cbn [modify].
    assert (Hst : stats_of nm (set_action_counts (counter_incr nm (action_counts bp)) bp)
                  = st).
    { unfold stats_of. cbn [action_stats set_action_counts]. rewrite Hget. reflexivity. }
    rewrite Hst. cbn [fst snd]. rewrite stats_of_dset.
    unfold welford_update.
    erewrite bind_Ok by reflexivity.
    cbn [mean_x set_count]. rewrite Hmean.
    unfold bind at 1. unfold attr. cbn [_n set_count]. rewrite (Hn _ _ Hget).
    eexists. split; [reflexivity |].
    split; [reflexivity |].
    rewrite stats_of_dset. split; reflexivity.
Qed.

End Refit.

(* ================================================================= *)
(** ** [validate_or_adjust]: what comes back *)

Section ValidateMore.

Context {F : Type} {PF : PyFloat F}.

Implicit Types (bp : BehaviorPrior F) (hp : list (pydict (json F))).

(** The start of a call, for either form of the argument. *)
Lemma validate_or_adjust_Ok_inv bp name args (m m' : Mem F) out :
  validate_or_adjust bp name args m = (m', Ok out) ->
  exists a,
    match args with
    | Some r => nth_error (heap m) r = Some a
    | None => a = []
    end /\
    out = List.length (heap m) /\
    (adjust_coordinates bp name (List.length (heap m)) ;;;
     adjust_scroll bp name (List.length (heap m)) ;;;
     ret (List.length (heap m))) (mkMem (heap m ++ [a])%list (rng m)) = (m', Ok out).
Proof.
  intros Hrun. destruct args as [r |].
  - destruct (nth_error (heap m) r) as [a |] eqn:Hr.
    + exists a. rewrite (validate_or_adjust_start bp name r m a Hr) in Hrun.
      split; [reflexivity |]. split; [| exact Hrun].
      apply bind_Ok_inv in Hrun. destruct Hrun as (? & m1 & _ & Hrun).
      apply bind_Ok_inv in Hrun. destruct Hrun as (? & m2 & _ & Hrun).
      unfold ret in Hrun. congruence.
    + unfold validate_or_adjust, bind, deref in Hrun. rewrite Hr in Hrun.
      discriminate.
  - exists []. split; [reflexivity |].
    unfold validate_or_adjust in Hrun.
    erewrite bind_Ok in Hrun by reflexivity.
    erewrite bind_Ok in Hrun by reflexivity.
    split; [| exact Hrun].
    apply bind_Ok_inv in Hrun. destruct Hrun as (? & m1 & _ & Hrun).
    apply bind_Ok_inv in Hrun. destruct Hrun as (? & m2 & _ & Hrun).
    unfold ret in Hrun. congruence.
Qed.

(** What the test of [validate_or_adjust] accepts. *)
Definition accepted bp (o : pydict (json F)) : Prop :=
  exists vx vy,
    dget "x" o = Some vx /\ dget "y" o = Some vy /\
    need_coordinates bp vx vy = false.

Lemma need_false_parts bp (vx vy : json F) :
  need_coordinates bp vx vy = false ->
  isinstance_number vx = true /\ isinstance_number vy = true /\
  num_lt vx 0 = false /\ num_lt vy 0 = false /\
  num_ge vx (screen_w bp) = false /\ num_ge vy (screen_h bp) = false.
Proof.
  unfold need_coordinates.
  destruct (isinstance_number vx), (isinstance_number vy); simpl;
    try discriminate.
  intros H.
  apply orb_false_iff in H. destruct H as [H H4].
  apply orb_false_iff in H. destruct H as [H H3].
  apply orb_false_iff in H. destruct H as [H1 H2]. auto 10.
Qed.

Lemma need_false_present bp (o : pydict (json F)) :
  need_coordinates bp (dict_get o "x") (dict_get o "y") = false -> accepted bp o.
Proof.
  intros H. exists (dict_get o "x"), (dict_get o "y").
  split; [| split; [| exact H]].
  - unfold need_coordinates, dict_get in *.
    destruct (dget "x" o); [reflexivity | discriminate].
  - unfold need_coordinates, dict_get in *.
    destruct (dget "y" o); [reflexivity |].
    destruct (dget "x" o) as [v |]; [| discriminate].
    destruct (isinstance_number v); discriminate.
Qed.

Lemma adjust_coordinates_accepted bp name hp :
  mem_str name CoordActions = true ->
  0 < screen_w bp -> 0 < screen_h bp ->
  hoare (one_new hp (fun _ => True)) (adjust_coordinates bp name (List.length hp))
        (fun _ => one_new hp (accepted bp)) (fun _ => True).
Proof.
  intros Hname Hw Hh m (o & Hheap & _). unfold adjust_coordinates. rewrite Hname.
  unfold bind at 1. unfold deref. rewrite Hheap, nth_error_app_last.
  destruct (need_coordinates bp (dict_get o "x") (dict_get o "y")) eqn:Hneed.
  - unfold bind at 1. unfold with_rng, zoom.
    destruct (sample_coordinates bp name (rng m)) as [g1 [[x y] | e |]] eqn:Hs; auto.
    cbn [fst snd]. unfold bind, setitem, modify. cbn [heap rng].
    rewrite Hheap, !update_nth_app_last.
    eexists. split; [reflexivity |].
    exists (JInt x), (JInt y).
    unfold sample_coordinates in Hs. apply bind_Ok_inv in Hs.
    destruct Hs as (xy & g2 & _ & Hret). unfold ret in Hret. inversion Hret; subst.
    pose proof (clamp_range (screen_w bp) (fst xy) Hw).
    pose proof (clamp_range (screen_h bp) (snd xy) Hh).
    split; [| split].
    + rewrite dget_dset_ne by discriminate. apply dget_dset_eq.
    + apply dget_dset_eq.
    + apply within_not_needed; simpl; lia.
  - exists o. split; [exact Hheap | now apply need_false_present].
Qed.

Lemma accepted_dset bp k v (o : pydict (json F)) :
  k <> "x" -> k <> "y" -> accepted bp o -> accepted bp (dset k v o).
Proof.
  intros Hx Hy (vx & vy & H1 & H2 & H3). exists vx, vy.
  rewrite !dget_dset_ne by assumption. auto.
Qed.

(** X15.  On a screen of positive size, the mapping that [validate_or_adjust]
    returns for a coordinate kind holds numbers [x] and [y] that pass the
    bounds test of the function itself; when they are integers they lie in
    [0, width) and [0, height). *)
Theorem validate_or_adjust_coordinates_accepted bp name args (m m' : Mem F) out :
  mem_str name CoordActions = true ->
  0 < screen_w bp -> 0 < screen_h bp ->
  validate_or_adjust bp name args m = (m', Ok out) ->
  exists o vx vy,
    nth_error (heap m') out = Some o /\
    dget "x" o = Some vx /\ dget "y" o = Some vy /\
    need_coordinates bp vx vy = false /\
    (forall n, vx = JInt n -> 0 <= n < screen_w bp) /\
    (forall n, vy = JInt n -> 0 <= n < screen_h bp).
Proof.
  intros Hname Hw Hh Hrun.
  destruct (validate_or_adjust_Ok_inv _ _ _ _ _ _ Hrun) as (a & _ & -> & Hbody).
  assert (Hh1 : hoare (one_new (heap m) (fun _ => True))
                 (adjust_coordinates bp name (List.length (heap m)) ;;;
                  adjust_scroll bp name (List.length (heap m)) ;;;
                  ret (List.length (heap m)))
                 (fun _ => one_new (heap m) (accepted bp)) (fun _ => True)).
  { eapply hoare_bind; [now apply adjust_coordinates_accepted |].
    intros ?. eapply hoare_bind with (Q := fun _ => one_new (heap m) (accepted bp)).
    - eapply hoare_weaken;
        [apply (adjust_scroll_stable bp name (heap m) (accepted bp)) | | |]; auto;
        intros o v; apply accepted_dset; discriminate.
    - intros ?. apply hoare_ret. auto. }
  specialize (Hh1 (mkMem (heap m ++ [a])%list (rng m))).
  rewrite Hbody in Hh1.
  destruct Hh1 as (o & Ho & vx & vy & Hx & Hy & Hneed).
  { exists a. auto. }
  exists o, vx, vy. rewrite Ho, nth_error_app_last.
  destruct (need_false_parts _ _ _ Hneed) as (_ & _ & Hx0 & Hy0 & Hxw & Hyh).
  split; [reflexivity |]. split; [exact Hx |]. split; [exact Hy |].
  split; [exact Hneed |]. split; intros k ->; simpl in *; lia.
Qed.

End ValidateMore.

Section ValidateEdges.

Context {F : Type} {PF : PyFloat F}.

Implicit Types (bp : BehaviorPrior F) (hp : list (pydict (json F))).

(** X16.  For a kind that is neither a coordinate kind nor a scroll kind
    ([type_text_at], [navigate], ...) the result is a new copy of the
    argument mapping (a new empty mapping for [None]); nothing is sampled
    and nothing raises. *)
Theorem validate_or_adjust_other_kinds bp name (m : Mem F) :
  mem_str name CoordActions = false -> mem_str name ScrollActions = false ->
  validate_or_adjust bp name None m
  = (mkMem (heap m ++ [[]])%list (rng m), Ok (List.length (heap m))) /\
  forall r a, nth_error (heap m) r = Some a ->
    validate_or_adjust bp name (Some r) m
    = (mkMem (heap m ++ [a])%list (rng m), Ok (List.length (heap m))).
Proof.
  intros Hc Hs. split.
  - unfold validate_or_adjust, adjust_coordinates, adjust_scroll.
    rewrite Hc, Hs. reflexivity.
  - intros r a Hr. rewrite (validate_or_adjust_start bp name r m a Hr).
    unfold adjust_coordinates, adjust_scroll. rewrite Hc, Hs. reflexivity.
Qed.

(** X17.  A float [x] that compares with no integer (a NaN) passes the bounds
    test: the pair is returned as it is and nothing is sampled. *)
Theorem validate_or_adjust_keeps_nan bp name (r : ref) (m : Mem F)
    (a : pydict (json F)) (ax : F) (vy : json F) :
  mem_str name ScrollActions = false ->
  nth_error (heap m) r = Some a ->
  dget "x" a = Some (JFloat ax) ->
  (forall n, f_cmp_int ax n = None) ->
  dget "y" a = Some vy ->
  isinstance_number vy = true ->
  num_lt vy 0 = false -> num_ge vy (screen_h bp) = false ->
  validate_or_adjust bp name (Some r) m
  = (mkMem (heap m ++ [a])%list (rng m), Ok (List.length (heap m))).
Proof.
  intros Hs Hr Hx Hnan Hy Hiy Hy0 Hyh.
  rewrite (validate_or_adjust_start bp name r m a Hr).
  unfold adjust_coordinates, adjust_scroll. rewrite Hs.
  destruct (mem_str name CoordActions); [| reflexivity].
  unfold bind, deref. cbn [heap]. rewrite nth_error_app_last.
  unfold dict_get. rewrite Hx, Hy.
  unfold need_coordinates. cbn [isinstance_number negb orb]. rewrite Hiy.
  cbn [negb]. unfold num_lt at 1, num_ge at 1. rewrite !Hnan, Hy0, Hyh.
  reflexivity.
Qed.

Lemma sample_scroll_draws bp at_ (g g' : Rng F) dm :
  sample_scroll bp at_ g = (g', Ok dm) ->
  cursor g' = (cursor g + (if at_ then 2 else 1))%nat.
Proof.
  unfold sample_scroll. intros H.
  apply bind_Ok_inv in H. destruct H as (chosen & g1 & Hc & H).
  apply bind_Ok_inv in H. destruct H as (mag & g2 & Hm & H).
  unfold ret in H. inversion H; subst. clear H.
  assert (Hchoice : forall (A : Type) (a0 : A) l (h h' : Rng F) v,
            choice (a0 :: l) h = (h', Ok v) -> cursor h' = S (cursor h)).
  { intros A a0 l h h' v Hv. unfold choice, bind, randbelow, ret in Hv.
    inversion Hv; subst. reflexivity. }
  assert (Hrand : forall lo hi (h h' : Rng F) v,
            randint lo hi h = (h', Ok v) -> cursor h' = S (cursor h)).
  { intros lo hi h h' v Hv. unfold randint in Hv.
    destruct (hi <? lo); [discriminate |].
    unfold bind, randbelow, ret in Hv. inversion Hv; subst. reflexivity. }
  assert (H1 : cursor g1 = S (cursor g)).
  { destruct (dget (if at_ then "scroll_at" else "scroll_document") (action_stats bp))
      as [[c mx my sx sy [[| [d0 c0] rest] |] mg a b n] |];
      try (destruct at_; eapply Hchoice; exact Hc).
    apply bind_Ok_inv in Hc. destruct Hc as (r & g3 & Hr & Hret).
    unfold ret in Hret. inversion Hret; subst. eapply Hrand; exact Hr. }
  destruct at_.
  - assert (H2 : cursor g' = S (cursor g1)).
    { destruct (dget "scroll_at" (action_stats bp))
        as [[c mx my sx sy dc [[| m0 ms] |] a b n] |];
        eapply Hchoice; exact Hm. }
    lia.
  - unfold ret in Hm. inversion Hm; subst. lia.
Qed.

(** X18.  For a scroll kind [sample_scroll] is called before the arguments are
    looked at: a document scroll whose [direction] is valid comes back
    unchanged, and one random draw has been consumed. *)
Theorem validate_or_adjust_scroll_draws bp (r : ref) (m m' : Mem F)
    (a : pydict (json F)) d out :
  nth_error (heap m) r = Some a ->
  dget "direction" a = Some (JStr d) ->
  mem_str d Directions = true ->
  validate_or_adjust bp "scroll_document" (Some r) m = (m', Ok out) ->
  heap m' = (heap m ++ [a])%list /\ out = List.length (heap m) /\
  cursor (rng m') = S (cursor (rng m)).
Proof.
  intros Hr Hd Hin Hrun.
  rewrite (validate_or_adjust_start bp _ r m a Hr) in Hrun.
  unfold adjust_coordinates in Hrun. cbn [mem_str CoordActions existsb String.eqb
    Ascii.eqb Bool.eqb orb andb] in Hrun.
  erewrite bind_Ok in Hrun by reflexivity.
  unfold adjust_scroll in Hrun. cbn [mem_str ScrollActions existsb String.eqb
    Ascii.eqb Bool.eqb orb andb] in Hrun.
  apply bind_Ok_inv in Hrun. destruct Hrun as ([] & m1 & Hrun & Hret).
  unfold ret in Hret. inversion Hret; subst. clear Hret.
  unfold bind at 1 in Hrun. unfold deref in Hrun. cbn [heap] in Hrun.
  rewrite nth_error_app_last in Hrun.
  unfold dict_get in Hrun. rewrite Hd in Hrun.
  apply bind_Ok_inv in Hrun. destruct Hrun as (dm & m2 & Hdm & Hrun).
  unfold not_in_directions in Hrun. rewrite Hin in Hrun.
  cbn [negb] in Hrun. erewrite bind_Ok in Hrun by reflexivity.
  erewrite bind_Ok in Hrun by reflexivity.
  cbn [andb] in Hrun. unfold ret in Hrun. inversion Hrun; subst. clear Hrun.
  unfold with_rng, zoom in Hdm. cbn [rng heap] in Hdm.
  destruct (sample_scroll bp false (rng m)) as [g1 [dm' | e |]] eqn:Hs;
    inversion Hdm; subst.
  cbn [heap rng]. split; [reflexivity |]. split; [reflexivity |].
  rewrite (sample_scroll_draws _ _ _ _ _ Hs). lia.
Qed.

End ValidateEdges.

(* ================================================================= *)
(** ** The collector: guard, file names, policy and transitions *)

Section Suffix.

Lemma substring_all (s : string) : substring 0 (String.length s) s = s.
Proof. induction s as [| c s IH]; simpl; [reflexivity | now rewrite IH]. Qed.

Lemma substring_append_skip (p d : string) :
  substring (String.length p) (String.length d) (p ++ d) = d.
Proof.
  induction p as [| c p IH]; simpl; [apply substring_all | exact IH].
Qed.

Lemma length_append (s t : string) :
  String.length (s ++ t) = (String.length s + String.length t)%nat.
Proof. induction s as [| c s IH]; simpl; [reflexivity | now rewrite IH]. Qed.

Lemma endswith_append (p d : string) : endswith (p ++ d) d = true.
Proof.
  unfold endswith. rewrite length_append.
  replace (String.length p + String.length d - String.length d)%nat
    with (String.length p) by lia.
  rewrite substring_append_skip, String.eqb_refl.
  apply andb_true_iff. split; [apply Nat.leb_le; lia | reflexivity].
Qed.

Lemma substring_split (s : string) (n : nat) :
  (n <= String.length s)%nat ->
  s = substring 0 n s ++ substring n (String.length s - n) s.
Proof.
  revert n. induction s as [| c s IH]; intros [| n] Hn; simpl in *;
    try reflexivity; try lia.
  - now rewrite substring_all.
  - f_equal. apply IH. lia.
Qed.

Lemma endswith_inv (s d : string) :
  endswith s d = true -> exists p, s = p ++ d.
Proof.
  unfold endswith. intros H. apply andb_true_iff in H. destruct H as [Hle Heq].
  apply Nat.leb_le in Hle. apply String.eqb_eq in Heq.
  exists (substring 0 (String.length s - String.length d) s).
  pose proof (substring_split s (String.length s - String.length d)) as H.
  replace (String.length s - (String.length s - String.length d))%nat
    with (String.length d) in H by lia.
  rewrite Heq in H. apply H. lia.
Qed.

Variable urlparse_netloc : string -> option string.

(** X1.  The guard lets a URL pass exactly when there is no whitelist (or an
    empty one), when the URL cannot be parsed, or when some whitelisted
    string is a suffix of the host: the match is on characters, not on
    domain labels. *)
Theorem domain_allowed_iff (u : string) (whitelist : option (list string)) :
  _domain_allowed urlparse_netloc u whitelist = true <->
  whitelist = None \/ whitelist = Some [] \/ urlparse_netloc u = None \/
  exists l host d prefix,
    whitelist = Some l /\ urlparse_netloc u = Some host /\
    In d l /\ host = prefix ++ d.
Proof.
  unfold _domain_allowed. destruct whitelist as [[| d0 l] |].
  - split; auto.
  - destruct (urlparse_netloc u) as [host |].
    + rewrite existsb_exists. split.
      * intros (d & Hin & Hd). apply endswith_inv in Hd. destruct Hd as [p Hp].
        right. right. right. exists (d0 :: l), host, d, p. auto.
      * intros [H | [H | [H | (l' & host' & d & p & Hl & Hh & Hin & Hp)]]];
          try discriminate.
        injection Hl as <-. injection Hh as ->.
        exists d. split; [exact Hin |]. rewrite Hp. apply endswith_append.
    + split; auto.
  - split; auto.
Qed.

End Suffix.

Section FileNames.

(** Reads a string of decimal digits back; leading zeros do not count. *)
Definition read_digits (s : string) : option N :=
  option_map N.of_uint (NilEmpty.uint_of_string s).

Lemma read_digits_zeros (k : nat) (s : string) :
  read_digits (string_of_list_ascii (repeat "0"%char k) ++ s) = read_digits s.
Proof.
  induction k as [| k IH]; [reflexivity |].
  unfold read_digits in *. simpl.
  destruct (NilEmpty.uint_of_string
              (string_of_list_ascii (repeat "0"%char k) ++ s)) as [d |],
           (NilEmpty.uint_of_string s) as [d' |]; simpl in *; congruence.
Qed.

Lemma read_digits_fmt_06d (n : Z) : 0 <= n -> read_digits (fmt_06d n) = Some (Z.to_N n).
Proof.
  intros Hn. unfold fmt_06d.
  destruct (n <? 0) eqn:E; [apply Z.ltb_lt in E; lia |].
  cbv zeta. simpl append. rewrite read_digits_zeros.
  rewrite Z.abs_eq by exact Hn.
  unfold read_digits.
  assert (Hnil : N.to_uint (Z.to_N n) <> Decimal.Nil).
  { destruct (Z.to_N n) as [| p]; [discriminate |].
    apply DecimalPos.Unsigned.to_uint_nonnil. }
  assert (Hs : NilZero.string_of_uint (N.to_uint (Z.to_N n))
               = NilEmpty.string_of_uint (N.to_uint (Z.to_N n))).
  { destruct (N.to_uint (Z.to_N n)); [contradiction | reflexivity ..]. }
  rewrite Hs, NilEmpty.usu. simpl. now rewrite DecimalN.Unsigned.of_to.
Qed.

Lemma fmt_06d_inj (a b : Z) : 0 <= a -> 0 <= b -> fmt_06d a = fmt_06d b -> a = b.
Proof.
  intros Ha Hb H. apply (f_equal read_digits) in H.
  rewrite !read_digits_fmt_06d in H by assumption. inversion H. lia.
Qed.

Lemma append_inj_l (p s t : string) : p ++ s = p ++ t -> s = t.
Proof. induction p as [| c p IH]; simpl; intros H; [exact H |]. inversion H. auto. Qed.

Lemma append_inj_r (s t q : string) : s ++ q = t ++ q -> s = t.
Proof.
  intros H.
  assert (Hlen : String.length s = String.length t).
  { apply (f_equal String.length) in H. rewrite !length_append in H. lia. }
  revert t H Hlen. induction s as [| c s IH]; intros [| c' t] H Hlen;
    simpl in *; try discriminate; [reflexivity |].
  inversion H. f_equal. apply IH; [assumption | lia].
Qed.

Context {F : Type}.

(** X2.  Within an episode directory the screenshots of two different step
    indexes never share a file: the zero-padded index in the name reads
    back as the index. *)
Theorem screenshot_paths_distinct (ep_dir : string) (a b : Z) (png png' : string)
    (w w' : World (F := F)) :
  0 <= a -> 0 <= b ->
  (snd (_save_screenshot ep_dir a png w) = snd (_save_screenshot ep_dir b png' w')
   -> a = b) /\
  (snd (_save_next_screenshot ep_dir a png w)
   = snd (_save_next_screenshot ep_dir b png' w') -> a = b).
Proof.
  intros Ha Hb. unfold _save_screenshot, _save_next_screenshot, bind, log, modify, ret.
  cbn [snd]. split; intros H; inversion H as [Hp];
    apply append_inj_l in Hp; simpl in Hp; inversion Hp as [Hq];
    apply append_inj_r in Hq; now apply fmt_06d_inj.
Qed.

End FileNames.

Section Policy.

Context {F : Type} {PF : PyFloat F}.

Variable Env : Type.
Variable env_call : EnvCall (F := F) -> Env -> Env * result EnvState.
Variable env_screen_size : Env -> Env * result (Z * Z).

Notation Sess' := (Sess (F := F) Env).
Notation _random_action' := (_random_action (F := F) Env env_screen_size).
Notation dispatch' := (dispatch Env env_call).
Notation call' := (call Env env_call).

(** The name under which [dispatch] selects an operation. *)
Definition call_name (c : EnvCall (F := F)) : string :=
  match c with
  | open_web_browser => "open_web_browser"
  | click_at _ _ => "click_at"
  | hover_at _ _ => "hover_at"
  | type_text_at _ _ _ _ _ => "type_text_at"
  | scroll_document _ => "scroll_document"
  | scroll_at _ _ _ _ => "scroll_at"
  | wait_5_seconds => "wait_5_seconds"
  | go_back => "go_back"
  | go_forward => "go_forward"
  | search => "search"
  | navigate _ => "navigate"
  | key_combination _ => "key_combination"
  | drag_and_drop _ _ _ _ => "drag_and_drop"
  | current_state => "current_state"
  end.

(** What the random policy returns on a screen of [W] by [H] pixels. *)
Definition sampled (W H : Z) (a : ActionRecord (F := F)) : Prop :=
  (exists x y,
     (name a = "hover_at" \/ name a = "click_at") /\
     args a = [("x", JInt x); ("y", JInt y)] /\
     10 <= x <= Z.max 10 (W - 10) /\ 80 <= y <= Z.max 80 (H - 10)) \/
  (exists x y d mg,
     name a = "scroll_at" /\
     args a = [("x", JInt x); ("y", JInt y);
               ("direction", JStr d); ("magnitude", JInt mg)] /\
     10 <= x <= Z.max 10 (W - 10) /\ 120 <= y <= Z.max 120 (H - 10) /\
     In d ["up"; "down"] /\ In mg [200; 400; 800]) \/
  (exists d,
     name a = "scroll_document" /\ args a = [("direction", JStr d)] /\
     In d ["up"; "down"]) \/
  (In (name a) ["wait_5_seconds"; "go_back"; "go_forward"; "search"] /\
   args a = []).

Lemma random_Ok_inv {A : Type} (c : M (Rng F) A) (s s' : Sess') v :
  random Env c s = (s', Ok v) ->
  computer s' = computer s /\
  exists g', c (w_rng (world s)) = (g', Ok v).
Proof.
  unfold random, in_world, zoom. intros H.
  destruct (c (w_rng (world s))) as [g' r] eqn:E.
  inversion H; subst. simpl. eauto.
Qed.

Lemma choice_Ok_In {A : Type} (l : list A) (g g' : Rng F) v :
  choice l g = (g', Ok v) -> In v l.
Proof.
  destruct l as [| a l]; [discriminate |]. intros H.
  destruct (choice_returns a l g) as (v' & Hv & Hin). congruence.
Qed.

Lemma random_action_sampled (s s' : Sess') (a : ActionRecord) :
  _random_action' s = (s', Ok a) ->
  exists W H e',
    env_screen_size (computer s) = (e', Ok (W, H)) /\ sampled W H a.
Proof.
  unfold _random_action. intros Hrun.
  apply bind_Ok_inv in Hrun. destruct Hrun as (nm & s1 & Hnm & Hrun).
  apply random_Ok_inv in Hnm. destruct Hnm as (Hc1 & g1 & Hnm).
  apply choice_Ok_In in Hnm.
  apply bind_Ok_inv in Hrun. destruct Hrun as ([W H] & s2 & Hwh & Hrun).
  exists W, H. unfold screen_size in Hwh. rewrite Hc1 in Hwh.
  destruct (env_screen_size (computer s)) as [e' r] eqn:Hsz.
  inversion Hwh; subst. exists e'. split; [reflexivity |]. clear Hwh.
  cbv zeta in Hrun. cbn [fst snd] in Hrun.
  assert (Hr : forall lo hi (t t' : Sess') v,
            random Env (randint lo hi) t = (t', Ok v) -> lo <= v <= hi).
  { intros lo hi t t' v Hv. apply random_Ok_inv in Hv.
    destruct Hv as (_ & g' & Hv). eapply randint_range; eassumption. }
  assert (Hch : forall (A : Type) (l : list A) (t t' : Sess') v,
            random Env (choice l) t = (t', Ok v) -> In v l).
  { intros A l t t' v Hv. apply random_Ok_inv in Hv.
    destruct Hv as (_ & g' & Hv). eapply choice_Ok_In; eassumption. }
  unfold sampled. simpl in Hnm.
  repeat (destruct Hnm as [<- | Hnm]); try contradiction;
    cbn -[Z.max randint choice] in Hrun.
  - (* scroll_document *)
    apply bind_Ok_inv in Hrun. destruct Hrun as (d & t1 & Hd & Hrun).
    unfold lift in Hrun. inversion Hrun; subst.
    right. right. left. exists d. cbn [name args].
    split; [reflexivity |]. split; [reflexivity |]. eapply Hch; eassumption.
  - (* scroll_at *)
    apply bind_Ok_inv in Hrun. destruct Hrun as (x & t1 & Hx & Hrun).
    apply bind_Ok_inv in Hrun. destruct Hrun as (y & t2 & Hy & Hrun).
    apply bind_Ok_inv in Hrun. destruct Hrun as (d & t3 & Hd & Hrun).
    apply bind_Ok_inv in Hrun. destruct Hrun as (mg & t4 & Hmg & Hrun).
    unfold lift in Hrun. inversion Hrun; subst.
    right. left. exists x, y, d, mg. cbn [name args].
    split; [reflexivity |]. split; [reflexivity |].
    split; [eapply Hr; eassumption |]. split; [eapply Hr; eassumption |].
    split; eapply Hch; eassumption.
  - (* hover_at *)
    apply bind_Ok_inv in Hrun. destruct Hrun as (x & t1 & Hx & Hrun).
    apply bind_Ok_inv in Hrun. destruct Hrun as (y & t2 & Hy & Hrun).
    unfold lift in Hrun. inversion Hrun; subst.
    left. exists x, y. cbn [name args].
    split; [auto |]. split; [reflexivity |]. split; eapply Hr; eassumption.
  - (* click_at *)
    apply bind_Ok_inv in Hrun. destruct Hrun as (x & t1 & Hx & Hrun).
    apply bind_Ok_inv in Hrun. destruct Hrun as (y & t2 & Hy & Hrun).
    unfold lift in Hrun. inversion Hrun; subst.
    left. exists x, y. cbn [name args].
    split; [auto |]. split; [reflexivity |]. split; eapply Hr; eassumption.
  - unfold lift in Hrun. inversion Hrun; subst. right. right. right. simpl. tauto.
  - unfold lift in Hrun. inversion Hrun; subst. right. right. right. simpl. tauto.
  - unfold lift in Hrun. inversion Hrun; subst. right. right. right. simpl. tauto.
  - unfold lift in Hrun. inversion Hrun; subst. right. right. right. simpl. tauto.
Qed.

Lemma sampled_name W H (a : ActionRecord) : sampled W H a -> In (name a) acts.
Proof.
  intros [(x & y & [Hn | Hn] & _) | [(x & y & d & mg & Hn & _) |
          [(d & Hn & _) | (Hn & _)]]]; try (rewrite Hn; simpl; tauto).
  simpl in Hn |- *. tauto.
Qed.

(** X3.  The random policy returns one of its eight kinds, with exactly the
    arguments of that kind: coordinates inside the margins of the screen
    size that the environment reports (degenerate to the margin itself on a
    screen smaller than it), a direction among up and down, a magnitude
    among 200, 400 and 800. *)
Theorem random_action_shape (s s' : Sess') (a : ActionRecord) :
  _random_action' s = (s', Ok a) ->
  In (name a) acts /\
  exists W H e',
    env_screen_size (computer s) = (e', Ok (W, H)) /\ sampled W H a.
Proof.
  intros Hrun. destruct (random_action_sampled _ _ _ Hrun) as (W & H & e' & Hsz & Hs).
  split; [eapply sampled_name; eauto | eauto].
Qed.

(** X4.  An action that the random policy returned is dispatched to the
    operation of its own name: no argument is missing (no [KeyError]), so
    the only exceptions the [try] sees come from the environment. *)
Theorem random_action_dispatch (s s' : Sess') (a : ActionRecord) :
  _random_action' s = (s', Ok a) ->
  exists c, call_name c = name a /\ forall s1, dispatch' a s1 = call' c s1.
Proof.
  intros Hrun. destruct (random_action_sampled _ _ _ Hrun) as (W & H & e' & _ & Hs).
  destruct a as [nm ar]. unfold sampled in Hs. simpl in Hs.
  destruct Hs as [(x & y & [Hn | Hn] & Ha & _) | [(x & y & d & mg & Hn & Ha & _) |
                  [(d & Hn & Ha & _) | (Hn & Ha)]]]; subst.
  - exists (hover_at (JInt x) (JInt y)). split; reflexivity.
  - exists (click_at (JInt x) (JInt y)). split; reflexivity.
  - exists (scroll_at (JInt x) (JInt y) (JStr d) (JInt mg)). split; reflexivity.
  - exists (scroll_document (JStr d)). split; reflexivity.
  - simpl in Hn. destruct Hn as [<- | [<- | [<- | [<- | []]]]].
    + exists wait_5_seconds. split; reflexivity.
    + exists go_back. split; reflexivity.
    + exists go_forward. split; reflexivity.
    + exists search. split; reflexivity.
Qed.

End Policy.

Section Transitions.

Context {F : Type} {PF : PyFloat F}.

Variable Env : Type.
Variable env_factory : nat -> result Env.
Variable env_call : EnvCall (F := F) -> Env -> Env * result EnvState.
Variable env_screen_size : Env -> Env * result (Z * Z).
Variable urlparse_netloc : string -> option string.
Variable seed_rng : Z -> Rng F.
Variable uuid4 : nat -> string.
Variable clock_ms : nat -> Z.

Notation Sess' := (Sess (F := F) Env).
Notation collect_step' := (collect_step Env env_call env_screen_size urlparse_netloc clock_ms).
Notation steps_loop' := (steps_loop Env env_call env_screen_size urlparse_netloc clock_ms).
Notation collect_episode' :=
  (collect_episode Env env_factory env_call env_screen_size urlparse_netloc uuid4 clock_ms).
Notation episodes_loop' :=
  (episodes_loop Env env_factory env_call env_screen_size urlparse_netloc uuid4 clock_ms).
Notation collect_episodes' :=
  (collect_episodes Env env_factory env_call env_screen_size urlparse_netloc seed_rng
     uuid4 clock_ms).

(** *** The transitions of an episode *)

(** Each step starts from the observation the previous one ended in. *)
Fixpoint chained (o : Observation) (l : list (StepRecord (F := F))) : Prop :=
  match l with
  | [] => True
  | st :: l' => obs st = o /\ chained (next_obs st) l'
  end.

Definition last_obs (o : Observation) (l : list (StepRecord (F := F))) : Observation :=
  fold_left (fun _ st => next_obs st) l o.

Lemma chained_app o (l : list StepRecord) st :
  chained o l -> obs st = last_obs o l -> chained o (l ++ [st]).
Proof.
  revert o. induction l as [| s0 l IH]; intros o Hc Ho; simpl in *.
  - auto.
  - destruct Hc as [H1 H2]. split; [exact H1 |]. apply IH; assumption.
Qed.

Lemma last_obs_app o (l : list StepRecord) st :
  last_obs o (l ++ [st]) = next_obs st.
Proof. unfold last_obs. now rewrite fold_left_app. Qed.

(** What a recorded step holds besides its action. *)
Definition recorded_in (ep_dir : string) (st : StepRecord (F := F)) : Prop :=
  image_path (next_obs st)
  = (ep_dir ++ "/step_" ++ fmt_06d (step_index st) ++ "_next_obs.png")%string /\
  dom_path (next_obs st) = None /\
  meta st = [].

Lemma collect_step_record cfg ep_dir t (loc loc' : Locals) (s s' : Sess') :
  collect_step' cfg ep_dir t loc s = (s', Ok loc') ->
  exists st,
    acc_steps loc' = (acc_steps loc ++ [st])%list /\
    step_index st = t /\ obs st = cur_obs loc /\ cur_obs loc' = next_obs st /\
    recorded_in ep_dir st /\
    (_domain_allowed urlparse_netloc (url (cur_obs loc)) (whitelist_domains cfg) = true ->
     In (name (action st)) acts).
Proof.
  unfold collect_step. intros H.
  apply bind_Ok_inv in H. destruct H as (r & s1 & Hr & H).
  apply bind_Ok_inv in H. destruct H as (p & s2 & Hp & H).
  apply bind_Ok_inv in H. destruct H as (ts & s3 & _ & H).
  apply bind_Ok_inv in H. destruct H as (rec & s4 & Hrec & H).
  unfold ret in H. inversion H; subst. clear H.
  eexists. split; [reflexivity |]. cbn [step_index obs next_obs cur_obs].
  split; [reflexivity |]. split; [reflexivity |]. split; [reflexivity |].
  split.
  - unfold recorded_in. cbn [step_index next_obs image_path dom_path meta].
    split; [| split; [| reflexivity]].
    + unfold in_world, zoom, _save_next_screenshot, bind, log, modify, ret in Hp.
      inversion Hp; subst. reflexivity.
    + unfold _maybe_get_dom_snapshot. destruct (save_dom cfg); reflexivity.
  - intros Hallow. rewrite Hallow in Hr. cbn [negb] in Hr. cbn [action].
    apply bind_Ok_inv in Hr. destruct Hr as (a & t1 & Ha & Hr).
    apply bind_Ok_inv in Hr. destruct Hr as (ns & t2 & _ & Hr).
    unfold ret in Hr. inversion Hr; subst. cbn [snd] in Hrec.
    unfold ret in Hrec. inversion Hrec; subst.
    destruct (random_action_sampled _ _ _ _ _ Ha) as (W & H & e' & _ & Hs).
    eapply sampled_name; eauto.
Qed.

(** What the step loop keeps. *)
Definition walked (cfg : CollectConfig) (ep_dir : string) (o0 : Observation)
    (loc : Locals (F := F)) : Prop :=
  chained o0 (acc_steps loc) /\
  cur_obs loc = last_obs o0 (acc_steps loc) /\
  Forall (recorded_in ep_dir) (acc_steps loc) /\
  ((forall u, _domain_allowed urlparse_netloc u (whitelist_domains cfg) = true) ->
   Forall (fun st => In (name (action st)) acts) (acc_steps loc)).

Lemma steps_loop_walked cfg ep_dir o0 (ts : list Z) :
  forall (loc loc' : Locals) (s s' : Sess'),
    walked cfg ep_dir o0 loc ->
    steps_loop' cfg ep_dir ts loc s = (s', Ok loc') ->
    walked cfg ep_dir o0 loc'.
Proof.
  induction ts as [| t ts IH]; intros loc loc' s s' Hw H; simpl in H.
  - inversion H; subst. exact Hw.
  - apply bind_Ok_inv in H. destruct H as (loc1 & s1 & Hstep & Hrest).
    refine (IH _ _ _ _ _ Hrest).
    destruct (collect_step_record _ _ _ _ _ _ _ Hstep)
      as (st & Hacc & _ & Hobs & Hcur & Hrec & Hname).
    destruct Hw as (Hch & Hlast & Hall & Hsampled).
    unfold walked. rewrite Hacc, last_obs_app.
    split; [apply chained_app; [exact Hch | congruence] |].
    split; [exact Hcur |].
    split; [apply Forall_app; split; [exact Hall | constructor; [exact Hrec | constructor]] |].
    intros Hallow. apply Forall_app. split; [auto |].
    constructor; [apply Hname, Hallow | constructor].
Qed.

(** What holds of the [k]-th episode of a run. *)
Definition episode_walked (cfg : CollectConfig) (k : nat)
    (ep : EpisodeRecord (F := F)) : Prop :=
  let ep_dir := (output_dir cfg ++ "/episodes/" ++ uuid4 k)%string in
  episode_id ep = uuid4 k /\
  (exists o0,
     chained o0 (steps ep) /\
     image_path o0 = (ep_dir ++ "/step_000000_obs.png")%string /\
     dom_path o0 = None) /\
  Forall (recorded_in ep_dir) (steps ep) /\
  ((forall u, _domain_allowed urlparse_netloc u (whitelist_domains cfg) = true) ->
   Forall (fun st => In (name (action st)) acts) (steps ep)).

Lemma collect_episode_walked cfg k act (w w' : World) ep act' :
  collect_episode' cfg k act w = (w', Ok (ep, act')) ->
  episode_walked cfg k ep.
Proof.
  unfold collect_episode. intros H.
  apply bind_Ok_inv in H. destruct H as ([] & w1 & _ & H).
  apply bind_Ok_inv in H. destruct H as (loc & w2 & Hwith & H).
  apply bind_Ok_inv in H. destruct H as (p & w3 & _ & H).
  unfold ret in H. inversion H; subst. clear H.
  unfold with_env in Hwith. destruct (env_factory k) as [e | ex |]; try discriminate.
  destruct (log (ev_enter k) w1) as [w1' r1].
  match type of Hwith with
  | (let (s', r) := ?body ?s0 in _) = _ =>
      destruct (body s0) as [s' r] eqn:Hbody
  end.
  destruct (log (ev_exit k) (world s')) as [w2' r2].
  inversion Hwith; subst. clear Hwith.
  apply bind_Ok_inv in Hbody. destruct Hbody as (st & s1 & _ & Hbody).
  apply bind_Ok_inv in Hbody. destruct Hbody as (p1 & s2 & Hp1 & Hbody).
  apply bind_Ok_inv in Hbody. destruct Hbody as (ts & s3 & _ & Hbody).
  assert (Hpath : p1 = ((output_dir cfg ++ "/episodes/" ++ uuid4 k)
                        ++ "/step_000000_obs.png")%string).
  { unfold in_world, zoom, _save_screenshot, bind, log, modify, ret in Hp1.
    apply (f_equal snd) in Hp1. cbn [snd] in Hp1.
    injection Hp1 as <-. reflexivity. }
  match type of Hbody with
  | steps_loop _ _ _ _ _ _ ?dir _ (mkLocals ?o _ _) _ = _ =>
      assert (Hinit : walked cfg dir o (mkLocals o act []))
        by (unfold walked; cbn [acc_steps cur_obs]; repeat split; constructor);
      pose proof (steps_loop_walked cfg dir o _ _ _ _ _ Hinit Hbody) as Hw
  end.
  destruct Hw as (Hch & _ & Hall & Hs). unfold episode_walked.
  cbn [episode_id steps]. split; [reflexivity |].
  split; [| split; [exact Hall | exact Hs]].
  eexists. split; [exact Hch |]. cbn [image_path dom_path].
  split; [exact Hpath |].
  unfold _maybe_get_dom_snapshot. destruct (save_dom cfg); reflexivity.
Qed.

Lemma episodes_loop_walked cfg (ks : list nat) :
  forall act (acc eps : list EpisodeRecord) (w w' : World),
    episodes_loop' cfg ks act acc w = (w', Ok eps) ->
    exists new, eps = (acc ++ new)%list /\ Forall2 (episode_walked cfg) ks new.
Proof.
  induction ks as [| k ks IH]; intros act acc eps w w' H; simpl in H.
  - inversion H; subst. exists []. rewrite app_nil_r. split; [reflexivity | constructor].
  - apply bind_Ok_inv in H. destruct H as ([ep act'] & w1 & Hep & Hrest).
    apply IH in Hrest. destruct Hrest as (new & -> & Hall).
    exists (ep :: new). rewrite <- app_assoc. split; [reflexivity |].
    constructor; [| exact Hall]. eapply collect_episode_walked; eauto.
Qed.

Lemma collect_episodes_walked cfg (w w' : World) eps :
  collect_episodes' cfg w = (w', Ok eps) ->
  Forall2 (episode_walked cfg) (seq 0 (Z.to_nat (episodes cfg))) eps.
Proof.
  unfold collect_episodes. intros H.
  apply bind_Ok_inv in H. destruct H as ([] & w1 & _ & H).
  apply bind_Ok_inv in H. destruct H as ([] & w2 & _ & H).
  apply episodes_loop_walked in H. destruct H as (new & -> & Hall). exact Hall.
Qed.

(** X5.  In every episode that [collect_episodes] returns, the [k]-th one
    carries the [k]-th identifier, its steps form a chain (each [obs] is the
    [next_obs] of the step before, the first one the observation saved as
    [step_000000_obs.png]), every [next_obs] names the file
    [step_<index>_next_obs.png] of the episode directory, and no
    observation has a DOM path, whatever [save_dom] says. *)
Theorem collect_episodes_transitions cfg (w w' : World) eps :
  collect_episodes' cfg w = (w', Ok eps) ->
  Forall2
    (fun k ep =>
       let ep_dir := (output_dir cfg ++ "/episodes/" ++ uuid4 k)%string in
       episode_id ep = uuid4 k /\
       (exists o0,
          chained o0 (steps ep) /\
          image_path o0 = (ep_dir ++ "/step_000000_obs.png")%string /\
          dom_path o0 = None) /\
       Forall (recorded_in ep_dir) (steps ep))
    (seq 0 (Z.to_nat (episodes cfg))) eps.
Proof.
  intros H. apply collect_episodes_walked in H.
  induction H as [| k ep ks eps' Hk _ IH]; constructor; [| exact IH].
  destruct Hk as (H1 & H2 & H3 & _). auto.
Qed.

(** X6.  Without a whitelist ([None] or an empty list) the guard never fires:
    every recorded action is one the random policy sampled, of one of its
    eight kinds. *)
Theorem collect_without_whitelist_samples cfg (w w' : World) eps :
  whitelist_domains cfg = None \/ whitelist_domains cfg = Some [] ->
  collect_episodes' cfg w = (w', Ok eps) ->
  forall ep st, In ep eps -> In st (steps ep) -> In (name (action st)) acts.
Proof.
  intros Hwl H ep st Hep Hst. apply collect_episodes_walked in H.
  assert (Hallow : forall u,
            _domain_allowed urlparse_netloc u (whitelist_domains cfg) = true).
  { intros u. unfold _domain_allowed. destruct Hwl as [-> | ->]; reflexivity. }
  assert (Hall : Forall (fun ep => Forall (fun st => In (name (action st)) acts)
                                     (steps ep)) eps).
  { clear Hep. induction H as [| k ep' ks eps' Hk _ IH]; constructor; [| exact IH].
    destruct Hk as (_ & _ & _ & Hs). apply Hs, Hallow. }
  rewrite Forall_forall in Hall. specialize (Hall ep Hep).
  rewrite Forall_forall in Hall. apply Hall, Hst.
Qed.

End Transitions.

(* ================================================================= *)
(** ** [validate_or_adjust]: the scroll kinds *)

Section ScrollRepair.

Context {F : Type} {PF : PyFloat F}.

Implicit Types (bp : BehaviorPrior F) (hp : list (pydict (json F))).

(** Whatever the prior, what [sample_scroll] returns comes from the
    lists it chooses from. *)
Lemma sample_scroll_choices bp at_ (g g' : Rng F) dir mag :
  sample_scroll bp at_ g = (g', Ok (dir, mag)) ->
  In dir (direction_choices bp at_) /\ In mag (magnitude_choices bp at_).
Proof.
  unfold sample_scroll, direction_choices, magnitude_choices. intros H.
  apply bind_Ok_inv in H. destruct H as (chosen & g1 & Hc & H).
  apply bind_Ok_inv in H. destruct H as (m & g2 & Hm & H).
  unfold ret in H. inversion H; subst. clear H. split.
  - destruct (dget (if at_ then "scroll_at" else "scroll_document") (action_stats bp))
      as [[c mx my sx sy [[| [d0 c0] rest] |] mg a b n] |];
      try (destruct at_; eapply choice_Ok_In; eassumption).
    apply bind_Ok_inv in Hc. destruct Hc as (r & g3 & _ & Hret).
    unfold ret in Hret. inversion Hret; subst.
    destruct (pick_direction_In r 0 ((d0, c0) :: rest) d0) as [H | H];
      [left; exact H | exact H].
  - destruct at_.
    + destruct (dget "scroll_at" (action_stats bp))
        as [[c mx my sx sy dc [[| m0 ms] |] a b n] |];
        eapply choice_Ok_In; eassumption.
    + unfold ret in Hm. inversion Hm; subst. now left.
Qed.

(** What a scroll kind needs in its arguments. *)
Definition scroll_filled bp (name : string) (o : pydict (json F)) : Prop :=
  (exists d,
     dget "direction" o = Some (JStr d) /\
     (mem_str d Directions = true \/
      In d (direction_choices bp (String.eqb name "scroll_at")))) /\
  (name = "scroll_at" ->
   exists v n, dget "magnitude" o = Some v /\ as_int v = Some n).

Lemma adjust_scroll_filled bp name hp :
  mem_str name ScrollActions = true ->
  hoare (one_new hp (fun _ => True)) (adjust_scroll bp name (List.length hp))
        (fun _ => one_new hp (scroll_filled bp name)) (fun _ => True).
Proof.
  intros Hname m (o & Hheap & _). unfold adjust_scroll. rewrite Hname.
  unfold bind at 1. unfold deref. rewrite Hheap, nth_error_app_last.
  unfold bind at 1. unfold with_rng, zoom.
  destruct (sample_scroll bp (String.eqb name "scroll_at") (rng m))
    as [g1 [[dir mag] | e |]] eqn:Hs; auto.
  destruct (sample_scroll_choices _ _ _ _ _ _ Hs) as [Hdir Hmag].
  cbn [fst snd].
  unfold bind at 1. unfold lift.
  destruct (not_in_directions (dict_get o "direction")) as [rep | e |] eqn:Hnot; auto.
  (* the direction after the first write *)
  set (o1 := if rep then dset "direction" (JStr dir) o else o).
  assert (Ho1 : exists d, dget "direction" o1 = Some (JStr d) /\
                  (mem_str d Directions = true \/
                   In d (direction_choices bp (String.eqb name "scroll_at")))).
  { unfold o1. destruct rep.
    - exists dir. rewrite dget_dset_eq. auto.
    - unfold not_in_directions, dict_get in Hnot.
      destruct (dget "direction" o) as [[| b | n | a | s | l | d] |];
        try discriminate.
      exists s. split; [reflexivity |]. left.
      inversion Hnot as [Hn]. now destruct (mem_str s Directions). }
  assert (Hstep : (if rep then setitem (List.length hp) "direction" (JStr dir)
                   else ret tt)
                    (mkMem (heap m) g1)
                  = (mkMem (hp ++ [o1])%list g1, Ok tt)).
  { unfold o1. destruct rep; [| unfold ret; now rewrite Hheap].
    unfold setitem, modify. cbn [heap rng].
    now rewrite Hheap, update_nth_app_last. }
  rewrite (bind_Ok _ _ _ _ _ Hstep).
  unfold scroll_filled.
  destruct (String.eqb name "scroll_at") eqn:Hat; cbn [andb].
  - destruct (is_int (dict_get o "magnitude")) eqn:Hint; cbn [negb].
    + exists o1. split; [reflexivity |]. split; [exact Ho1 |]. intros _.
      unfold is_int, dict_get in Hint.
      assert (Hsame : dget "magnitude" o1 = dget "magnitude" o).
      { unfold o1. destruct rep; [apply dget_dset_ne; discriminate | reflexivity]. }
      rewrite Hsame. destruct (dget "magnitude" o) as [v |]; [| discriminate].
      destruct (as_int v) as [n |] eqn:Hv; [| discriminate]. eauto.
    + unfold setitem, modify. cbn [heap rng]. rewrite update_nth_app_last.
      eexists. split; [reflexivity |]. split.
      * destruct Ho1 as (d & Hd & Hok). exists d.
        rewrite dget_dset_ne by discriminate. auto.
      * intros _. exists (JInt mag), mag. rewrite dget_dset_eq. auto.
  - exists o1. split; [reflexivity |]. split; [exact Ho1 |].
    intros ->. discriminate.
Qed.

(** X22.  Whenever [validate_or_adjust] returns for a scroll kind, the mapping
    it returns has a string [direction], one of up, down, left and right or
    else one that [sample_scroll] chooses from, and for [scroll_at] an
    integer [magnitude]. *)
Theorem validate_or_adjust_scroll_filled bp name args (m m' : Mem F) out :
  mem_str name ScrollActions = true ->
  validate_or_adjust bp name args m = (m', Ok out) ->
  exists o d,
    nth_error (heap m') out = Some o /\
    dget "direction" o = Some (JStr d) /\
    (mem_str d Directions = true \/
     In d (direction_choices bp (String.eqb name "scroll_at"))) /\
    (name = "scroll_at" ->
     exists v n, dget "magnitude" o = Some v /\ as_int v = Some n).
Proof.
  intros Hname Hrun.
  destruct (validate_or_adjust_Ok_inv _ _ _ _ _ _ Hrun) as (a & _ & -> & Hbody).
  assert (Hh1 : hoare (one_new (heap m) (fun _ => True))
                 (adjust_coordinates bp name (List.length (heap m)) ;;;
                  adjust_scroll bp name (List.length (heap m)) ;;;
                  ret (List.length (heap m)))
                 (fun _ => one_new (heap m) (scroll_filled bp name)) (fun _ => True)).
  { eapply hoare_bind with (Q := fun _ => one_new (heap m) (fun _ => True)).
    - eapply hoare_weaken;
        [apply (adjust_coordinates_stable bp name (heap m) (fun _ => True)) | | |];
        auto.
    - intros ?. eapply hoare_bind; [now apply adjust_scroll_filled |].
      intros ?. apply hoare_ret. auto. }
  specialize (Hh1 (mkMem (heap m ++ [a])%list (rng m))).
  rewrite Hbody in Hh1.
  destruct Hh1 as (o & Ho & (d & Hd & Hok) & Hmag).
  { exists a. auto. }
  exists o, d. rewrite Ho, nth_error_app_last. auto.
Qed.

(** X23.  A direction histogram that is not empty but whose counts add up to
    nothing (a snapshot written by hand: a fit never produces one) makes
    [sample_scroll] raise [ValueError], and with it every
    [validate_or_adjust] of a document scroll, also one whose arguments
    need no repair. *)
Theorem sample_scroll_empty_range bp (st : ActionStats F) d0 c0 rest :
  dget "scroll_document" (action_stats bp) = Some st ->
  direction_counts st = Some ((d0, c0) :: rest) ->
  sum_counts ((d0, c0) :: rest) <= 0 ->
  (forall g, sample_scroll bp false g = (g, Raise (Exception "ValueError"))) /\
  (forall (r : ref) (m : Mem F) a,
     nth_error (heap m) r = Some a ->
     validate_or_adjust bp "scroll_document" (Some r) m
     = (mkMem (heap m ++ [a])%list (rng m), Raise (Exception "ValueError"))).
Proof.
  intros Hst Hdc Hsum.
  assert (Hs : forall g, sample_scroll bp false g = (g, Raise (Exception "ValueError"))).
  { intros g. unfold sample_scroll. rewrite Hst.
    destruct st as [c mx my sx sy dc mg a b n]. cbn [direction_counts] in Hdc.
    subst dc. unfold bind at 1. unfold bind at 1. unfold randint.
    destruct (sum_counts ((d0, c0) :: rest) <? 1) eqn:E; [reflexivity |].
    apply Z.ltb_ge in E. lia. }
  split; [exact Hs |].
  intros r m a Hr. rewrite (validate_or_adjust_start bp _ r m a Hr).
  unfold adjust_coordinates. cbn [mem_str CoordActions existsb String.eqb
    Ascii.eqb Bool.eqb orb andb].
  erewrite bind_Ok by reflexivity.
  unfold adjust_scroll. cbn [mem_str ScrollActions existsb String.eqb
    Ascii.eqb Bool.eqb orb andb].
  unfold bind, deref. cbn [heap]. rewrite nth_error_app_last.
  unfold with_rng, zoom. cbn [rng heap]. rewrite Hs. reflexivity.
Qed.

End ScrollRepair.

(* ================================================================= *)
(** ** The collector: the trace of a run *)

Section Trace.

Context {F : Type} {PF : PyFloat F}.

Variable Env : Type.
Variable env_factory : nat -> result Env.
Variable env_call : EnvCall (F := F) -> Env -> Env * result EnvState.
Variable env_screen_size : Env -> Env * result (Z * Z).
Variable urlparse_netloc : string -> option string.
Variable seed_rng : Z -> Rng F.
Variable uuid4 : nat -> string.
Variable clock_ms : nat -> Z.

Notation Sess' := (Sess (F := F) Env).
Notation collect_step' := (collect_step Env env_call env_screen_size urlparse_netloc clock_ms).
Notation steps_loop' := (steps_loop Env env_call env_screen_size urlparse_netloc clock_ms).
Notation collect_episode' :=
  (collect_episode Env env_factory env_call env_screen_size urlparse_netloc uuid4 clock_ms).
Notation episodes_loop' :=
  (episodes_loop Env env_factory env_call env_screen_size urlparse_netloc uuid4 clock_ms).
Notation collect_episodes' :=
  (collect_episodes Env env_factory env_call env_screen_size urlparse_netloc seed_rng
     uuid4 clock_ms).
Notation _random_action' := (_random_action (F := F) Env env_screen_size).
Notation dispatch' := (dispatch Env env_call).
Notation call' := (call Env env_call).

(** The files written, and the environments entered and left, in the
    order of the trace. *)
Definition writes (evs : list event) : list string :=
  flat_map (fun e => match e with ev_write p => [p] | _ => [] end) evs.

Definition sessions (evs : list event) : list event :=
  filter (fun e => match e with ev_enter _ | ev_exit _ => true | _ => false end) evs.

(** The trace has grown from [evs0] by events that satisfy [Q]. *)
Definition grown (Q : event -> Prop) (evs0 : list event) (s : Sess') : Prop :=
  exists l, w_events (world s) = (evs0 ++ l)%list /\ Forall Q l.

(** [c] keeps [G], however it ends. *)
Definition steady {S A : Type} (G : S -> Prop) (c : M S A) : Prop :=
  forall s, G s -> G (fst (c s)).

Lemma steady_bind {S A B : Type} (G : S -> Prop) (c : M S A) (k : A -> M S B) :
  steady G c -> (forall a, steady G (k a)) -> steady G (bind c k).
Proof.
  intros Hc Hk s Hs. unfold bind. specialize (Hc s Hs).
  destruct (c s) as [s1 [a | e |]]; simpl in *; auto. now apply Hk.
Qed.

Lemma steady_ret {S A : Type} (G : S -> Prop) (a : A) : steady G (ret a).
Proof. intros s Hs. exact Hs. Qed.

Lemma steady_lift {S A : Type} (G : S -> Prop) (r : result A) : steady G (lift r).
Proof. intros s Hs. exact Hs. Qed.

Lemma steady_try_except {S A : Type} (G : S -> Prop) (body handler : M S A) :
  steady G body -> steady G handler -> steady G (try_except body handler).
Proof.
  intros Hb Hh s Hs. unfold try_except. specialize (Hb s Hs).
  destruct (body s) as [s1 [a | [cls | cls] |]]; simpl in *; auto.
Qed.

Section Grown.

Variable Q : event -> Prop.
Variable evs0 : list event.

Lemma steady_random {A : Type} (c : M (Rng F) A) : steady (grown Q evs0) (random Env c).
Proof.
  intros s Hs. unfold random, in_world, zoom.
  destruct (c (w_rng (world s))) as [g r]. exact Hs.
Qed.

Lemma steady_call (c : EnvCall) : steady (grown Q evs0) (call' c).
Proof.
  intros s Hs. unfold call. destruct (env_call c (computer s)) as [e r]. exact Hs.
Qed.

Lemma steady_screen_size :
  steady (grown Q evs0) (screen_size (F := F) Env env_screen_size).
Proof.
  intros s Hs. unfold screen_size.
  destruct (env_screen_size (computer s)) as [e r]. exact Hs.
Qed.

Lemma steady_log (e : event) : Q e -> steady (grown Q evs0) (in_world Env (log e)).
Proof.
  intros He s (l & Hl & HQ). unfold in_world, zoom, log, modify. simpl.
  exists (l ++ [e])%list. rewrite Hl, app_assoc. split; [reflexivity |].
  apply Forall_app. split; [exact HQ | constructor; [exact He | constructor]].
Qed.

Lemma steady_ts_ms : steady (grown Q evs0) (in_world Env (_ts_ms clock_ms)).
Proof. intros s Hs. exact Hs. Qed.

Lemma steady_random_action : steady (grown Q evs0) _random_action'.
Proof.
  unfold _random_action.
  apply steady_bind; [apply steady_random |]. intros nm.
  apply steady_bind; [apply steady_screen_size |]. intros wh. cbv zeta.
  repeat match goal with
         | |- steady _ (if ?c then _ else _) => destruct c
         end;
    repeat first [ apply steady_lift
                 | apply steady_bind; [apply steady_random | intros ?] ].
Qed.

Lemma steady_dispatch (a : ActionRecord) : steady (grown Q evs0) (dispatch' a).
Proof.
  unfold dispatch.
  repeat match goal with
         | |- steady _ (if ?c then _ else _) => destruct c
         end;
    repeat first [ apply steady_call
                 | apply steady_bind; [apply steady_lift | intros ?] ].
Qed.

(** The part of a step that yields the next state and the local
    [action]. *)
Lemma steady_step_head cfg (loc : Locals) :
  Q (ev_sleep_ms 500) ->
  steady (grown Q evs0)
    (if negb (_domain_allowed urlparse_netloc (url (cur_obs loc)) (whitelist_domains cfg))
     then
       next_state <- call' (navigate (JStr (initial_url cfg))) ;;
       ret (next_state, last_action loc)
     else
       a <- _random_action' ;;
       next_state <-
         try_except (dispatch' a)
           (in_world Env (log (ev_sleep_ms 500)) ;;; call' current_state) ;;
       ret (next_state, Some a)).
Proof.
  intros Hsleep.
  destruct (negb (_domain_allowed urlparse_netloc (url (cur_obs loc))
                    (whitelist_domains cfg))).
  - apply steady_bind; [apply steady_call | intros ?; apply steady_ret].
  - apply steady_bind; [apply steady_random_action |]. intros a.
    apply steady_bind; [| intros ?; apply steady_ret].
    apply steady_try_except; [apply steady_dispatch |].
    apply steady_bind; [now apply steady_log | intros ?; apply steady_call].
Qed.

Lemma steady_collect_step cfg ep_dir t (loc : Locals) :
  Q (ev_sleep_ms 500) ->
  Q (ev_write (ep_dir ++ "/step_" ++ fmt_06d t ++ "_next_obs.png")) ->
  steady (grown Q evs0) (collect_step' cfg ep_dir t loc).
Proof.
  intros Hsleep Hwrite. unfold collect_step.
  apply steady_bind; [now apply steady_step_head |]. intros r. cbv zeta.
  apply steady_bind.
  { unfold _save_next_screenshot. intros s Hs.
    apply (steady_log _ Hwrite s Hs). }
  intros p. apply steady_bind; [apply steady_ts_ms |]. intros ts.
  apply steady_bind; [| intros ?; apply steady_ret].
  destruct (snd r); [apply steady_ret | apply steady_lift].
Qed.

End Grown.

(** *** The environments are released *)

Definition quiet (e : event) : Prop :=
  match e with
  | ev_enter _ | ev_exit _ => False
  | _ => True
  end.

Lemma sessions_app (l l' : list event) :
  sessions (l ++ l') = (sessions l ++ sessions l')%list.
Proof. unfold sessions. apply filter_app. Qed.

Lemma sessions_quiet (l : list event) : Forall quiet l -> sessions l = [].
Proof.
  induction 1 as [| e l He _ IH]; [reflexivity |].
  simpl. destruct e; simpl in He; try contradiction; exact IH.
Qed.

Lemma steady_steps_loop evs0 cfg ep_dir (ts : list Z) :
  forall loc : Locals, steady (grown quiet evs0) (steps_loop' cfg ep_dir ts loc).
Proof.
  induction ts as [| t ts IH]; intros loc; simpl.
  - apply steady_ret.
  - apply steady_bind; [apply steady_collect_step; exact I | intros loc'; apply IH].
Qed.

(** One episode, however it ends: either its environment was entered and
    left, or it was not made and the episode did not return. *)
Lemma collect_episode_sessions cfg k act (w : World) :
  exists b : bool,
    sessions (w_events (fst (collect_episode' cfg k act w)))
    = (sessions (w_events w) ++ (if b then [ev_enter k; ev_exit k] else []))%list /\
    (forall r, snd (collect_episode' cfg k act w) = Ok r -> b = true).
Proof.
  unfold collect_episode.
  erewrite bind_Ok by reflexivity.
  set (w1 := mkWorld (w_rng w)
               (w_events w ++ [ev_mkdir (output_dir cfg ++ "/episodes/" ++ uuid4 k)])
               (w_ticks w)).
  change (fst (log (ev_mkdir (output_dir cfg ++ "/episodes/" ++ uuid4 k)) w)) with w1.
  assert (Hw1 : sessions (w_events w1) = sessions (w_events w)).
  { unfold w1. cbn [w_events]. rewrite sessions_app. simpl. apply app_nil_r. }
  unfold bind at 1. unfold with_env at 1.
  destruct (env_factory k) as [e | ex |] eqn:Hf.
  - match goal with
    | |- context [let (_, _) := log ?ev ?w0 in _] =>
        change (log ev w0)
          with (mkWorld (w_rng w0) (w_events w0 ++ [ev])%list (w_ticks w0), Ok tt);
        cbv beta iota
    end.
    match goal with
    | |- context [let (s', r) := ?body ?s0 in _] =>
        assert (Hb : steady (grown quiet (w_events w1 ++ [ev_enter k])) body);
        [| pose proof (Hb s0) as Hs; destruct (body s0) as [s' r] eqn:Hbody]
    end.
    { apply steady_bind; [apply steady_call |]. intros st.
      apply steady_bind.
      { unfold _save_screenshot. intros s Hs.
        apply (steady_log quiet _ (ev_write _) I s Hs). }
      intros p. apply steady_bind; [apply steady_ts_ms |]. intros ts.
      apply steady_steps_loop. }
    cbn [log modify fst snd] in *.
    destruct Hs as (l & Hl & Hq).
    { exists []. cbn [world w_events]. rewrite app_nil_r. split; [reflexivity | constructor]. }
    exists true. cbn [fst] in Hl.
    assert (Hfinal : sessions (w_events (world s') ++ [ev_exit k])
                     = (sessions (w_events w) ++ [ev_enter k; ev_exit k])%list).
    { rewrite Hl, !sessions_app, (sessions_quiet l Hq), Hw1. simpl.
      rewrite <- !app_assoc. reflexivity. }
    destruct r as [loc | ex |]; cbn [fst snd w_events];
      split; try exact Hfinal; try (intros; reflexivity).
    cbv [bind _save_json log modify ret fst]. cbn [w_events].
    rewrite sessions_app, Hfinal. simpl. apply app_nil_r.
  - exists false. cbn [fst snd]. rewrite app_nil_r.
    split; [exact Hw1 | intros r Hr; unfold bind at 1 in Hr; unfold with_env at 1 in Hr;
                       rewrite Hf in Hr; cbn [snd] in Hr; discriminate Hr].
  - exists false. cbn [fst snd]. rewrite app_nil_r.
    split; [exact Hw1 | intros r Hr; unfold bind at 1 in Hr; unfold with_env at 1 in Hr;
                       rewrite Hf in Hr; cbn [snd] in Hr; discriminate Hr].
Qed.

Definition session_of (k : nat) : list event := [ev_enter k; ev_exit k].

Lemma episodes_loop_sessions cfg (ks : list nat) :
  forall act acc (w : World),
    exists ks1 ks2,
      ks = (ks1 ++ ks2)%list /\
      sessions (w_events (fst (episodes_loop' cfg ks act acc w)))
      = (sessions (w_events w) ++ flat_map session_of ks1)%list /\
      (forall eps, snd (episodes_loop' cfg ks act acc w) = Ok eps -> ks2 = []).
Proof.
  induction ks as [| k ks IH]; intros act acc w; simpl.
  - exists [], []. simpl. rewrite app_nil_r. auto.
  - destruct (collect_episode_sessions cfg k act w) as (b & Hb & Hok).
    unfold bind.
    destruct (collect_episode' cfg k act w) as [w1 [[ep act'] | ex |]] eqn:Hep;
      cbn [fst snd] in *.
    + rewrite (Hok _ eq_refl) in Hb.
      destruct (IH act' (acc ++ [ep])%list w1) as (ks1 & ks2 & -> & Hs & Hfin).
      exists (k :: ks1), ks2. split; [reflexivity |].
      split; [| exact Hfin].
      rewrite Hs, Hb. simpl. rewrite <- app_assoc. reflexivity.
    + exists (if b then [k] else []), (if b then ks else k :: ks).
      split; [destruct b; reflexivity |].
      split; [| discriminate]. rewrite Hb. destruct b; simpl; reflexivity.
    + exists (if b then [k] else []), (if b then ks else k :: ks).
      split; [destruct b; reflexivity |].
      split; [| discriminate]. rewrite Hb. destruct b; simpl; reflexivity.
Qed.

Lemma seq_prefix (n : nat) (ks1 ks2 : list nat) :
  seq 0 n = (ks1 ++ ks2)%list ->
  ks1 = seq 0 (List.length ks1) /\ (List.length ks1 <= n)%nat.
Proof.
  intros H.
  assert (Hlen : (List.length ks1 <= n)%nat).
  { apply (f_equal (@List.length nat)) in H. rewrite length_seq, length_app in H. lia. }
  split; [| exact Hlen].
  replace n with (List.length ks1 + (n - List.length ks1))%nat in H by lia.
  rewrite seq_app in H.
  apply (f_equal (firstn (List.length ks1))) in H.
  rewrite !firstn_app, firstn_all, Nat.sub_diag, firstn_O, app_nil_r in H.
  rewrite length_seq, Nat.sub_diag, firstn_O, app_nil_r in H.
  rewrite <- H at 1. apply firstn_all2. rewrite length_seq. lia.
Qed.

(** X21.  However [collect_episodes] ends, returning or raising, every
    environment it entered has been left, each before the next one is
    entered; the environments are entered in order, and when the run
    returns all [cfg.episodes] of them were. *)
Theorem collect_episodes_releases cfg (w : World) :
  exists j,
    (j <= Z.to_nat (episodes cfg))%nat /\
    sessions (w_events (fst (collect_episodes' cfg w)))
    = (sessions (w_events w)
       ++ flat_map (fun k => [ev_enter k; ev_exit k]) (seq 0 j))%list /\
    (forall eps, snd (collect_episodes' cfg w) = Ok eps ->
                 j = Z.to_nat (episodes cfg)).
Proof.
  unfold collect_episodes.
  erewrite bind_Ok by reflexivity. erewrite bind_Ok by reflexivity.
  match goal with
  | |- context [episodes_loop _ _ _ _ _ _ _ _ ?ks ?act ?acc ?w0] =>
      destruct (episodes_loop_sessions cfg ks act acc w0) as (ks1 & ks2 & Hks & Hs & Hfin)
  end.
  destruct (seq_prefix _ _ _ Hks) as [Hpre Hle].
  exists (List.length ks1). split; [exact Hle |]. split.
  - rewrite Hs. cbn [log modify fst w_events]. rewrite sessions_app. simpl.
    rewrite app_nil_r, <- Hpre. reflexivity.
  - intros eps Heps. specialize (Hfin eps Heps). subst ks2.
    rewrite app_nil_r in Hks. rewrite <- Hks. now rewrite length_seq.
Qed.

(** *** The files of a run *)

Definition episode_files (cfg : CollectConfig) (k : nat) : list string :=
  let d := (output_dir cfg ++ "/episodes/" ++ uuid4 k)%string in
  ((d ++ "/step_000000_obs.png")%string
   :: map (fun t => (d ++ "/step_" ++ fmt_06d t ++ "_next_obs.png")%string)
        (py_range 1 (max_steps_per_episode cfg + 1))
   ++ [(d ++ "/episode.json")%string])%list.

Definition is_pause (e : event) : Prop := e = ev_sleep_ms 500.

Lemma writes_app (l l' : list event) : writes (l ++ l') = (writes l ++ writes l')%list.
Proof. unfold writes. apply flat_map_app. Qed.

Lemma writes_pauses (l : list event) : Forall is_pause l -> writes l = [].
Proof.
  induction 1 as [| e l He _ IH]; [reflexivity |].
  unfold is_pause in He. subst e. exact IH.
Qed.

Lemma collect_step_writes cfg ep_dir t (loc loc' : Locals) (s s' : Sess') :
  collect_step' cfg ep_dir t loc s = (s', Ok loc') ->
  writes (w_events (world s'))
  = (writes (w_events (world s))
     ++ [(ep_dir ++ "/step_" ++ fmt_06d t ++ "_next_obs.png")%string])%list.
Proof.
  unfold collect_step. intros H.
  apply bind_Ok_inv in H. destruct H as (r & s1 & Hr & H).
  apply bind_Ok_inv in H. destruct H as (p & s2 & Hp & H).
  apply bind_Ok_inv in H. destruct H as (ts & s3 & Hts & H).
  apply bind_Ok_inv in H. destruct H as (rec & s4 & Hrec & H).
  unfold ret in H. inversion H; subst. clear H.
  pose proof (steady_step_head is_pause (w_events (world s)) cfg loc eq_refl s) as Hhead.
  rewrite Hr in Hhead. cbn [fst] in Hhead.
  destruct Hhead as (l & Hl & Hq).
  { exists []. rewrite app_nil_r. split; [reflexivity | constructor]. }
  assert (H3 : w_events (world s') = w_events (world s3)).
  { destruct (snd r); unfold ret, lift in Hrec; [inversion Hrec; reflexivity |].
    destruct (new_ActionRecord "navigate" [("url", JStr (initial_url cfg))]);
      inversion Hrec; reflexivity. }
  assert (H2 : w_events (world s3) = w_events (world s2)).
  { unfold in_world, zoom, _ts_ms in Hts. inversion Hts; reflexivity. }
  assert (H1 : w_events (world s2)
               = (w_events (world s1)
                  ++ [ev_write (ep_dir ++ "/step_" ++ fmt_06d t ++ "_next_obs.png")])%list).
  { unfold in_world, zoom, _save_next_screenshot, bind, log, modify, ret in Hp.
    inversion Hp; reflexivity. }
  rewrite H3, H2, H1, Hl, !writes_app, (writes_pauses l Hq). simpl.
  now rewrite app_nil_r.
Qed.

Lemma steps_loop_writes cfg ep_dir (ts : list Z) :
  forall (loc loc' : Locals) (s s' : Sess'),
    steps_loop' cfg ep_dir ts loc s = (s', Ok loc') ->
    writes (w_events (world s'))
    = (writes (w_events (world s))
       ++ map (fun t => (ep_dir ++ "/step_" ++ fmt_06d t ++ "_next_obs.png")%string) ts)%list.
Proof.
  induction ts as [| t ts IH]; intros loc loc' s s' H; simpl in H.
  - inversion H; subst. now rewrite app_nil_r.
  - apply bind_Ok_inv in H. destruct H as (loc1 & s1 & Hstep & Hrest).
    rewrite (IH _ _ _ _ Hrest), (collect_step_writes _ _ _ _ _ _ _ Hstep).
    rewrite <- app_assoc. reflexivity.
Qed.

Lemma collect_episode_writes cfg k act (w w' : World) r :
  collect_episode' cfg k act w = (w', Ok r) ->
  writes (w_events w') = (writes (w_events w) ++ episode_files cfg k)%list.
Proof.
  unfold collect_episode. intros H.
  apply bind_Ok_inv in H. destruct H as ([] & w1 & Hmk & H).
  apply bind_Ok_inv in H. destruct H as (loc & w2 & Hwith & H).
  apply bind_Ok_inv in H. destruct H as (p & w3 & Hjson & H).
  unfold ret in H. inversion H; subst. clear H.
  unfold with_env in Hwith. destruct (env_factory k) as [e | ex |]; try discriminate.
  unfold log, modify in Hwith. cbv beta iota in Hwith.
  match type of Hwith with
  | (let (_, _) := ?body ?s0 in _) = _ =>
      destruct (body s0) as [sb rb] eqn:Hbody
  end.
  inversion Hwith; subst. clear Hwith.
  apply bind_Ok_inv in Hbody. destruct Hbody as (st & s1 & Hopen & Hbody).
  apply bind_Ok_inv in Hbody. destruct Hbody as (p1 & s2 & Hp1 & Hbody).
  apply bind_Ok_inv in Hbody. destruct Hbody as (ts & s3 & Hts & Hbody).
  apply steps_loop_writes in Hbody.
  assert (H3 : w_events (world s3) = w_events (world s2)).
  { unfold in_world, zoom, _ts_ms in Hts. inversion Hts; reflexivity. }
  assert (H2 : w_events (world s2)
               = (w_events (world s1)
                  ++ [ev_write ((output_dir cfg ++ "/episodes/" ++ uuid4 k)
                                ++ "/step_000000_obs.png")])%list).
  { unfold in_world, zoom, _save_screenshot, bind, log, modify, ret in Hp1.
    inversion Hp1; reflexivity. }
  assert (H1 : w_events (world s1) = (w_events w1 ++ [ev_enter k])%list).
  { unfold call in Hopen. cbn [computer world] in Hopen.
    destruct (env_call open_web_browser e) as [e1 r1]. inversion Hopen; reflexivity. }
  assert (H0 : w_events w1
               = (w_events w ++ [ev_mkdir (output_dir cfg ++ "/episodes/" ++ uuid4 k)])%list).
  { unfold log, modify in Hmk. inversion Hmk; reflexivity. }
  unfold _save_json, bind, log, modify, ret in Hjson. inversion Hjson; subst.
  cbn [w_events]. rewrite !writes_app, Hbody, H3, H2, H1, H0, !writes_app.
  unfold episode_files. simpl. rewrite !app_nil_r, <- !app_assoc. reflexivity.
Qed.

Lemma episodes_loop_writes cfg (ks : list nat) :
  forall act acc (w w' : World) eps,
    episodes_loop' cfg ks act acc w = (w', Ok eps) ->
    writes (w_events w') = (writes (w_events w) ++ flat_map (episode_files cfg) ks)%list.
Proof.
  induction ks as [| k ks IH]; intros act acc w w' eps H; simpl in H.
  - inversion H; subst. simpl. now rewrite app_nil_r.
  - apply bind_Ok_inv in H. destruct H as ([ep act'] & w1 & Hep & Hrest).
    rewrite (IH _ _ _ _ _ Hrest), (collect_episode_writes _ _ _ _ _ _ Hep).
    simpl. rewrite <- app_assoc. reflexivity.
Qed.

(** X20.  The files that a run of [collect_episodes] that returns has written,
    in order: for each episode its initial screenshot
    [step_000000_obs.png], then one [step_<index>_next_obs.png] per step,
    then [episode.json]; nothing else. *)
Theorem collect_episodes_files cfg (w w' : World) eps :
  collect_episodes' cfg w = (w', Ok eps) ->
  writes (w_events w')
  = (writes (w_events w)
     ++ flat_map (episode_files cfg) (seq 0 (Z.to_nat (episodes cfg))))%list.
Proof.
  unfold collect_episodes. intros H.
  apply bind_Ok_inv in H. destruct H as ([] & w1 & H1 & H).
  apply bind_Ok_inv in H. destruct H as ([] & w2 & H2 & H).
  apply episodes_loop_writes in H. rewrite H.
  unfold modify in H1. inversion H1; subst.
  unfold log, modify in H2. inversion H2; subst.
  cbn [w_events]. rewrite writes_app. simpl. now rewrite app_nil_r.
Qed.

End Trace.

(* ================================================================= *)
(** ** Runs on concrete inputs (IEEE 754 binary64) *)

Section Concrete.

(** *** Episode files and priors *)

Definition action_step (nm : string) (a : pydict (json float)) : json float :=
  JDict [("step_index", JInt 1);
         ("action", JDict [("name", JStr nm); ("args", JDict a)])].

Definition click (x y : Z) : json float :=
  action_step "click_at" [("x", JInt x); ("y", JInt y)].

Definition episode_of (l : list (json float)) : dir_entry float :=
  EpisodeDir (Some (Parsed (JDict [("episode_id", JStr "e0"); ("steps", JList l)]))).

Definition fit_result (w h : Z) (entries : list (dir_entry float))
  : BehaviorPrior float * result unit :=
  fit_from_episodes (PathDir entries) (new_BehaviorPrior w h).

(** The prior of the scenario of the specification: three clicks at
    (10,10), (20,20), (30,30). *)
Definition clicks_prior : BehaviorPrior float :=
  fst (fit_result 1440 900 [episode_of [click 10 10; click 20 20; click 30 30]]).

(** *** A toy browser *)

Fixpoint take_until_slash (s : string) : string :=
  match s with
  | EmptyString => EmptyString
  | String c s' =>
      if Ascii.eqb c "/" then EmptyString else String c (take_until_slash s')
  end.

(** [urlparse(u).netloc] for the URLs of the toy browser. *)
Definition simple_netloc (u : string) : option string :=
  if String.prefix "https://" u
  then Some (take_until_slash (substring 8 (String.length u - 8) u))
  else Some "".

Definition page (u : string) : string * result EnvState :=
  (u, Ok (mkEnvState u "png")).

(** The state of the browser is the current URL; a click follows a link
    that leaves the site. *)
Definition browser_call (c : EnvCall (F := float)) (u : string)
  : string * result EnvState :=
  match c with
  | open_web_browser => page "https://example.com/"
  | navigate (JStr v) => page v
  | click_at _ _ => page "https://evil.com/landing"
  | _ => page u
  end.

(** A browser whose clicks time out. *)
Definition flaky_call (c : EnvCall (F := float)) (u : string)
  : string * result EnvState :=
  match c with
  | open_web_browser => page "https://example.com/"
  | navigate (JStr v) => page v
  | click_at _ _ => (u, Raise (Exception "TimeoutError"))
  | _ => page u
  end.

(** A browser that dies after the first page: every later operation
    raises, the state query too. *)
Definition closed_call (c : EnvCall (F := float)) (u : string)
  : string * result EnvState :=
  match c with
  | open_web_browser => page "https://example.com/"
  | _ => (u, Raise (Exception "TargetClosedError"))
  end.

(** A generator whose integer draws are all [k]: with [k = 3] the random
    policy always picks [click_at]. *)
Definition fixed_rng (k : Z) : Rng float :=
  mkRng (fun _ => k) (fun _ => 0%float) 0.

Definition world0 : World (F := float) := mkWorld (fixed_rng 0) [] 0.

(** A run of [collect_episodes] on a toy browser with a 1440 x 900
    screen, from [world0]. *)
Notation run_collect env_call cfg :=
  (collect_episodes string (fun _ => Ok "about:blank") env_call
     (fun u => (u, Ok (1440, 900))) simple_netloc (fun _ => fixed_rng 3)
     (fun _ => "e0") (fun k => Z.of_nat k) cfg world0).

Definition guard_cfg : CollectConfig :=
  mkCollectConfig "out" 1 2 "https://example.com/" false (Some ["example.com"]) 0.

Definition five_cfg : CollectConfig :=
  mkCollectConfig "out" 1 5 "https://example.com/" false None 0.

(** *** C1 *)

(** C1.  With the whitelist ["example.com"]: the first step samples a
    click that leads to evil.com; at the second step the guard fires and
    the collector navigates back to the initial URL, but the StepRecord of
    that step holds the click of step 1, not [navigate]. *)
Theorem guard_step_records_stale_action :
  exists w' s1 s2,
    run_collect browser_call guard_cfg = (w', Ok [mkEpisodeRecord "e0" [s1; s2]]) /\
    url (obs s2) = "https://evil.com/landing" /\
    _domain_allowed simple_netloc (url (obs s2)) (whitelist_domains guard_cfg) = false /\
    url (next_obs s2) = initial_url guard_cfg /\
    name (action s2) = "click_at" /\
    action s2 = action s1 /\
    name (action s2) <> "navigate".
Proof.
  do 3 eexists. split; [vm_compute; reflexivity |].
  repeat split; try (vm_compute; reflexivity). discriminate.
Qed.

(** *** C2 *)

(** An index file that cannot be parsed makes the fit raise: it is not
    skipped, and the episode after it is not aggregated. *)
Lemma unreadable_index_aborts_fit :
  fit_result 1440 900
    [EpisodeDir (Some (Unreadable (Exception "JSONDecodeError")));
     episode_of [click 10 10]]
  = (new_BehaviorPrior 1440 900, Raise (Exception "JSONDecodeError")).
Proof. reflexivity. Qed.

Lemma fit_from_episodes_skips_and_raises_witness :
  (exists bp',
     fit_result 1440 900
       [NotDir; EpisodeDir None; episode_of [click 10 10; click 20 20; click 30 30]]
     = (bp', Ok tt)) /\
  fit_result 1440 900
    [NotDir; EpisodeDir None; episode_of [click 10 10; click 20 20; click 30 30]]
  = fit_result 1440 900 [episode_of [click 10 10; click 20 20; click 30 30]].
Proof.
  destruct (fit_from_episodes_skips_and_raises (F := float)) as (Hskip & _ & _ & Htotal).
  split.
  - apply Htotal; [reflexivity | vm_compute; discriminate | reflexivity | reflexivity].
  - apply Hskip.
Defined.

(** *** C3 *)

(** Two priors on which a kind observed once does not get 20% of the
    screen: on a 4 x 4 screen the fallback is floored at 1.0, above
    0.2 * 4; and a kind whose single step carried coordinates keeps the
    0.0 of its first sample. *)
Lemma single_observation_std_differs :
  (exists bp' st,
     fit_result 4 4 [episode_of [action_step "wait_5_seconds" []]] = (bp', Ok tt) /\
     dget "wait_5_seconds" (action_stats bp') = Some st /\ count st = 1 /\
     std_x st = Some 1%float /\
     std_x st <> Some (f_mul (f_of_int 4) f_fifth)) /\
  (exists bp' st,
     fit_result 1440 900 [episode_of [click 10 10]] = (bp', Ok tt) /\
     dget "click_at" (action_stats bp') = Some st /\ count st = 1 /\
     std_x st = Some 0%float /\ std_y st = Some 0%float /\
     f_mul (f_of_int 1440) f_fifth = 288%float).
Proof.
  split; do 2 eexists; (split; [vm_compute; reflexivity |]);
    (split; [reflexivity |]); repeat split; try (vm_compute; reflexivity).
  intros H.
  apply (f_equal (fun o => match o with
                           | Some a => Prim2SF a
                           | None => S754_nan
                           end)) in H.
  vm_compute in H. discriminate.
Qed.

Lemma fit_single_observation_std_witness :
  exists bp' st,
    fit_result 1440 900 [episode_of [action_step "wait_5_seconds" []]] = (bp', Ok tt) /\
    dget "wait_5_seconds" (action_stats bp') = Some st /\
    std_x st = Some 288%float /\ std_y st = Some 180%float.
Proof.
  pose (bp' := fst (fit_result 1440 900 [episode_of [action_step "wait_5_seconds" []]])).
  assert (Hrun : fit_result 1440 900 [episode_of [action_step "wait_5_seconds" []]]
                 = (bp', Ok tt)) by (vm_compute; reflexivity).
  pose (st := stats_of "wait_5_seconds" bp').
  assert (Hget : dget "wait_5_seconds" (action_stats bp') = Some st)
    by (vm_compute; reflexivity).
  exists bp', st. split; [exact Hrun |]. split; [exact Hget |].
  destruct (fit_single_observation_std (F := float) 1440 900 _ bp' Hrun
              "wait_5_seconds" st Hget eq_refl eq_refl) as (Hx & Hy & _).
  split; [rewrite Hx | rewrite Hy]; vm_compute; reflexivity.
Defined.

(** *** C4 *)

(** C4.  Three clicks at (0,10), (20,20), (30,30): the first is dropped
    because its [x] is 0, so the fit reports the mean and deviation of the
    last two, (25, 25) and sqrt 50, with [count = 3]; the whole-sample mean
    of the three inputs is (16.67, 20) and their deviation 15.28 and 10. *)
Theorem zero_coordinate_sample_dropped :
  exists bp' st,
    fit_result 1440 900 [episode_of [click 0 10; click 20 20; click 30 30]]
    = (bp', Ok tt) /\
    dget "click_at" (action_stats bp') = Some st /\
    count st = 3 /\ _n st = Some 2 /\
    mean_x st = Some 25%float /\ mean_y st = Some 25%float /\
    std_x st = Some (PrimFloat.sqrt 50) /\ std_y st = Some (PrimFloat.sqrt 50) /\
    PrimFloat.ltb (direct_mean [0; 20; 30]%float) 17 = true /\
    direct_mean [10; 20; 30]%float = 20%float /\
    PrimFloat.ltb 15 (direct_std [0; 20; 30]%float) = true /\
    direct_std [10; 20; 30]%float = 10%float.
Proof.
  do 2 eexists. split; [vm_compute; reflexivity |].
  split; [reflexivity |]. repeat split; vm_compute; reflexivity.
Qed.

(** *** C6 *)

(** The prior fitted from three clicks has no scroll histogram for
    [click_at]; the prior read back from its snapshot has an empty one. *)
Lemma loaded_histogram_differs :
  exists bp',
    load (save clicks_prior) = Ok bp' /\
    option_map direction_counts (dget "click_at" (action_stats clicks_prior))
      = Some None /\
    option_map direction_counts (dget "click_at" (action_stats bp'))
      = Some (Some []) /\
    action_stats bp' <> action_stats clicks_prior.
Proof.
  eexists. split; [vm_compute; reflexivity |].
  split; [reflexivity |]. split; [reflexivity |].
  intros H.
  apply (f_equal (fun d => option_map direction_counts (dget "click_at" d))) in H.
  vm_compute in H. discriminate.
Qed.

(** *** C5 *)

(** With a browser that has died, the dispatch raises and so does the
    state query that replaces it: the error leaves [collect_episodes] and
    no episode is produced. *)
Lemma crashed_browser_aborts_episode :
  snd (run_collect closed_call five_cfg) = Raise (Exception "TargetClosedError").
Proof. vm_compute. reflexivity. Qed.

Lemma flaky_reliable :
  reliable_env (F := float) string (fun _ => Ok "about:blank") flaky_call
    (fun u => (u, Ok (1440, 900))).
Proof.
  repeat split.
  - intros k. eauto.
  - intros e. eauto.
  - intros e. unfold flaky_call, page. eauto.
  - intros e. unfold flaky_call, page. eauto.
  - intros u e. unfold flaky_call, page. destruct u; eauto.
  - intros c e. destruct c; try exact I. simpl. destruct target; exact I.
Defined.

(** Every click of the five steps times out; the episode still has the
    five StepRecords, each with the click that was sampled. *)
Lemma collect_episodes_step_count_witness :
  exists w' ep,
    run_collect flaky_call five_cfg = (w', Ok [ep]) /\
    (map step_index (steps ep) = [1; 2; 3; 4; 5] /\
     List.length (steps ep) = 5%nat) /\
    map (fun s => name (action s)) (steps ep)
      = ["click_at"; "click_at"; "click_at"; "click_at"; "click_at"] /\
    nth 4 (w_events w') (ev_enter 0) = ev_sleep_ms 500 /\
    exists w1 eps, run_collect flaky_call five_cfg = (w1, Ok eps).
Proof.
  pose (w' := fst (run_collect flaky_call five_cfg)).
  pose (ep := nth 0 (match snd (run_collect flaky_call five_cfg) with
                     | Ok l => l
                     | _ => []
                     end) (mkEpisodeRecord "" [])).
  assert (Hrun : run_collect flaky_call five_cfg = (w', Ok [ep]))
    by (vm_compute; reflexivity).
  exists w', ep. split; [exact Hrun |].
  destruct (collect_episodes_step_count (F := float) string
              (fun _ => Ok "about:blank") flaky_call (fun u => (u, Ok (1440, 900)))
              simple_netloc (fun _ => fixed_rng 3) (fun _ => "e0")
              (fun k => Z.of_nat k) five_cfg) as (Hcount & _ & Hreturns).
  pose proof (Hcount world0 w' [ep] Hrun) as [_ H].
  specialize (H ep (or_introl eq_refl)).
  split; [exact H |].
  split; [vm_compute; reflexivity |]. split; [vm_compute; reflexivity |].
  exact (Hreturns flaky_reliable world0).
Defined.

(** *** C7 *)

(** A generator whose normal variates are all 1000: the Gaussian draw
    lands far to the right of the screen. *)
Definition far_rng : Rng float := mkRng (fun _ => 0) (fun _ => 1000%float) 0.

Lemma sample_coordinates_in_screen_witness :
  exists g' x y,
    sample_coordinates clicks_prior "click_at" far_rng = (g', Ok (x, y)) /\
    x = 1439 /\ 0 <= x < 1440 /\ 0 <= y < 900.
Proof.
  do 3 eexists. split; [vm_compute; reflexivity |]. split; [reflexivity |].
  destruct (sample_coordinates_in_screen clicks_prior "click_at" far_rng
              eq_refl eq_refl) as [Hin _].
  apply (Hin (advance (advance far_rng))). vm_compute. reflexivity.
Defined.

(** *** C8 and C10 *)

Definition point_args : pydict (json float) := [("x", JInt 100); ("y", JInt 200)].

Definition drag_args : pydict (json float) :=
  [("x", JInt 5000); ("y", JInt 10);
   ("destination_x", JInt 99999); ("destination_y", JInt (-5));
   ("note", JStr "keep")].

Definition mem_of (a : pydict (json float)) : Mem float := mkMem [a] (fixed_rng 1).

Lemma validate_or_adjust_idempotent_witness :
  exists m1 out1 m2 out2 o2,
    validate_or_adjust clicks_prior "scroll_at" (Some 0%nat) (mem_of point_args)
    = (m1, Ok out1) /\
    validate_or_adjust clicks_prior "scroll_at" (Some out1)
      (mkMem (heap m1) (fixed_rng 2)) = (m2, Ok out2) /\
    nth_error (heap m2) out2 = Some o2 /\
    dget "x" o2 = Some (JInt 100) /\ dget "y" o2 = Some (JInt 200).
Proof.
  pose (r1 := validate_or_adjust clicks_prior "scroll_at" (Some 0%nat) (mem_of point_args)).
  assert (H1 : r1 = (fst r1, Ok 1%nat)) by (vm_compute; reflexivity).
  pose (r2 := validate_or_adjust clicks_prior "scroll_at" (Some 1%nat)
                (mkMem (heap (fst r1)) (fixed_rng 2))).
  assert (H2 : r2 = (fst r2, Ok 2%nat)) by (vm_compute; reflexivity).
  pose proof (validate_or_adjust_idempotent clicks_prior "scroll_at" 0%nat
                (mem_of point_args) point_args (JInt 100) (JInt 200)
                eq_refl eq_refl eq_refl eq_refl eq_refl eq_refl
                (fst r1) (Ok 1%nat) H1) as [_ Hsecond].
  pose proof (Hsecond (fixed_rng 2) (fst r2) (Ok 2%nat) H2) as (o2 & Ho2 & Hx & Hy).
  exists (fst r1), 1%nat, (fst r2), 2%nat, o2. auto.
Defined.

Lemma validate_or_adjust_frame_witness :
  exists m' out o,
    validate_or_adjust clicks_prior "drag_and_drop" (Some 0%nat) (mem_of drag_args)
    = (m', Ok out) /\
    nth_error (heap m') 0 = Some drag_args /\
    nth_error (heap m') out = Some o /\
    dget "x" o = Some (JInt 720) /\
    dget "destination_x" o = Some (JInt 99999) /\
    dget "destination_y" o = Some (JInt (-5)) /\
    dget "note" o = Some (JStr "keep").
Proof.
  pose (r := validate_or_adjust clicks_prior "drag_and_drop" (Some 0%nat)
               (mem_of drag_args)).
  assert (Hr : r = (fst r, Ok 1%nat)) by (vm_compute; reflexivity).
  destruct (validate_or_adjust_frame clicks_prior "drag_and_drop" 0%nat
              (mem_of drag_args) drag_args eq_refl (fst r) (Ok 1%nat) Hr)
    as (Hsame & _ & _ & _ & o & Ho & Hframe).
  exists (fst r), 1%nat, o. split; [exact Hr |]. split; [exact Hsame |].
  split; [exact Ho |]. split.
  - assert (Hx : option_map (dget "x") (nth_error (heap (fst r)) 1)
                 = Some (Some (JInt 720))) by (vm_compute; reflexivity).
    rewrite Ho in Hx. cbn [option_map] in Hx.
    exact (f_equal (fun v => match v with Some d => d | None => None end) Hx).
  - repeat split; rewrite Hframe; try reflexivity;
      simpl; intros H; repeat destruct H as [H | H]; try discriminate H; exact H.
Defined.

(** *** C9 *)

(** A drag that starts at the left edge: [x] is 0, the fallback 40. *)
Definition edge_drag : pydict (json float) :=
  [("x", JInt 0); ("y", JInt 7);
   ("destination_x", JInt 40); ("destination_y", JInt 50)].

Lemma fit_step_zero_coordinate_witness :
  (exists bp',
     fit_step (click 0 10) (new_BehaviorPrior 1440 900) = (bp', Ok tt) /\
     action_counts bp' = [("click_at", 1)] /\
     count (stats_of "click_at" bp') = 1 /\
     mean_x (stats_of "click_at" bp') = None) /\
  (exists bp',
     fit_step (action_step "drag_and_drop" edge_drag) (new_BehaviorPrior 1440 900)
     = (bp', Ok tt) /\
     count (stats_of "drag_and_drop" bp') = 1 /\
     mean_x (stats_of "drag_and_drop" bp') = Some 40%float /\
     mean_y (stats_of "drag_and_drop" bp') = Some 7%float).
Proof.
  split.
  - destruct (fit_step_zero_coordinate (F := float) (new_BehaviorPrior 1440 900)
                [("step_index", JInt 1);
                 ("action", JDict [("name", JStr "click_at");
                                   ("args", JDict [("x", JInt 0); ("y", JInt 10)])])]
                [("name", JStr "click_at");
                 ("args", JDict [("x", JInt 0); ("y", JInt 10)])]
                [("x", JInt 0); ("y", JInt 10)] "click_at"
                eq_refl eq_refl eq_refl eq_refl (or_introl eq_refl))
      as (_ & _ & Hzero).
    destruct (Hzero (or_introl (conj eq_refl eq_refl)))
      as (bp' & Hrun & Hcounts & Hcount & Hmom).
    exists bp'. split; [exact Hrun |]. split; [exact Hcounts |].
    split; [exact Hcount |].
    apply (f_equal (fun m => fst (fst (fst (fst (fst (fst m))))))) in Hmom. exact Hmom.
  - destruct (fit_step_zero_coordinate (F := float) (new_BehaviorPrior 1440 900)
                [("step_index", JInt 1);
                 ("action", JDict [("name", JStr "drag_and_drop");
                                   ("args", JDict edge_drag)])]
                [("name", JStr "drag_and_drop"); ("args", JDict edge_drag)]
                edge_drag "drag_and_drop"
                eq_refl eq_refl eq_refl eq_refl (or_introl eq_refl))
      as (Hx & _ & _).
    destruct (Hx eq_refl) as [_ Hfed].
    destruct (Hfed eq_refl eq_refl) as (bp' & Hrun & _ & Hcount & Hmom).
    exists bp'. split; [exact Hrun |]. split; [exact Hcount |]. split.
    + apply (f_equal (fun m => fst (fst (fst (fst (fst (fst m))))))) in Hmom.
      exact Hmom.
    + apply (f_equal (fun m => snd (fst (fst (fst (fst (fst m))))))) in Hmom.
      exact Hmom.
Defined.

(** *** Further runs *)

Lemma screenshot_paths_distinct_witness :
  (snd (_save_screenshot "out/episodes/e0" 1 "png" world0)
   = snd (_save_screenshot "out/episodes/e0" 2 "png" world0) -> 1 = 2) /\
  (snd (_save_next_screenshot "out/episodes/e0" 1 "png" world0)
   = snd (_save_next_screenshot "out/episodes/e0" 2 "png" world0) -> 1 = 2).
Proof.
  apply (screenshot_paths_distinct (F := float) "out/episodes/e0" 1 2 "png" "png"
           world0 world0); lia.
Defined.

(** The session in which the policy draws 3 every time. *)
Definition session3 : Sess (F := float) string :=
  mkSess (mkWorld (fixed_rng 3) [] 0) "https://example.com/".

Definition policy_run : Sess (F := float) string * result (ActionRecord (F := float)) :=
  _random_action string (fun u => (u, Ok (1440, 900))) session3.

Lemma random_action_shape_witness :
  exists s' a,
    policy_run = (s', Ok a) /\
    a = mkActionRecord "click_at" [("x", JInt 13); ("y", JInt 83)] /\
    In (name a) acts /\
    exists W H e', (e', Ok (W, H)) = ("https://example.com/", Ok (1440, 900)) /\
                   sampled W H a.
Proof.
  pose (a := mkActionRecord (F := float) "click_at" [("x", JInt 13); ("y", JInt 83)]).
  assert (Hrun : policy_run = (fst policy_run, Ok a)) by (vm_compute; reflexivity).
  exists (fst policy_run), a. split; [exact Hrun |]. split; [reflexivity |].
  destruct (random_action_shape (F := float) string (fun u => (u, Ok (1440, 900)))
              session3 (fst policy_run) a Hrun) as (Hin & W & H & e' & Hsz & Hs).
  split; [exact Hin |]. exists W, H, e'. split; [symmetry; exact Hsz | exact Hs].
Defined.

Lemma random_action_dispatch_witness :
  exists s' a c,
    policy_run = (s', Ok a) /\ call_name c = "click_at" /\
    forall s1, dispatch string browser_call a s1 = call string browser_call c s1.
Proof.
  pose (a := mkActionRecord (F := float) "click_at" [("x", JInt 13); ("y", JInt 83)]).
  assert (Hrun : policy_run = (fst policy_run, Ok a)) by (vm_compute; reflexivity).
  destruct (random_action_dispatch (F := float) string browser_call
              (fun u => (u, Ok (1440, 900))) session3 (fst policy_run) a Hrun)
    as (c & Hname & Hc).
  exists (fst policy_run), a, c. auto.
Defined.

Lemma collect_episodes_transitions_witness :
  exists w' ep o0,
    run_collect flaky_call five_cfg = (w', Ok [ep]) /\
    episode_id ep = "e0" /\
    chained o0 (steps ep) /\
    image_path o0 = "out/episodes/e0/step_000000_obs.png" /\
    Forall (recorded_in "out/episodes/e0") (steps ep).
Proof.
  pose (w' := fst (run_collect flaky_call five_cfg)).
  pose (ep := nth 0 (match snd (run_collect flaky_call five_cfg) with
                     | Ok l => l
                     | _ => []
                     end) (mkEpisodeRecord "" [])).
  assert (Hrun : run_collect flaky_call five_cfg = (w', Ok [ep]))
    by (vm_compute; reflexivity).
  pose proof (collect_episodes_transitions (F := float) string
                (fun _ => Ok "about:blank") flaky_call (fun u => (u, Ok (1440, 900)))
                simple_netloc (fun _ => fixed_rng 3) (fun _ => "e0")
                (fun k => Z.of_nat k) five_cfg world0 w' [ep] Hrun) as H.
  change (seq 0 (Z.to_nat (episodes five_cfg))) with [0%nat] in H.
  apply Forall2_cons_iff in H. destruct H as [Hk _].
  destruct Hk as (Hid & (o0 & Hch & Hpath & _) & Hall).
  exists w', ep, o0. split; [exact Hrun |]. split; [exact Hid |].
  split; [exact Hch |]. split; [exact Hpath | exact Hall].
Defined.

Lemma collect_without_whitelist_samples_witness :
  exists w' ep,
    run_collect flaky_call five_cfg = (w', Ok [ep]) /\
    forall st, In st (steps ep) -> In (name (action st)) acts.
Proof.
  pose (w' := fst (run_collect flaky_call five_cfg)).
  pose (ep := nth 0 (match snd (run_collect flaky_call five_cfg) with
                     | Ok l => l
                     | _ => []
                     end) (mkEpisodeRecord "" [])).
  assert (Hrun : run_collect flaky_call five_cfg = (w', Ok [ep]))
    by (vm_compute; reflexivity).
  exists w', ep. split; [exact Hrun |]. intros st Hst.
  exact (collect_without_whitelist_samples (F := float) string
           (fun _ => Ok "about:blank") flaky_call (fun u => (u, Ok (1440, 900)))
           simple_netloc (fun _ => fixed_rng 3) (fun _ => "e0")
           (fun k => Z.of_nat k) five_cfg world0 w' [ep] (or_introl eq_refl) Hrun
           ep st (or_introl eq_refl) Hst).
Defined.

(** Two clicks, a pause and two document scrolls. *)
Definition mixed_steps : list (dir_entry float) :=
  [episode_of [click 10 10; click 20 20; action_step "wait_5_seconds" [];
               action_step "scroll_document" [("direction", JStr "down")];
               action_step "scroll_document" [("direction", JStr "down")]]].

Lemma fit_counts_agree_witness :
  exists bp',
    fit_from_episodes (PathDir mixed_steps) (new_BehaviorPrior 1440 900) = (bp', Ok tt) /\
    action_counts bp' = [("click_at", 2); ("wait_5_seconds", 1); ("scroll_document", 2)] /\
    action_counts bp' = map (fun kv => (fst kv, count (snd kv))) (action_stats bp').
Proof.
  pose (bp' := fst (fit_from_episodes (PathDir mixed_steps) (new_BehaviorPrior 1440 900))).
  assert (Hrun : fit_from_episodes (PathDir mixed_steps) (new_BehaviorPrior 1440 900) = (bp', Ok tt))
    by (vm_compute; reflexivity).
  exists bp'. split; [exact Hrun |]. split; [vm_compute; reflexivity |].
  exact (fit_counts_agree (F := float) 1440 900 (PathDir mixed_steps) bp' Hrun).
Defined.

Lemma fit_kinds_listed_once_witness :
  exists bp',
    fit_from_episodes (PathDir mixed_steps) (new_BehaviorPrior 1440 900) = (bp', Ok tt) /\
    NoDup (dkeys (action_counts bp')) /\
    Forall (fun kv => 1 <= snd kv) (action_counts bp').
Proof.
  pose (bp' := fst (fit_from_episodes (PathDir mixed_steps) (new_BehaviorPrior 1440 900))).
  assert (Hrun : fit_from_episodes (PathDir mixed_steps) (new_BehaviorPrior 1440 900) = (bp', Ok tt))
    by (vm_compute; reflexivity).
  exists bp'. split; [exact Hrun |].
  destruct (fit_kinds_listed_once (F := float) 1440 900 (PathDir mixed_steps) bp' Hrun) as (H1 & H2 & _).
  auto.
Defined.

Lemma sample_scroll_after_fit_witness :
  exists bp' g' dir mag,
    fit_from_episodes (PathDir mixed_steps) (new_BehaviorPrior 1440 900) = (bp', Ok tt) /\
    sample_scroll bp' false (fixed_rng 1) = (g', Ok (dir, mag)) /\
    In dir (direction_choices bp' false) /\
    direction_choices bp' false = ["down"] /\
    In mag (magnitude_choices bp' false).
Proof.
  pose (bp' := fst (fit_from_episodes (PathDir mixed_steps) (new_BehaviorPrior 1440 900))).
  assert (Hrun : fit_from_episodes (PathDir mixed_steps) (new_BehaviorPrior 1440 900) = (bp', Ok tt))
    by (vm_compute; reflexivity).
  destruct (sample_scroll_after_fit (F := float) 1440 900 (PathDir mixed_steps) bp' Hrun false (fixed_rng 1))
    as (g' & dir & mag & Hs & Hdir & Hmag).
  exists bp', g', dir, mag.
  split; [exact Hrun |]. split; [exact Hs |]. split; [exact Hdir |].
  split; [vm_compute; reflexivity | exact Hmag].
Defined.

Lemma pick_direction_weights_witness :
  List.length
    (filter (fun r => String.eqb (pick_direction r 0 [("up", 3); ("down", 1)] "up") "up")
            (py_range 1 (sum_counts [("up", 3); ("down", 1)] + 1)))
  = 3%nat.
Proof.
  apply (pick_direction_weights [("up", 3); ("down", 1)] "up" "up" 3).
  - repeat constructor; simpl; intuition discriminate.
  - repeat constructor; simpl; lia.
  - reflexivity.
Defined.

Lemma single_sample_uses_default_sigma_witness :
  exists bp' st,
    fit_from_episodes (PathDir [episode_of [click 10 10]]) (new_BehaviorPrior 1440 900) = (bp', Ok tt) /\
    dget "click_at" (action_stats bp') = Some st /\
    std_x st = Some 0%float /\ std_y st = Some 0%float /\
    sample_coordinates bp' "click_at" (fixed_rng 1)
    = (sigma_x <- lift (int_times_fifth 1440) ;;
       sigma_y <- lift (int_times_fifth 900) ;;
       gx <- gauss (mean_x st) sigma_x ;;
       x <- lift (py_int gx) ;;
       gy <- gauss (mean_y st) sigma_y ;;
       y <- lift (py_int gy) ;;
       ret (clamp 1440 x, clamp 900 y)) (fixed_rng 1).
Proof.
  pose (bp' := fst (fit_from_episodes (PathDir [episode_of [click 10 10]]) (new_BehaviorPrior 1440 900))).
  assert (Hrun : fit_from_episodes (PathDir [episode_of [click 10 10]]) (new_BehaviorPrior 1440 900) = (bp', Ok tt))
    by (vm_compute; reflexivity).
  pose (st := stats_of "click_at" bp').
  assert (Hget : dget "click_at" (action_stats bp') = Some st)
    by (vm_compute; reflexivity).
  assert (Hcount : count st = 1) by (vm_compute; reflexivity).
  assert (Hmean : mean_x st <> None) by (vm_compute; discriminate).
  destruct (single_sample_uses_default_sigma 1440 900
              (PathDir [episode_of [click 10 10]]) bp' "click_at" st Hrun Hget
              Hcount Hmean) as (Hx & Hy & Hdraw).
  exists bp', st. split; [exact Hrun |]. split; [exact Hget |].
  split; [exact Hx |]. split; [exact Hy |]. apply Hdraw.
Defined.

(** What [load] returns for the snapshot of the three clicks. *)
Definition reloaded_prior : BehaviorPrior float :=
  match load (save clicks_prior) with
  | Ok bp => bp
  | _ => new_BehaviorPrior 0 0
  end.

Lemma fit_step_after_load_raises_witness :
  (exists bp',
     fit_step (action_step "hover_at" [("x", JInt 5); ("y", JInt 5)]) reloaded_prior
     = (bp', Raise (Exception "KeyError"))) /\
  (exists bp',
     fit_step (click 40 40) reloaded_prior
     = (bp', Raise (Exception "AttributeError"))).
Proof.
  assert (Hload : load (save clicks_prior) = Ok reloaded_prior)
    by (vm_compute; reflexivity).
  split.
  - destruct (fit_step_after_load_raises (F := float) _ reloaded_prior
                [("step_index", JInt 1);
                 ("action", JDict [("name", JStr "hover_at");
                                   ("args", JDict [("x", JInt 5); ("y", JInt 5)])])]
                [("name", JStr "hover_at");
                 ("args", JDict [("x", JInt 5); ("y", JInt 5)])]
                "hover_at" Hload eq_refl eq_refl) as [Hkey _].
    { discriminate. }
    eexists. apply Hkey. vm_compute. reflexivity.
  - destruct (fit_step_after_load_raises (F := float) _ reloaded_prior
                [("step_index", JInt 1);
                 ("action", JDict [("name", JStr "click_at");
                                   ("args", JDict [("x", JInt 40); ("y", JInt 40)])])]
                [("name", JStr "click_at");
                 ("args", JDict [("x", JInt 40); ("y", JInt 40)])]
                "click_at" Hload eq_refl eq_refl) as [_ Hattr].
    { discriminate. }
    pose (st := stats_of "click_at" reloaded_prior).
    assert (Hget : dget "click_at" (action_stats reloaded_prior) = Some st)
      by (vm_compute; reflexivity).
    destruct (Hattr st 20%float [("x", JInt 40); ("y", JInt 40)] Hget)
      as (bp' & Hrun & _); try reflexivity.
    exists bp'. exact Hrun.
Defined.

Lemma validate_or_adjust_coordinates_accepted_witness :
  exists m' out o,
    validate_or_adjust clicks_prior "click_at" None (mem_of []) = (m', Ok out) /\
    nth_error (heap m') out = Some o /\
    dget "x" o = Some (JInt 20) /\ dget "y" o = Some (JInt 20) /\
    need_coordinates clicks_prior (JInt 20) (JInt 20) = false.
Proof.
  pose (r := validate_or_adjust clicks_prior "click_at" None (mem_of [])).
  assert (Hrun : r = (fst r, Ok 1%nat)) by (vm_compute; reflexivity).
  assert (Hw : 0 < screen_w clicks_prior) by (vm_compute; reflexivity).
  assert (Hh : 0 < screen_h clicks_prior) by (vm_compute; reflexivity).
  destruct (validate_or_adjust_coordinates_accepted clicks_prior "click_at" None
              (mem_of []) (fst r) 1%nat eq_refl Hw Hh Hrun)
    as (o & vx & vy & Ho & Hx & Hy & Hneed & _).
  assert (Hox : option_map (dget "x") (nth_error (heap (fst r)) 1) = Some (Some (JInt 20)))
    by (vm_compute; reflexivity).
  assert (Hoy : option_map (dget "y") (nth_error (heap (fst r)) 1) = Some (Some (JInt 20)))
    by (vm_compute; reflexivity).
  rewrite Ho in Hox, Hoy. simpl in Hox, Hoy.
  exists (fst r), 1%nat, o. split; [exact Hrun |]. split; [exact Ho |].
  split; [congruence |]. split; [congruence |].
  assert (vx = JInt 20) by congruence. assert (vy = JInt 20) by congruence.
  subst. exact Hneed.
Defined.

Lemma validate_or_adjust_other_kinds_witness :
  validate_or_adjust clicks_prior "type_text_at" (Some 0%nat)
    (mem_of [("x", JInt (-5)); ("y", JInt 99999); ("text", JStr "hi")])
  = (mkMem [[("x", JInt (-5)); ("y", JInt 99999); ("text", JStr "hi")];
            [("x", JInt (-5)); ("y", JInt 99999); ("text", JStr "hi")]]
       (fixed_rng 1),
     Ok 1%nat).
Proof.
  destruct (validate_or_adjust_other_kinds clicks_prior "type_text_at"
              (mem_of [("x", JInt (-5)); ("y", JInt 99999); ("text", JStr "hi")])
              eq_refl eq_refl) as [_ H].
  exact (H 0%nat _ eq_refl).
Defined.

Lemma validate_or_adjust_keeps_nan_witness :
  validate_or_adjust clicks_prior "click_at" (Some 0%nat)
    (mem_of [("x", JFloat nan); ("y", JInt 5)])
  = (mkMem [[("x", JFloat nan); ("y", JInt 5)]; [("x", JFloat nan); ("y", JInt 5)]]
       (fixed_rng 1),
     Ok 1%nat).
Proof.
  exact (validate_or_adjust_keeps_nan clicks_prior "click_at" 0%nat
           (mem_of [("x", JFloat nan); ("y", JInt 5)])
           [("x", JFloat nan); ("y", JInt 5)] nan (JInt 5)
           eq_refl eq_refl eq_refl (fun n => eq_refl) eq_refl eq_refl eq_refl eq_refl).
Defined.

Lemma validate_or_adjust_scroll_draws_witness :
  exists m',
    validate_or_adjust clicks_prior "scroll_document" (Some 0%nat)
      (mem_of [("direction", JStr "down")]) = (m', Ok 1%nat) /\
    heap m' = [[("direction", JStr "down")]; [("direction", JStr "down")]] /\
    cursor (rng m') = 1%nat.
Proof.
  pose (r := validate_or_adjust clicks_prior "scroll_document" (Some 0%nat)
               (mem_of [("direction", JStr "down")])).
  assert (Hrun : r = (fst r, Ok 1%nat)) by (vm_compute; reflexivity).
  destruct (validate_or_adjust_scroll_draws clicks_prior 0%nat
              (mem_of [("direction", JStr "down")]) (fst r)
              [("direction", JStr "down")] "down" 1%nat eq_refl eq_refl eq_refl Hrun)
    as (Hheap & _ & Hcur).
  exists (fst r). split; [exact Hrun |]. split; [exact Hheap | exact Hcur].
Defined.

Lemma welford_matches_direct_witness :
  exists st,
    feed [(1, 2); (3, 4)]%R new_ActionStats = (st, Ok tt) /\
    mean_x st = Some (direct_mean [1; 3]%R) /\
    std_x st = Some (direct_std [1; 3]%R).
Proof.
  destruct (welford_matches_direct [(1, 2); (3, 4)]%R (le_n 2))
    as (st & Hrun & _ & Hmx & _ & Hsx & _).
  exists st. auto.
Defined.

Lemma collect_episodes_files_witness :
  exists w' eps,
    run_collect flaky_call five_cfg = (w', Ok eps) /\
    writes (w_events w')
    = ["out/episodes/e0/step_000000_obs.png";
       "out/episodes/e0/step_000001_next_obs.png";
       "out/episodes/e0/step_000002_next_obs.png";
       "out/episodes/e0/step_000003_next_obs.png";
       "out/episodes/e0/step_000004_next_obs.png";
       "out/episodes/e0/step_000005_next_obs.png";
       "out/episodes/e0/episode.json"].
Proof.
  pose (w' := fst (run_collect flaky_call five_cfg)).
  pose (eps := match snd (run_collect flaky_call five_cfg) with
               | Ok l => l
               | _ => []
               end).
  assert (Hrun : run_collect flaky_call five_cfg = (w', Ok eps))
    by (vm_compute; reflexivity).
  exists w', eps. split; [exact Hrun |].
  rewrite (collect_episodes_files (F := float) string
             (fun _ => Ok "about:blank") flaky_call (fun u => (u, Ok (1440, 900)))
             simple_netloc (fun _ => fixed_rng 3) (fun _ => "e0")
             (fun k => Z.of_nat k) five_cfg world0 w' eps Hrun).
  vm_compute. reflexivity.
Defined.

Lemma validate_or_adjust_scroll_filled_witness :
  exists m' out o d v n,
    validate_or_adjust clicks_prior "scroll_at" None (mem_of []) = (m', Ok out) /\
    nth_error (heap m') out = Some o /\
    dget "direction" o = Some (JStr d) /\
    dget "magnitude" o = Some v /\ as_int v = Some n.
Proof.
  pose (r := validate_or_adjust clicks_prior "scroll_at" None (mem_of [])).
  assert (Hrun : r = (fst r, Ok 1%nat)) by (vm_compute; reflexivity).
  destruct (validate_or_adjust_scroll_filled clicks_prior "scroll_at" None
              (mem_of []) (fst r) 1%nat eq_refl Hrun)
    as (o & d & Ho & Hd & _ & Hmag).
  destruct (Hmag eq_refl) as (v & n & Hv & Hn).
  exists (fst r), 1%nat, o, d, v, n.
  split; [exact Hrun |]. split; [exact Ho |]. split; [exact Hd |].
  split; [exact Hv | exact Hn].
Defined.

(** A snapshot written by hand: a direction that was never counted. *)
Definition hollow_snapshot : json float :=
  JDict [("action_stats",
           JDict [("scroll_document",
                    JDict [("direction_counts", JDict [("up", JInt 0)])])])].

Definition hollow_prior : BehaviorPrior float :=
  match load hollow_snapshot with
  | Ok bp => bp
  | _ => new_BehaviorPrior 0 0
  end.

Lemma sample_scroll_empty_range_witness :
  load hollow_snapshot = Ok hollow_prior /\
  sample_scroll hollow_prior false (fixed_rng 1)
  = (fixed_rng 1, Raise (Exception "ValueError")) /\
  validate_or_adjust hollow_prior "scroll_document" (Some 0%nat)
    (mem_of [("direction", JStr "down")])
  = (mkMem [[("direction", JStr "down")]; [("direction", JStr "down")]] (fixed_rng 1),
     Raise (Exception "ValueError")).
Proof.
  split; [vm_compute; reflexivity |].
  pose (st := stats_of "scroll_document" hollow_prior).
  assert (Hget : dget "scroll_document" (action_stats hollow_prior) = Some st)
    by (vm_compute; reflexivity).
  assert (Hdc : direction_counts st = Some [("up", 0)]) by (vm_compute; reflexivity).
  destruct (sample_scroll_empty_range hollow_prior st "up" 0 [] Hget Hdc)
    as [Hs Hv].
  { vm_compute. discriminate. }
  split; [apply Hs |].
  exact (Hv 0%nat (mem_of [("direction", JStr "down")]) _ eq_refl).
Defined.

End Concrete.
